(** * Link-Content-Scraper: the scrape orchestration engine of [main.py]

    A shallow embedding of the rate limiter, the content fetcher, the
    content validators, the per-job progress record, the batch crawler and
    the archive builder, followed by the properties of the specification
    that were checked against them.

    Conventions.
    - A Python [str] is a list of Unicode code points ([list N]); [py "..."]
      turns a literal into one.
    - What comes from the Python runtime or its libraries rather than from
      this repository (the salted [hash], the Unicode tables behind
      [str.lower], [unicodedata.normalize] and the regex class [\d],
      [urllib.parse.urlparse], [tempfile.gettempdir], the [OSError] with
      which [open] refuses a path) is a field of the class [PyRuntime];
      every definition and theorem is generic in it.
    - Wall-clock readings and sleep durations are rationals.
    - The process is a record [world]: the two module-level dictionaries,
      the part of the file system the archive builder writes, and two
      ghost logs, the value of a progress record after each write to it
      and the effects on the network and the clock.
    - Coroutines interleave at awaits only. The rate limiter is therefore
      a sequence of passes in any order, and a batch is the first steps of
      its fetches followed by their completions in an order that the
      environment picks. [scrape_url] is a crawl whose awaits nothing
      else uses; [scrape_url_among] is the same crawl with the other
      tasks of the event loop, whatever they are, running at each of its
      awaits.
    - Directories and archives are keyed by job id (a [uuid4] string). A
      write fails when [open] raises [OSError] or when the text cannot be
      encoded; [mkdir] and [rmtree] are taken to succeed. Logging and the
      clean-up that [download_results] schedules for five minutes later
      are left out. *)

From Stdlib Require Import ZArith QArith Lqa List Ascii String Lia Bool DecimalString Sorted.
From stdpp Require Import gmap list.

Local Open Scope nat_scope.

(** ** Python strings *)

Abbreviation pystr := (list N).

Definition py (s : string) : pystr := map N_of_ascii (list_ascii_of_string s).

(** The line feed, the hyphen, the full stop. *)
Definition NL : N := 10.
Definition HYPHEN : N := 45.
Definition DOT : N := 46.

(** [s.startswith(p)] *)
Fixpoint startswith (p s : pystr) : bool :=
  match p, s with
  | [], _ => true
  | a :: p', b :: s' => (a =? b)%N && startswith p' s'
  | _ :: _, [] => false
  end.

(** [s.endswith(p)] *)
Definition endswith (p s : pystr) : bool := startswith (rev p) (rev s).

(** [sub in s], also [re.search] of a pattern without metacharacters *)
Fixpoint contains (sub s : pystr) : bool :=
  startswith sub s ||
  match s with
  | [] => false
  | _ :: s' => contains sub s'
  end.

(** [s.startswith((p1, p2, ...))] *)
Definition startswith_any (ps : list pystr) (s : pystr) : bool :=
  existsb (fun p => startswith p s) ps.

(** [s.split(sep)] for a separator of one character *)
Fixpoint split_on (sep : N) (s : pystr) : list pystr :=
  match s with
  | [] => [[]]
  | c :: s' =>
      if (c =? sep)%N then [] :: split_on sep s'
      else match split_on sep s' with
           | l :: ls => (c :: l) :: ls
           | [] => [[c]]
           end
  end.

(** [s.count(c)] for a substring of one character *)
Definition count_char (c : N) (s : pystr) : nat :=
  length (List.filter (N.eqb c) s).

(** [c.isspace()]: the characters [str.strip()] removes and [\s] matches. *)
Definition isspace (c : N) : bool :=
  ((9 <=? c) && (c <=? 13) || (28 <=? c) && (c <=? 32) ||
   (c =? 133) || (c =? 160) || (c =? 5760) ||
   (8192 <=? c) && (c <=? 8202) ||
   (c =? 8232) || (c =? 8233) || (c =? 8239) || (c =? 8287) || (c =? 12288))%N.

Fixpoint lstrip_with (f : N -> bool) (s : pystr) : pystr :=
  match s with
  | [] => []
  | c :: s' => if f c then lstrip_with f s' else s
  end.

Definition rstrip_with (f : N -> bool) (s : pystr) : pystr :=
  rev (lstrip_with f (rev s)).

Definition strip_with (f : N -> bool) (s : pystr) : pystr :=
  rstrip_with f (lstrip_with f s).

(** [s.strip()] *)
Definition strip (s : pystr) : pystr := strip_with isspace s.

(** Truthiness of a string: [if s] *)
Definition nonempty (s : pystr) : bool :=
  match s with
  | [] => false
  | _ :: _ => true
  end.

(** The longest prefix of [s] whose characters satisfy [f], and the rest:
    what a greedy [c+] or [c*] of a regular expression consumes. *)
Fixpoint span (f : N -> bool) (s : pystr) : pystr * pystr :=
  match s with
  | [] => ([], [])
  | c :: s' =>
      if f c then let '(a, b) := span f s' in (c :: a, b) else ([], s)
  end.

Definition strip_prefix (p s : pystr) : option pystr :=
  if startswith p s then Some (skipn (length p) s) else None.

(** [re.search]: the match at the leftmost position that has one. *)
Fixpoint re_search {A} (match_here : pystr -> option A) (s : pystr) : option A :=
  match match_here s with
  | Some x => Some x
  | None =>
      match s with
      | [] => None
      | _ :: s' => re_search match_here s'
      end
  end.

(** [re.search(lit + '$', s)]: [$] matches at the end of the string and
    just before a line feed that ends it. *)
Definition search_at_end (lit s : pystr) : bool :=
  endswith lit s || endswith (lit ++ [NL]) s.

(** [str(n)] for an integer *)
Definition str_of_Z (z : Z) : pystr := py (NilZero.string_of_int (Z.to_int z)).

(** ** Exceptions *)

(** [UnicodeEncodeError] carries the string that could not be encoded
    and the slice [start:stop] of it that the codec refused. *)
Inductive exn :=
  | Exception (msg : pystr)
  | ValueError (msg : pystr)
  | IndexError (msg : pystr)
  | NameError (msg : pystr)
  | OSError (msg : pystr)
  | UnicodeEncodeError (object : pystr) (start stop : nat)
  | HTTPException (status_code : Z) (detail : pystr).

Definition hex_digit (d : N) : N :=
  (if d <? 10 then 48 + d else 87 + d)%N.

(** [width] lower-case hexadecimal digits of [n], the most significant
    first. *)
Fixpoint hex (width : nat) (n : N) : pystr :=
  match width with
  | 0 => []
  | S width' => hex width' (n / 16) ++ [hex_digit (n mod 16)]
  end.

(** The escape under which the message of a codec error shows a
    character. *)
Definition escape_of (c : N) : pystr :=
  (if c <? 256 then py "\x" ++ hex 2 c
   else if c <? 65536 then py "\u" ++ hex 4 c
   else py "\U" ++ hex 8 c)%N.

(** [str(e)] *)
Definition str_of_exn (e : exn) : pystr :=
  match e with
  | Exception m | ValueError m | IndexError m | NameError m | OSError m => m
  | UnicodeEncodeError object start stop =>
      if stop =? S start then
        py "'utf-8' codec can't encode character '" ++
        escape_of (nth start object 0%N) ++ py "' in position " ++
        str_of_Z (Z.of_nat start) ++ py ": surrogates not allowed"
      else
        py "'utf-8' codec can't encode characters in position " ++
        str_of_Z (Z.of_nat start) ++ py "-" ++
        str_of_Z (Z.of_nat (stop - 1)) ++ py ": surrogates not allowed"
  | HTTPException _ d => d
  end.

(** The code points [str.encode('utf-8')] refuses: the surrogates. *)
Definition is_surrogate (c : N) : bool := ((55296 <=? c) && (c <=? 57343))%N.

(** The first run of surrogates of [s], as a slice of the string that
    [s] is the tail of from [pos] on. *)
Fixpoint first_surrogates (s : pystr) (pos : nat) : option (nat * nat) :=
  match s with
  | [] => None
  | c :: s' =>
      if is_surrogate c
      then Some (pos, pos + length (fst (span is_surrogate s)))
      else first_surrogates s' (S pos)
  end.

(** The exception of [text.encode('utf-8')] under the strict error
    handler, if it raises. *)
Definition encode_error (text : pystr) : option exn :=
  match first_surrogates text 0 with
  | Some (start, stop) => Some (UnicodeEncodeError text start stop)
  | None => None
  end.

Inductive result (A : Type) :=
  | Ok (a : A)
  | Raise (e : exn).
Arguments Ok {A} a.
Arguments Raise {A} e.

(** ** The Python runtime the program runs on *)

Class PyRuntime := {
  (** builtin [hash] on a [str], salted per process *)
  py_hash : pystr -> Z;
  (** [unicodedata.normalize('NFKD', s)] *)
  nfkd : pystr -> pystr;
  (** [s.lower()] *)
  str_lower : pystr -> pystr;
  (** [\d] of a [str] pattern: the decimal digits of Unicode *)
  isdecimal : N -> bool;
  (** the message of the [ValueError] that [urlparse(url)] raises, if it
      raises *)
  urlparse_error : pystr -> option pystr;
  (** [tempfile.gettempdir()] *)
  gettempdir : pystr;
  (** the message of the [OSError] that opening the file at a path for
      writing raises, if it raises *)
  os_error : pystr -> option pystr
}.

(** ** Settings (main.py, lines 24-30) *)

Definition RATE_LIMIT : nat := 15.
Definition RATE_PERIOD : Q := 60.
Definition MAX_RETRIES : nat := 3.
Definition RETRY_DELAY : Z := 5.
Definition PDF_TIMEOUT : Q := 60.
Definition DEFAULT_TIMEOUT : Q := 30.

Section Program.
Context `{PyRuntime}.

(** ** Pure helpers of main.py *)

(** The skip patterns of [should_skip_url]: [(literal, anchored at the end)]. *)
Definition skip_patterns : list (pystr * bool) :=
  [ (py ".png", true); (py ".jpg", true); (py ".jpeg", true);
    (py ".gif", true); (py ".webp", true);
    (py "twitter.com", false); (py "x.com", false);
    (py "linkedin.com", false);
    (py "facebook.com", false);
    (py "instagram.com", false);
    (py "youtube.com", false);
    (py "substackcdn.com", false) ].

Definition search_skip_pattern (s : pystr) (p : pystr * bool) : bool :=
  if snd p then search_at_end (fst p) s else contains (fst p) s.

(** [any(re.search(pattern, url.lower()) for pattern in skip_patterns)] *)
Definition matches_skip_pattern (url : pystr) : bool :=
  existsb (search_skip_pattern (str_lower url)) skip_patterns.

(** [should_skip_url] (lines 121-136). The value of [urlparse] is unused,
    but the call itself can raise. *)
Definition should_skip_url (url : pystr) : result bool :=
  match urlparse_error url with
  | Some msg => Raise (ValueError msg)
  | None => Ok (matches_skip_pattern url)
  end.

(** [urlparse(url)] returns. *)
Definition urlparse_accepts (url : pystr) : bool :=
  match urlparse_error url with
  | Some _ => false
  | None => true
  end.

(** One arXiv pattern tried at the head of [s]:
    [lit (\d+\.\d+)(v\d+)?] followed by [\.pdf] when [need_pdf]. Returns
    the two groups. *)
Definition match_arxiv_here (lit : pystr) (need_pdf : bool) (s : pystr)
  : option (pystr * pystr) :=
  match strip_prefix lit s with
  | None => None
  | Some rest =>
      let '(d1, r1) := span isdecimal rest in
      match d1, r1 with
      | _ :: _, c :: r2 =>
          if (c =? DOT)%N then
            let '(d2, r3) := span isdecimal r2 in
            match d2 with
            | [] => None
            | _ :: _ =>
                let '(version, r4) :=
                  match r3 with
                  | v :: r3' =>
                      if (v =? 118)%N then
                        match span isdecimal r3' with
                        | ([], _) => ([], r3)
                        | (d3, r5) => (v :: d3, r5)
                        end
                      else ([], r3)
                  | [] => ([], r3)
                  end in
                if need_pdf && negb (startswith (py ".pdf") r4) then None
                else Some (d1 ++ DOT :: d2, version)
            end
          else None
      | _, _ => None
      end
  end.

Definition arxiv_patterns : list (pystr * bool) :=
  [ (py "arxiv.org/abs/", false);
    (py "arxiv.org/pdf/", true);
    (py "arxiv.org/html/", false) ].

(** [transform_arxiv_url] (lines 138-160) *)
Fixpoint transform_arxiv_loop (patterns : list (pystr * bool)) (url : pystr) : pystr :=
  match patterns with
  | [] => url
  | (lit, need_pdf) :: rest =>
      match re_search (match_arxiv_here lit need_pdf) url with
      | Some (paper_id, version) =>
          py "https://arxiv.org/pdf/" ++ paper_id ++ version ++ py ".pdf"
      | None => transform_arxiv_loop rest url
      end
  end.

Definition transform_arxiv_url (url : pystr) : pystr :=
  transform_arxiv_loop arxiv_patterns url.

(** [is_pdf_url] (lines 162-164) *)
Definition is_pdf_url (url : pystr) : bool :=
  endswith (py ".pdf") (str_lower url) || contains (py "arxiv.org/pdf") (str_lower url).

(** *** Title extraction (lines 36-88) *)

(** [\[([^\]]+)\]\([^\)]+\)] tried at the head of [s]: the link text and
    what follows the closing parenthesis. *)
Definition match_link_here (s : pystr) : option (pystr * pystr) :=
  match s with
  | c :: r =>
      if (c =? 91)%N then
        match span (fun x => negb (x =? 93)%N) r with
        | ((_ :: _) as txt, rb :: lp :: r2) =>
            if (rb =? 93)%N && (lp =? 40)%N then
              match span (fun x => negb (x =? 41)%N) r2 with
              | (_ :: _, rp :: r4) => if (rp =? 41)%N then Some (txt, r4) else None
              | _ => None
              end
            else None
        | _ => None
        end
      else None
  | [] => None
  end.

(** [re.sub(r'\[([^\]]+)\]\([^\)]+\)', r'\1', s)], with [fuel] at least the
    length of [s]. *)
Fixpoint sub_links (fuel : nat) (s : pystr) : pystr :=
  match fuel, s with
  | S fuel', c :: s' =>
      match match_link_here s with
      | Some (txt, rest) => txt ++ sub_links fuel' rest
      | None => c :: sub_links fuel' s'
      end
  | _, _ => s
  end.

(** [re.sub(r'[*_`]', '', s)] *)
Definition remove_emphasis (s : pystr) : pystr :=
  List.filter (fun c => negb ((c =? 42) || (c =? 95) || (c =? 96))%N) s.

Definition clean_title (title : pystr) : pystr :=
  remove_emphasis (sub_links (length title) title).

Definition title_skip_prefixes : list pystr :=
  [py "URL Source:"; py "Markdown Content:"; py "# Original URL:"; py "Published:"].

(** The first loop: first-level headings and [Title:] lines. *)
Fixpoint find_h1_title (lines : list pystr) : option pystr :=
  match lines with
  | [] => None
  | raw :: rest =>
      let line := strip raw in
      if negb (nonempty line) then find_h1_title rest
      else if startswith_any title_skip_prefixes line then find_h1_title rest
      else
        let h1 :=
          if startswith (py "# ") line && (2 <? length line) then
            let title := clean_title (strip (skipn 2 line)) in
            if nonempty title && (3 <? length title) then Some title else None
          else None in
        match h1 with
        | Some title => Some title
        | None =>
            if startswith (py "Title:") line && (7 <? length line) then
              let title := strip (skipn 6 line) in
              if nonempty title then Some title else find_h1_title rest
            else find_h1_title rest
        end
  end.

(** The second loop: second-level headings. *)
Fixpoint find_h2_title (lines : list pystr) : option pystr :=
  match lines with
  | [] => None
  | raw :: rest =>
      let line := strip raw in
      if startswith (py "## ") line && (3 <? length line) then
        let title := clean_title (strip (skipn 3 line)) in
        if nonempty title && (3 <? length title) then Some title
        else find_h2_title rest
      else find_h2_title rest
  end.

Definition extract_title_from_content (content : pystr) : option pystr :=
  if negb (nonempty content) then None
  else
    let lines := split_on NL content in
    match find_h1_title (firstn 30 lines) with
    | Some title => Some title
    | None => find_h2_title (firstn 30 lines)
    end.

(** *** Safe file names (lines 90-119) *)

(** [\w] on the ASCII text left by [encode('ascii', 'ignore')] *)
Definition re_word (c : N) : bool :=
  ((48 <=? c) && (c <=? 57) || (65 <=? c) && (c <=? 90) ||
   (97 <=? c) && (c <=? 122) || (c =? 95))%N.

(** [re.sub(cls + '+', rep, s)]: every maximal run of characters of the
    class becomes one [rep]; [in_run] tells that the previous character
    was in the class. *)
Fixpoint sub_runs (cls : N -> bool) (rep : N) (in_run : bool) (s : pystr) : pystr :=
  match s with
  | [] => []
  | c :: s' =>
      if cls c then
        if in_run then sub_runs cls rep true s'
        else rep :: sub_runs cls rep true s'
      else c :: sub_runs cls rep false s'
  end.

Definition is_hyphen (c : N) : bool := (c =? HYPHEN)%N.

(** The title part of the name, before truncation. *)
Definition safe_chars_of (title : pystr) : pystr :=
  let title := nfkd title in
  let title := List.filter (fun c => (c <? 128)%N) title in
  let safe_chars :=
    List.filter (fun c => re_word c || isspace c || is_hyphen c) title in
  let safe_chars :=
    sub_runs (fun c => is_hyphen c || isspace c) HYPHEN false safe_chars in
  strip_with is_hyphen safe_chars.

Definition create_safe_filename (title : option pystr) (url : pystr)
  (max_length : nat) : pystr :=
  match title with
  | None | Some [] => str_of_Z (py_hash url) ++ py ".md"
  | Some title =>
      let safe_chars := safe_chars_of title in
      let safe_chars :=
        if max_length <? length safe_chars
        then rstrip_with is_hyphen (firstn max_length safe_chars)
        else safe_chars in
      let url_hash := firstn 8 (str_of_Z (Z.abs (py_hash url))) in
      if negb (nonempty safe_chars)
      then py "untitled_" ++ url_hash ++ py ".md"
      else safe_chars ++ py "_" ++ url_hash ++ py ".md"
  end.

(** *** Content validation *)

Definition metadata_prefixes : list pystr :=
  [py "# Original URL:"; py "Title:"; py "URL Source:"; py "Markdown Content:"].

(** [all(line.startswith((...)) for line in lines if line.strip())] over
    [lines = content.split('\n')] *)
Definition only_metadata (content : pystr) : bool :=
  forallb (startswith_any metadata_prefixes)
    (List.filter (fun line => nonempty (strip line)) (split_on NL content)).

(** Lines 264-272: the check of [get_markdown_content] on
    [content = response.text.strip()], with the exception it raises. *)
Definition validate_fetched (content : pystr) : result unit :=
  if (length content <? 50) || (count_char NL content <? 3)
  then Raise (Exception (py "Retrieved content too short or empty"))
  else if only_metadata content
  then Raise (Exception (py "Retrieved content contains only metadata"))
  else Ok tt.

Definition fetch_rejects (content : pystr) : bool :=
  match validate_fetched content with
  | Ok _ => false
  | Raise _ => true
  end.

(** Lines 261-272 on the text of a response: [strip()], then the two
    checks. *)
Definition fetch_time_rejects (text : pystr) : bool :=
  fetch_rejects (strip text).

(** Lines 346-350: the check of [create_zip_file]. *)
Definition archive_rejects (content : pystr) : bool :=
  (length (strip content) <? 50) || (count_char NL content <? 3) ||
  only_metadata content.

End Program.

(** ** The rate limiter (lines 166-182) *)

(** [x < y] on clock readings *)
Definition Qltb (x y : Q) : bool := negb (Qle_bool y x).

(** How one pass through the body of [acquire_rate_limit] ends: it returns
    [True], it awaits [asyncio.sleep(sleep_time)] before calling itself
    again, or [last_request_times[0]] raises. *)
Inductive verdict :=
  | Granted
  | Suspended (sleep_time : Q)
  | Faulted (e : exn).

(** The list comprehension of line 172. *)
Definition trim_window (now : Q) (last_request_times : list Q) : list Q :=
  List.filter (fun t => Qltb (now - t) RATE_PERIOD) last_request_times.

(** One pass, from the entry of [acquire_rate_limit] to its return or to
    its await; [now] is what [time.time()] returned. No await lies in
    between, so no other coroutine runs during a pass. *)
Definition rate_limit_pass (now : Q) (last_request_times : list Q)
  : list Q * verdict :=
  let last_request_times := trim_window now last_request_times in
  if RATE_LIMIT <=? length last_request_times then
    match last_request_times with
    | [] => (last_request_times, Faulted (IndexError (py "list index out of range")))
    | t0 :: _ =>
        let sleep_time := (RATE_PERIOD - (now - t0))%Q in
        if Qltb 0 sleep_time
        then (last_request_times, Suspended sleep_time)
        else (last_request_times ++ [now], Granted)
    end
  else (last_request_times ++ [now], Granted).

(** One call of [acquire_rate_limit] that no other caller disturbs.
    [clock] lists what [time.time()] returns at entry and after each
    wake-up. The result is the window, the sleeps taken and the value
    returned; [None] when the caller is still suspended at the end of
    [clock]. *)
Fixpoint acquire_rate_limit (clock : list Q) (last_request_times : list Q)
  : list Q * list Q * option (result bool) :=
  match clock with
  | [] => (last_request_times, [], None)
  | now :: later =>
      match rate_limit_pass now last_request_times with
      | (times, Granted) => (times, [], Some (Ok true))
      | (times, Faulted e) => (times, [], Some (Raise e))
      | (times, Suspended sleep_time) =>
          let '(times', sleeps, r) := acquire_rate_limit later times in
          (times', sleep_time :: sleeps, r)
      end
  end.

(** The process as a whole. Callers of any job interleave at awaits only,
    so an execution is a sequence of passes (first passes of new callers
    and re-evaluations of woken ones, in whatever order the event loop
    picks), each with its clock reading. [run_passes] gives the final
    window and the readings that were granted, oldest first. *)
Fixpoint run_passes (nows : list Q) (last_request_times : list Q)
  : list Q * list Q :=
  match nows with
  | [] => (last_request_times, [])
  | now :: later =>
      let '(times, v) := rate_limit_pass now last_request_times in
      let '(final, granted) := run_passes later times in
      (final, match v with
              | Granted => now :: granted
              | _ => granted
              end)
  end.

(** The calls granted within the window [[a, a + RATE_PERIOD)]. *)
Definition granted_within (a : Q) (granted : list Q) : list Q :=
  List.filter (fun g => Qle_bool a g && Qltb g (a + RATE_PERIOD)) granted.

(** ** Job progress (lines 202-214) *)

(** The value the [defaultdict] makes for a new tracker key. *)
Record progress := {
  total : Z;
  task : option nat;
  cancelled : bool;
  processed : Z;
  successful : Z;
  potential_successful : Z;
  skipped : Z;
  failed : Z;
  current_url : pystr
}.

Definition default_progress : progress :=
  {| total := 0; task := None; cancelled := false; processed := 0;
     successful := 0; potential_successful := 0; skipped := 0; failed := 0;
     current_url := [] |}.

(** The assignments and [+= 1] that main.py makes on a record. *)
Inductive mutation :=
  | SetCurrentUrl (url : pystr)
  | SetTotal (n : Z)
  | SetProcessed (n : Z)
  | SetSuccessful (n : Z)
  | IncProcessed
  | IncSuccessful
  | IncPotentialSuccessful
  | IncSkipped
  | IncFailed.

Definition mutate (m : mutation) (p : progress) : progress :=
  let '{| total := t; task := k; cancelled := c; processed := pr;
          successful := su; potential_successful := po; skipped := sk;
          failed := fa; current_url := cu |} := p in
  match m with
  | SetCurrentUrl url => {| total := t; task := k; cancelled := c; processed := pr;
      successful := su; potential_successful := po; skipped := sk; failed := fa;
      current_url := url |}
  | SetTotal n => {| total := n; task := k; cancelled := c; processed := pr;
      successful := su; potential_successful := po; skipped := sk; failed := fa;
      current_url := cu |}
  | SetProcessed n => {| total := t; task := k; cancelled := c; processed := n;
      successful := su; potential_successful := po; skipped := sk; failed := fa;
      current_url := cu |}
  | SetSuccessful n => {| total := t; task := k; cancelled := c; processed := pr;
      successful := n; potential_successful := po; skipped := sk; failed := fa;
      current_url := cu |}
  | IncProcessed => {| total := t; task := k; cancelled := c; processed := pr + 1;
      successful := su; potential_successful := po; skipped := sk; failed := fa;
      current_url := cu |}
  | IncSuccessful => {| total := t; task := k; cancelled := c; processed := pr;
      successful := su + 1; potential_successful := po; skipped := sk; failed := fa;
      current_url := cu |}
  | IncPotentialSuccessful => {| total := t; task := k; cancelled := c; processed := pr;
      successful := su; potential_successful := po + 1; skipped := sk; failed := fa;
      current_url := cu |}
  | IncSkipped => {| total := t; task := k; cancelled := c; processed := pr;
      successful := su; potential_successful := po; skipped := sk + 1; failed := fa;
      current_url := cu |}
  | IncFailed => {| total := t; task := k; cancelled := c; processed := pr;
      successful := su; potential_successful := po; skipped := sk; failed := fa + 1;
      current_url := cu |}
  end%Z.

(** ** The state of the process *)

(** What the program does to the outside world, in the order it does it. *)
Inductive effect :=
  | AcquireRateLimit
  | ClientGet (url : pystr) (timeout : Q)
  | Sleep (seconds : Q).

(** The part of the file system the program touches: the per-job
    directories under the temporary directory (file name to text) and the
    archives next to them (entry name to text), both keyed by job id. *)
Record filesystem := {
  dirs : gmap pystr (gmap pystr pystr);
  zips : gmap pystr (gmap pystr pystr)
}.

(** [progress_tracker] and [results_tracker] are the two module-level
    dictionaries. [snapshots] and [effects] are ghost state: the value of a
    progress record after each write to it, and the effects so far, oldest
    first. *)
Record world := {
  progress_tracker : gmap pystr progress;
  results_tracker : gmap pystr pystr;
  fs : filesystem;
  snapshots : list (pystr * progress);
  effects : list effect
}.

(** [progress_tracker[tracker_id]] read through the [defaultdict] *)
Definition record_of (tracker_id : pystr) (w : world) : progress :=
  default default_progress (progress_tracker w !! tracker_id).

(** [progress_tracker[tracker_id][field] = ...] and [... += 1] *)
Definition update_progress (tracker_id : pystr) (m : mutation) (w : world) : world :=
  let p := mutate m (record_of tracker_id w) in
  {| progress_tracker := <[tracker_id := p]> (progress_tracker w);
     results_tracker := results_tracker w;
     fs := fs w;
     snapshots := snapshots w ++ [(tracker_id, p)];
     effects := effects w |}.

(** [del progress_tracker[tracker_id]] *)
Definition delete_progress (tracker_id : pystr) (w : world) : world :=
  {| progress_tracker := delete tracker_id (progress_tracker w);
     results_tracker := results_tracker w;
     fs := fs w;
     snapshots := snapshots w;
     effects := effects w |}.

Definition register_result (job_id zip_path : pystr) (w : world) : world :=
  {| progress_tracker := progress_tracker w;
     results_tracker := <[job_id := zip_path]> (results_tracker w);
     fs := fs w;
     snapshots := snapshots w;
     effects := effects w |}.

Definition with_fs (f : filesystem -> filesystem) (w : world) : world :=
  {| progress_tracker := progress_tracker w;
     results_tracker := results_tracker w;
     fs := f (fs w);
     snapshots := snapshots w;
     effects := effects w |}.

Definition emit (es : list effect) (w : world) : world :=
  {| progress_tracker := progress_tracker w;
     results_tracker := results_tracker w;
     fs := fs w;
     snapshots := snapshots w;
     effects := effects w ++ es |}.

(** What a request of the HTTP client comes back with: a response, or an
    exception of [httpx] with its message. *)
Inductive response :=
  | Response (status_code : Z) (text : pystr)
  | RequestError (msg : pystr).

(** [ScrapeResponse] (lines 219-224) *)
Module ScrapeResponse.
Record t := {
  links : list pystr;
  jobId : pystr;
  successful : Z;
  skipped : Z;
  failed : Z
}.
End ScrapeResponse.

(** What a crawl meets outside the process. *)
Record environment := {
  (** the extraction service's answers for the seed, by request number *)
  seed_replies : nat -> response;
  (** [client.get(url)] on the seed and [soup.find_all('a', href=True)]:
      the [href] of every anchor in document order, or the exception *)
  seed_page : result (list pystr);
  (** the extraction service's answers for the link at a position of
      [links], by request number *)
  link_replies : nat -> nat -> response;
  (** the order in which the event loop completes the fetches of a batch
      that went to the network *)
  completion_order : list (nat * pystr) -> list (nat * pystr)
}.

Section Engine.
Context `{PyRuntime}.

(** ** The content fetcher (lines 226-305) *)

(** How one pass through the retry loop ends. *)
Inductive attempt_result :=
  | Fetched (content : pystr)
  | Again (retries : nat) (wait_time : Z)
  | Stop.

(** The message of the exception raised for a status that is neither
    200 nor a retried 429 (lines 288-289). *)
Definition failure_message (status_code : Z) : pystr :=
  py "Failed to get content: " ++ str_of_Z status_code.

(** The test of line 296 on a message. *)
Definition retried_message (msg : pystr) : bool :=
  contains (py "429") msg || contains (py "too short") msg ||
  contains (py "only metadata") msg.

(** The [except Exception as e] clause (lines 291-301). *)
Definition on_exception (e : exn) (retries : nat) : attempt_result :=
  let retries := S retries in
  if retries <=? MAX_RETRIES then
    let wait_time := (RETRY_DELAY * Z.of_nat retries)%Z in
    if retried_message (str_of_exn e)
    then Again retries wait_time
    else Stop
  else Stop.

(** The [try] block after the request came back (lines 258-289). *)
Definition attempt (reply : response) (retries : nat) : attempt_result :=
  match reply with
  | RequestError msg => on_exception (Exception msg) retries
  | Response status_code text =>
      if (status_code =? 200)%Z then
        let content := strip text in
        match validate_fetched content with
        | Raise e => on_exception e retries
        | Ok _ => Fetched content
        end
      else
        let last_error := failure_message status_code in
        if (status_code =? 429)%Z then
          let retries := S retries in
          if retries <=? MAX_RETRIES
          then Again retries (RETRY_DELAY * Z.of_nat retries)%Z
          else on_exception (Exception last_error) retries
        else on_exception (Exception last_error) retries
  end.

(** The [while retries <= MAX_RETRIES] loop. [request_no] counts the
    requests made so far. Every pass that continues adds one to
    [retries], so [fuel = MAX_RETRIES + 1 - retries] passes are enough
    (lemma [fetch_loop_fuel]). *)
Fixpoint fetch_loop (fuel retries request_no : nat) (jina_url : pystr)
  (timeout : Q) (replies : nat -> response) : list effect * option pystr :=
  match fuel with
  | 0 => ([], None)
  | S fuel' =>
      if MAX_RETRIES <? retries then ([], None)
      else
        let es := [AcquireRateLimit; ClientGet jina_url timeout] in
        match attempt (replies request_no) retries with
        | Fetched content => (es, Some content)
        | Again retries wait_time =>
            let '(es', r) :=
              fetch_loop fuel' retries (S request_no) jina_url timeout replies in
            (es ++ Sleep (inject_Z wait_time) :: es', r)
        | Stop => (es, None)
        end
  end.

(** Lines 235-301: what a fetch that is not skipped does on the network
    and the content it ends with, if any. *)
Definition network_phase (url : pystr) (replies : nat -> response)
  : list effect * option pystr :=
  let transformed_url := transform_arxiv_url url in
  let timeout := if is_pdf_url transformed_url then PDF_TIMEOUT else DEFAULT_TIMEOUT in
  fetch_loop (S MAX_RETRIES) 0 0 (py "https://r.jina.ai/" ++ transformed_url)
    timeout replies.

Inductive started :=
  | Finished (r : result (pystr * pystr))
  | Pending.

(** Lines 228-233: from the entry of [get_markdown_content] to its first
    await. *)
Definition begin_fetch (url tracker_id : pystr) (w : world) : world * started :=
  let w := update_progress tracker_id (SetCurrentUrl url) w in
  match should_skip_url url with
  | Raise e => (w, Finished (Raise e))
  | Ok true =>
      let w := update_progress tracker_id IncProcessed w in
      let w := update_progress tracker_id IncSkipped w in
      (w, Finished (Ok (url, [])))
  | Ok false => (w, Pending)
  end.

(** The pair a fetch that went to the network returns. *)
Definition fetched_pair (url : pystr) (replies : nat -> response) : pystr * pystr :=
  match snd (network_phase url replies) with
  | Some content => (url, content)
  | None => (url, [])
  end.

(** The rest of [get_markdown_content]: the requests, then the two
    counters (lines 276-278 or 303-305). The record is written only once
    the last request is back, and nothing is awaited between the two
    [+= 1]. *)
Definition end_fetch (url : pystr) (replies : nat -> response)
  (tracker_id : pystr) (w : world) : world :=
  let w := emit (fst (network_phase url replies)) w in
  let w := update_progress tracker_id IncProcessed w in
  match snd (network_phase url replies) with
  | Some _ => update_progress tracker_id IncPotentialSuccessful w
  | None => update_progress tracker_id IncFailed w
  end.

Definition get_markdown_content (url : pystr) (replies : nat -> response)
  (tracker_id : pystr) (w : world) : world * result (pystr * pystr) :=
  match begin_fetch url tracker_id w with
  | (w, Finished r) => (w, r)
  | (w, Pending) => (end_fetch url replies tracker_id w, Ok (fetched_pair url replies))
  end.

(** ** The archive builder (lines 332-378) *)

Definition mkdir (job_id : pystr) (f : filesystem) : filesystem :=
  {| dirs := match dirs f !! job_id with
             | Some _ => dirs f
             | None => <[job_id := ∅]> (dirs f)
             end;
     zips := zips f |}.

(** A file of the job's directory with a content. *)
Definition put_file (job_id name content : pystr) (f : filesystem) : filesystem :=
  {| dirs := <[job_id := <[name := content]> (default ∅ (dirs f !! job_id))]> (dirs f);
     zips := zips f |}.

(** What stops the write of a file (lines 361-362): the [OSError] of
    [open], or the [UnicodeEncodeError] of [f.write]. *)
Definition write_error (job_id name text : pystr) : option exn :=
  match os_error (gettempdir ++ py "/" ++ job_id ++ py "/" ++ name) with
  | Some msg => Some (OSError msg)
  | None => encode_error text
  end.

(** [with open(file_path, 'w', encoding='utf-8') as f: f.write(text)]
    (lines 361-362). [open] creates or empties the file; [f.write]
    encodes the whole text before any of it reaches the file, so a text
    that cannot be encoded leaves the file empty. *)
Definition write_file (job_id name text : pystr) (f : filesystem)
  : filesystem * result unit :=
  match os_error (gettempdir ++ py "/" ++ job_id ++ py "/" ++ name) with
  | Some msg => (f, Raise (OSError msg))
  | None =>
      match encode_error text with
      | Some e => (put_file job_id name [] f, Raise e)
      | None => (put_file job_id name text f, Ok tt)
      end
  end.

(** [zipfile.ZipFile(zip_path, 'w')] filled from [temp_dir.glob('*.md')] *)
Definition write_zip (job_id : pystr) (f : filesystem) : filesystem :=
  {| dirs := dirs f;
     zips := <[job_id := filter (λ kv : pystr * pystr, endswith (py ".md") kv.1 = true)
                           (default ∅ (dirs f !! job_id))]> (zips f) |}.

Definition rmtree (job_id : pystr) (f : filesystem) : filesystem :=
  {| dirs := delete job_id (dirs f); zips := zips f |}.

(** The [for url, content in contents] loop (lines 342-364). *)
Fixpoint write_entries (contents : list (pystr * pystr)) (job_id tracker_id : pystr)
  (file_count : nat) (w : world) : world * result nat :=
  match contents with
  | [] => (w, Ok file_count)
  | (url, content) :: rest =>
      if negb (nonempty content) then
        write_entries rest job_id tracker_id file_count w
      else if archive_rejects content then
        write_entries rest job_id tracker_id file_count
          (update_progress tracker_id IncFailed w)
      else
        let title := extract_title_from_content content in
        let safe_filename := create_safe_filename title url 100 in
        match write_file job_id safe_filename
                (py "# Original URL: " ++ url ++ [NL; NL] ++ content) (fs w) with
        | (f, Raise e) => (with_fs (λ _, f) w, Raise e)
        | (f, Ok _) =>
            let w := with_fs (λ _, f) w in
            let w := update_progress tracker_id IncSuccessful w in
            write_entries rest job_id tracker_id (S file_count) w
        end
  end.

(** [create_zip_file] (lines 332-378). It leaves by the exception of a
    write (lines 361-362), by [No valid content to download] (line 367),
    or by the [OSError] of [zipfile.ZipFile] (line 371); the directory is
    removed only when the archive is written. *)
Definition create_zip_file (contents : list (pystr * pystr))
  (job_id tracker_id : pystr) (w : world) : world * result pystr :=
  let w := with_fs (mkdir job_id) w in
  let w := update_progress tracker_id (SetSuccessful 0) w in
  match write_entries contents job_id tracker_id 0 w with
  | (w, Raise e) => (w, Raise e)
  | (w, Ok file_count) =>
      if file_count =? 0 then
        (w, Raise (Exception (py "No valid content to download")))
      else
        let zip_path := gettempdir ++ py "/" ++ job_id ++ py ".zip" in
        match os_error zip_path with
        | Some msg => (w, Raise (OSError msg))
        | None =>
            let w := with_fs (write_zip job_id) w in
            let w := with_fs (rmtree job_id) w in
            (w, Ok zip_path)
        end
  end.

(** [download_results] (lines 394-416): the archive path and the name
    it is served under. *)
Definition download_results (job_id : pystr) (w : world) : result (pystr * pystr) :=
  match results_tracker w !! job_id with
  | None => Raise (HTTPException 404 (py "Results not found"))
  | Some zip_path => Ok (zip_path, py "scraped-content-" ++ job_id ++ py ".zip")
  end.

(** ** The batch crawler (lines 423-492) *)

(** The list comprehension of lines 438-441 over the [href] values. An
    exception of [should_skip_url] leaves the comprehension. *)
Fixpoint select_links (hrefs : list pystr) : result (list pystr) :=
  match hrefs with
  | [] => Ok []
  | href :: rest =>
      if startswith (py "http") href then
        match should_skip_url href with
        | Raise e => Raise e
        | Ok skip =>
            match select_links rest with
            | Raise e => Raise e
            | Ok links => Ok (if skip then links else href :: links)
            end
        end
      else select_links rest
  end.

Definition batch_size : nat := 10.

(** The first step of every task of a batch, in task order. *)
Fixpoint start_tasks (batch : list (nat * pystr)) (tracker_id : pystr) (w : world)
  : world * list (nat * pystr * started) :=
  match batch with
  | [] => (w, [])
  | (i, link) :: rest =>
      let '(w, s) := begin_fetch link tracker_id w in
      let '(w, ss) := start_tasks rest tracker_id w in
      (w, (i, link, s) :: ss)
  end.

Definition is_pending (t : nat * pystr * started) : bool :=
  match t with
  | (_, _, Pending) => true
  | _ => false
  end.

Definition finish_tasks (order : list (nat * pystr)) (env : environment)
  (tracker_id : pystr) (w : world) : world :=
  fold_left (fun w t => end_fetch (snd t) (link_replies env (fst t)) tracker_id w)
    order w.

Definition task_result (env : environment) (t : nat * pystr * started)
  : result (pystr * pystr) :=
  match t with
  | (_, _, Finished r) => r
  | (i, link, Pending) => Ok (fetched_pair link (link_replies env i))
  end.

(** The results of the tasks in task order, or the first exception. *)
Fixpoint collect {A} (rs : list (result A)) : result (list A) :=
  match rs with
  | [] => Ok []
  | Raise e :: _ => Raise e
  | Ok a :: rest =>
      match collect rest with
      | Ok l => Ok (a :: l)
      | Raise e => Raise e
      end
  end.

(** [await asyncio.gather( *tasks)] (lines 452-456). Every task runs up to
    its first await in task order; those that went to the network then
    complete in the order the event loop picks. The effects of one fetch
    are logged together, when it completes. *)
Definition gather (batch : list (nat * pystr)) (env : environment)
  (tracker_id : pystr) (w : world) : world * result (list (pystr * pystr)) :=
  let '(w, ts) := start_tasks batch tracker_id w in
  let pending := map fst (List.filter is_pending ts) in
  let w := finish_tasks (completion_order env pending) env tracker_id w in
  (w, collect (map (task_result env) ts)).

(** The [for i in range(0, len(links), batch_size)] loop; [remaining] is
    [links[i:]] with the positions of its elements in [links]. A batch is
    never empty, so [fuel = len(links)] passes are enough. *)
Fixpoint run_batches (fuel : nat) (remaining : list (nat * pystr))
  (env : environment) (tracker_id : pystr) (results : list (pystr * pystr))
  (w : world) : world * result (list (pystr * pystr)) :=
  match fuel, remaining with
  | S fuel', _ :: _ =>
      let batch := firstn batch_size remaining in
      let later := skipn batch_size remaining in
      match gather batch env tracker_id w with
      | (w, Raise e) => (w, Raise e)
      | (w, Ok batch_results) =>
          let results := results ++ batch_results in
          let w := if match later with [] => false | _ :: _ => true end
                   then emit [Sleep (RATE_PERIOD / 2)] w else w in
          run_batches fuel' later env tracker_id results w
      end
  | _, _ => (w, Ok results)
  end.

Definition enumerate (links : list pystr) : list (nat * pystr) :=
  combine (seq 0 (length links)) links.

(** Lines 429-461 of [scrape_url]: the seed, its links, the batches. The
    links and the accumulated [(url, content)] pairs. *)
Definition collect_pages (url tracker_id : pystr) (env : environment) (w : world)
  : world * result (list pystr * list (pystr * pystr)) :=
  match get_markdown_content url (seed_replies env) tracker_id w with
  | (w, Raise e) => (w, Raise e)
  | (w, Ok original_content) =>
      let w := emit [ClientGet url 30] w in
      match seed_page env with
      | Raise e => (w, Raise e)
      | Ok hrefs =>
          match select_links hrefs with
          | Raise e => (w, Raise e)
          | Ok links =>
              let w := update_progress tracker_id
                         (SetTotal (Z.of_nat (length links) + 1)) w in
              let w := update_progress tracker_id (SetProcessed 1) w in
              match run_batches (length links) (enumerate links) env tracker_id
                      [original_content] w with
              | (w, Raise e) => (w, Raise e)
              | (w, Ok results) => (w, Ok (links, results))
              end
          end
      end
  end.

(** Lines 463-483: the archive, the final counts, the response. *)
Definition finish_crawl (url job_id tracker_id : pystr) (links : list pystr)
  (results : list (pystr * pystr)) (w : world) : world * ScrapeResponse.t :=
  let w :=
    match create_zip_file results job_id tracker_id w with
    | (w, Ok zip_path) => register_result job_id zip_path w
    | (w, Raise _) => w
    end in
  let final_counts := record_of tracker_id w in
  let w := delete_progress tracker_id w in
  (w, {| ScrapeResponse.links := url :: links;
         ScrapeResponse.jobId := job_id;
         ScrapeResponse.successful := successful final_counts;
         ScrapeResponse.skipped := skipped final_counts;
         ScrapeResponse.failed := failed final_counts |}).

(** The body of the outer [try] of [scrape_url] (lines 429-483). *)
Definition crawl (url job_id tracker_id : pystr) (env : environment) (w : world)
  : world * result ScrapeResponse.t :=
  match collect_pages url tracker_id env w with
  | (w, Raise e) => (w, Raise e)
  | (w, Ok (links, results)) =>
      let '(w, r) := finish_crawl url job_id tracker_id links results w in
      (w, Ok r)
  end.

(** [scrape_url] (lines 423-492); [job_id] is what [uuid4()] returned. *)
Definition scrape_url (url job_id : pystr) (env : environment) (w : world)
  : world * result ScrapeResponse.t :=
  let tracker_id := str_of_Z (py_hash url) in
  match crawl url job_id tracker_id env w with
  | (w, Ok r) => (w, Ok r)
  | (w, Raise e) =>
      let w := if decide (is_Some (progress_tracker w !! tracker_id))
               then delete_progress tracker_id w else w in
      (w, Raise (HTTPException 500 (py "Error scraping URL: " ++ str_of_exn e)))
  end.

(** [cancel_scrape] (lines 197-200): [return await
    cancel_scraping(tracker_id)]. main.py neither defines nor imports the
    name [cancel_scraping], so its evaluation raises [NameError] before
    anything is called or awaited. *)
Definition cancel_scrape (tracker_id : pystr) (w : world) : world * result unit :=
  (w, Raise (NameError (py "name 'cancel_scraping' is not defined"))).

End Engine.

(** ** Traces of a progress record *)

(** The values a record takes under a sequence of writes, oldest first. *)
Fixpoint history (p : progress) (ms : list mutation) : list progress :=
  match ms with
  | [] => []
  | m :: ms' => mutate m p :: history (mutate m p) ms'
  end.

Definition apply_writes (p : progress) (ms : list mutation) : progress :=
  fold_left (λ p m, mutate m p) ms p.

(** [evolves tracker_id ms w w']: the program went from [w] to [w'] by the
    writes [ms] to the record of [tracker_id], oldest first, and by steps
    that leave both trackers alone. *)
Inductive evolves (tracker_id : pystr) : list mutation → world → world → Prop :=
  | evolves_refl w : evolves tracker_id [] w w
  | evolves_update ms m w w' :
      evolves tracker_id ms w w' →
      evolves tracker_id (ms ++ [m]) w (update_progress tracker_id m w')
  | evolves_quiet ms w w' w'' :
      evolves tracker_id ms w w' →
      progress_tracker w'' = progress_tracker w' →
      results_tracker w'' = results_tracker w' →
      snapshots w'' = snapshots w' →
      evolves tracker_id ms w w''.

(** The writes of fetches: the current URL at the start of each, and at
    most [n] completions, each a [processed += 1] followed at once by the
    [+= 1] of one outcome counter. *)
Inductive fetch_writes : nat → list mutation → Prop :=
  | fetch_writes_nil n : fetch_writes n []
  | fetch_writes_url n url ms :
      fetch_writes n ms → fetch_writes n (SetCurrentUrl url :: ms)
  | fetch_writes_done n m ms :
      In m [IncSkipped; IncPotentialSuccessful; IncFailed] →
      fetch_writes n ms →
      fetch_writes (S n) (IncProcessed :: m :: ms).

(** Writes that touch none of [total], [processed],
    [potential_successful], [skipped] and [failed]. *)
Definition neutral (m : mutation) : Prop :=
  match m with
  | SetCurrentUrl _ | SetSuccessful _ | IncSuccessful => True
  | _ => False
  end.

(** ** The vocabulary of the properties *)

(** The two inequalities of the data model. *)
Definition counted (p : progress) : Prop :=
  (potential_successful p + skipped p + failed p ≤ processed p)%Z.


(** A pair the archive builder does not reject: empty content, which it
    passes over, or content that survives its check. *)
Definition archivable (pair : pystr * pystr) : Prop :=
  nonempty (snd pair) = false ∨ archive_rejects (snd pair) = false.

(** The pairs that survive the archival pass. *)
Definition survivors (contents : list (pystr * pystr)) : list (pystr * pystr) :=
  List.filter (λ pair, nonempty (snd pair) && negb (archive_rejects (snd pair)))
    contents.

(** [gather] returns when every fetch of the batch has completed: the
    event loop completes each pending fetch once, in an order of its
    choice. *)
Definition any_order (env : environment) : Prop :=
  ∀ l, completion_order env l ≡ₚ l.

Definition completes_each_once (env : environment) : Prop :=
  ∀ l, length (completion_order env l) = length l.

(** The characters the repository's tests refuse in a file name
    (test_title_extraction.py, line 162): slash, backslash, colon,
    asterisk, question mark, double quote, angle brackets, bar. *)
Definition invalid_chars : list N := [47; 92; 58; 42; 63; 34; 60; 62; 124]%N.

(** Letters, digits, underscore, hyphen and full stop. *)
Definition filename_char (c : N) : bool :=
  re_word c || is_hyphen c || (c =? DOT)%N.

Definition is_request (e : effect) : bool :=
  match e with
  | ClientGet _ _ => true
  | _ => false
  end.

Definition is_sleep (e : effect) : bool :=
  match e with
  | Sleep _ => true
  | _ => false
  end.

(** What retrying up to the ceiling with a linearly growing delay looks
    like in the effects of one fetch: [MAX_RETRIES + 1] requests, with
    sleeps of [RETRY_DELAY], [2 * RETRY_DELAY] and [3 * RETRY_DELAY]
    seconds between them. *)
Definition retried_to_the_ceiling (es : list effect) : Prop :=
  length (List.filter is_request es) = S MAX_RETRIES ∧
  List.filter is_sleep es = [Sleep 5; Sleep 10; Sleep 15].

(** ** A runtime to run the examples on

    Exact on ASCII text: [NFKD] leaves it alone, [lower] maps [A-Z] to
    [a-z], the decimal digits are [0-9]. [urlparse] raises on a bracket
    that is not closed; the hash is an arbitrary fixed function. *)

Definition ascii_lower (c : N) : N :=
  if ((65 <=? c) && (c <=? 90))%N then (c + 32)%N else c.

Definition example_hash (s : pystr) : Z :=
  (fold_left (fun h c => (h * 1000003 + Z.of_N c) mod (2 ^ 61 - 1)) s 7 - 2 ^ 60)%Z.

Definition balanced_brackets (s : pystr) : bool :=
  count_char 91 s =? count_char 93 s.

Definition example_runtime : PyRuntime :=
  {| py_hash := example_hash;
     nfkd := fun s => s;
     str_lower := map ascii_lower;
     isdecimal := fun c => ((48 <=? c) && (c <=? 57))%N;
     urlparse_error := λ url, if balanced_brackets url then None
                              else Some (py "Invalid IPv6 URL");
     gettempdir := py "/tmp";
     os_error := λ _, None |}.

(** ** Inputs of the examples *)

(** The process at its start. *)
Definition empty_world : world :=
  {| progress_tracker := ∅; results_tracker := ∅;
     fs := {| dirs := ∅; zips := ∅ |}; snapshots := []; effects := [] |}.

Definition example_url : pystr := py "https://example.com/page".
Definition example_tracker : pystr := py "1234".

(** A title of one hundred letters. *)
Definition long_title : pystr := repeat 65%N 100.

(** A page the validators accept. *)
Definition valid_page : pystr :=
  py "# A heading for the page" ++ [NL] ++ py "first line of text" ++ [NL] ++
  py "second line of text" ++ [NL] ++ py "third line".

(** The extraction service answers 500 and the seed has no links. *)
Definition env_plain : environment :=
  {| seed_replies := λ _, Response 500 [];
     seed_page := Ok [];
     link_replies := λ _ _, Response 500 [];
     completion_order := λ l, l |}.

(** Twelve links to keep, a relative link, and three links that match a
    skip pattern. *)
Definition seed_hrefs : list pystr :=
  map (λ n, py "https://site.example/page/" ++ str_of_Z (Z.of_nat n)) (seq 0 12) ++
  [py "/about"; py "https://twitter.com/someone";
   py "https://www.youtube.com/watch"; py "https://site.example/logo.png"].

(** The seed and the even links are served, the odd links are throttled
    for good; the fetches of a batch complete last first. *)
Definition env_links : environment :=
  {| seed_replies := λ _, Response 200 valid_page;
     seed_page := Ok seed_hrefs;
     link_replies := λ i _, if Nat.even i then Response 200 valid_page
                            else Response 429 [];
     completion_order := @rev _ |}.

(** A crawl under way: the seed has been fetched and a link is in
    flight. *)
Definition world_in_flight : world :=
  fst (@begin_fetch example_runtime (py "https://site.example/page/1")
         example_tracker
         (fst (@get_markdown_content example_runtime example_url
                 (λ _, Response 200 valid_page) example_tracker empty_world))).

(** ** Further vocabulary *)

(** A reply that sends the retry loop round again while [retries] allows:
    a network error whose message passes the test of line 296, a 200 whose
    content is rejected, a 429, or another status whose message passes
    that test. *)
Definition retryable (reply : response) : bool :=
  match reply with
  | RequestError msg => retried_message msg
  | Response status_code text =>
      if (status_code =? 200)%Z then fetch_rejects (strip text)
      else (status_code =? 429)%Z || retried_message (failure_message status_code)
  end.

(** The content a fetch ends with on a reply that is not retried. *)
Definition final_content (reply : response) : option pystr :=
  match reply with
  | Response status_code text =>
      if (status_code =? 200)%Z then Some (strip text) else None
  | RequestError _ => None
  end.

(** [k] retries numbered from [first]: before each, a sleep of
    [RETRY_DELAY] times its number; then the rate limiter, then the
    request. *)
Fixpoint retry_rounds (jina_url : pystr) (timeout : Q) (first k : nat)
  : list effect :=
  match k with
  | 0 => []
  | S k' =>
      Sleep (inject_Z (RETRY_DELAY * Z.of_nat first)) ::
      AcquireRateLimit :: ClientGet jina_url timeout ::
      retry_rounds jina_url timeout (S first) k'
  end.

(** A first request and [k] retries. *)
Definition fetch_schedule (jina_url : pystr) (timeout : Q) (k : nat) : list effect :=
  AcquireRateLimit :: ClientGet jina_url timeout ::
  retry_rounds jina_url timeout 1 k.

(** Two 429s, then the page. *)
Definition throttled_twice (n : nat) : response :=
  if n <? 2 then Response 429 [] else Response 200 valid_page.

(** [q] is [p] with the counters raised by the given amounts and the
    same [total]. *)
Definition advanced (p q : progress) (dprocessed dsuccessful dpotential
  dskipped dfailed : Z) : Prop :=
  total q = total p ∧
  processed q = (processed p + dprocessed)%Z ∧
  successful q = (successful p + dsuccessful)%Z ∧
  potential_successful q = (potential_successful p + dpotential)%Z ∧
  skipped q = (skipped p + dskipped)%Z ∧
  failed q = (failed p + dfailed)%Z.

(** The pairs with content that the archival pass rejects. *)
Definition rejected (contents : list (pystr * pystr)) : list (pystr * pystr) :=
  List.filter (λ pair, nonempty (snd pair) && archive_rejects (snd pair)) contents.

(** Files written one after the other into a directory; a later file
    replaces an earlier one of the same name. *)
Definition write_all (entries : list (pystr * pystr)) (files : gmap pystr pystr)
  : gmap pystr pystr :=
  fold_left (λ m e, <[fst e := snd e]> m) entries files.

Section Entries.
Context `{PyRuntime}.

(** The file [create_zip_file] writes for a pair (lines 356-362): its
    name and its text. *)
Definition entry_of (item : pystr * pystr) : pystr * pystr :=
  (create_safe_filename (extract_title_from_content (snd item)) (fst item) 100,
   py "# Original URL: " ++ fst item ++ [NL; NL] ++ snd item).

(** Every file that [create_zip_file] writes for [contents] can be
    written, and so can the archive. *)
Definition writable (job_id : pystr) (contents : list (pystr * pystr)) : Prop :=
  Forall (λ item, write_error job_id (fst (entry_of item)) (snd (entry_of item)) = None)
    (survivors contents) ∧
  os_error (gettempdir ++ py "/" ++ job_id ++ py ".zip") = None.

End Entries.

(** A page that is served, carrying a lone surrogate. *)
Definition surrogate_page : pystr := valid_page ++ [55296%N].

(** A page that is served and one that is not. *)
Definition two_pages : list (pystr * pystr) :=
  [(example_url, valid_page); (py "https://example.com/gone", [])].

(** The test of the list comprehension of lines 438-441 on one [href],
    when [urlparse] accepts it. *)
Definition kept_link `{PyRuntime} (href : pystr) : bool :=
  startswith (py "http") href && negb (matches_skip_pattern href).

(** The pair the fetch of the link at a position of [links] returns. *)
Definition link_pair `{PyRuntime} (env : environment) (t : nat * pystr)
  : pystr * pystr :=
  fetched_pair (snd t) (link_replies env (fst t)).

(** The page of the seed cannot be read. *)
Definition env_unreachable : environment :=
  {| seed_replies := λ _, Response 200 valid_page;
     seed_page := Raise (Exception (py "connection refused"));
     link_replies := λ _ _, Response 200 valid_page;
     completion_order := λ l, l |}.

(** The response to a crawl of [example_url] in [env_links]: the seed and
    the six even links are archived, the six odd links have failed. *)
Definition env_links_response : ScrapeResponse.t :=
  {| ScrapeResponse.links :=
       example_url :: List.filter (@kept_link example_runtime) seed_hrefs;
     ScrapeResponse.jobId := py "job-1";
     ScrapeResponse.successful := 7;
     ScrapeResponse.skipped := 0;
     ScrapeResponse.failed := 6 |}.

(** ** The progress stream (lines 307-330) *)

(** The [data] dictionary of a server-sent event. *)
Record sse_data := {
  sse_total : Z;
  sse_processed : Z;
  sse_successful : Z;
  sse_skipped : Z;
  sse_failed : Z;
  sse_current_url : pystr
}.

(** A read of [progress_tracker[tracker_id]]: the [defaultdict] stores the
    default record under a key it does not have. *)
Definition touch_progress (tracker_id : pystr) (w : world) : world :=
  match progress_tracker w !! tracker_id with
  | Some _ => w
  | None =>
      {| progress_tracker := <[tracker_id := default_progress]> (progress_tracker w);
         results_tracker := results_tracker w;
         fs := fs w;
         snapshots := snapshots w;
         effects := effects w |}
  end.

(** The dictionary of lines 310-317 (potential successes) or of lines
    321-328 ([final], confirmed successes). *)
Definition event_of (p : progress) (final : bool) : sse_data :=
  {| sse_total := total p;
     sse_processed := processed p;
     sse_successful := if final then successful p else potential_successful p;
     sse_skipped := skipped p;
     sse_failed := failed p;
     sse_current_url := current_url p |}.

(** [progress_generator] (lines 307-330). The generator is suspended at
    each [yield] and at [asyncio.sleep(0.5)]; [between] is what the rest
    of the program does to the world during each suspension of the loop,
    and the consumer stops asking when [between] runs out. The events
    yielded, and whether the generator has returned. *)
Fixpoint progress_generator (tracker_id : pystr) (between : list (world -> world))
  (w : world) : world * list sse_data * bool :=
  let w := touch_progress tracker_id w in
  let p := record_of tracker_id w in
  if (processed p <? total p)%Z then
    match between with
    | [] => (w, [event_of p false], false)
    | others :: rest =>
        let '(w', events, finished) :=
          progress_generator tracker_id rest (others (emit [Sleep (1 # 2)] w)) in
        (w', event_of p false :: events, finished)
    end
  else (w, [event_of p true], true).

(** The event of a job that has no record. *)
Definition blank_event : sse_data :=
  {| sse_total := 0; sse_processed := 0; sse_successful := 0; sse_skipped := 0;
     sse_failed := 0; sse_current_url := [] |}.

(** A crawl of three URLs, one fetched so far, and the same crawl once
    every URL is fetched. *)
Definition world_one_of_three : world :=
  update_progress example_tracker IncPotentialSuccessful
    (update_progress example_tracker (SetProcessed 1)
       (update_progress example_tracker (SetTotal 3) empty_world)).

Definition fetch_the_rest (w : world) : world :=
  update_progress example_tracker (SetProcessed 3)
    (update_progress example_tracker IncFailed
       (update_progress example_tracker IncPotentialSuccessful w)).

Section Endpoints.
Context `{PyRuntime}.

(** [scrape_progress] (lines 386-393): the stream of the job of [url]. *)
Definition scrape_progress (url : pystr) (between : list (world -> world))
  (w : world) : world * list sse_data * bool :=
  progress_generator (str_of_Z (py_hash url)) between w.

End Endpoints.

(** ** A crawl among the other tasks of the event loop *)

(** The values the record of a job has taken, after each write to it. *)
Definition job_snapshots (tracker_id : pystr) (w : world) : list progress :=
  map snd (List.filter (λ s, bool_decide (fst s = tracker_id)) (snapshots w)).

(** Two states of the process with the same record of a job and the same
    history of it. *)
Definition same_record (tracker_id : pystr) (w1 w2 : world) : Prop :=
  record_of tracker_id w1 = record_of tracker_id w2 ∧
  job_snapshots tracker_id w1 = job_snapshots tracker_id w2.

(** The other tasks never write the record of the job: no other crawl of
    the same URL is in flight. (They may read it, as [progress_generator]
    does, and write any other state.) *)
Definition quiet_for (tracker_id : pystr) (meanwhile : world -> world) : Prop :=
  ∀ w, same_record tracker_id (meanwhile w) w.

Section Interleaved.
Context `{PyRuntime}.

(** What the other tasks of the event loop do to the state of the
    process while a coroutine of the crawl is suspended, given the state
    it was suspended in. *)
Variable meanwhile : world -> world.

(** An await: its effect, then the other tasks. *)
Definition suspend (e : effect) (w : world) : world := meanwhile (emit [e] w).

(** [end_fetch] with the other tasks running at each await of the
    requests (the rate limiter, the request, the sleep before a retry);
    the two [+= 1] at the end have no await between them. *)
Definition end_fetch_among (url : pystr) (replies : nat -> response)
  (tracker_id : pystr) (w : world) : world :=
  let w := fold_left (λ w e, suspend e w) (fst (network_phase url replies)) w in
  let w := update_progress tracker_id IncProcessed w in
  match snd (network_phase url replies) with
  | Some _ => update_progress tracker_id IncPotentialSuccessful w
  | None => update_progress tracker_id IncFailed w
  end.

Definition get_markdown_content_among (url : pystr) (replies : nat -> response)
  (tracker_id : pystr) (w : world) : world * result (pystr * pystr) :=
  match begin_fetch url tracker_id w with
  | (w, Finished r) => (w, r)
  | (w, Pending) =>
      (end_fetch_among url replies tracker_id w, Ok (fetched_pair url replies))
  end.

(** The tasks of a batch run up to their first await one after the
    other; other tasks may run before each of them. *)
Fixpoint start_tasks_among (batch : list (nat * pystr)) (tracker_id : pystr)
  (w : world) : world * list (nat * pystr * started) :=
  match batch with
  | [] => (w, [])
  | (i, link) :: rest =>
      let '(w, s) := begin_fetch link tracker_id (meanwhile w) in
      let '(w, ss) := start_tasks_among rest tracker_id w in
      (w, (i, link, s) :: ss)
  end.

(** The fetches complete in the order the event loop picks; other tasks
    run during each and after each. *)
Definition finish_tasks_among (order : list (nat * pystr)) (env : environment)
  (tracker_id : pystr) (w : world) : world :=
  fold_left
    (fun w t =>
       meanwhile (end_fetch_among (snd t) (link_replies env (fst t)) tracker_id w))
    order w.

Definition gather_among (batch : list (nat * pystr)) (env : environment)
  (tracker_id : pystr) (w : world) : world * result (list (pystr * pystr)) :=
  let '(w, ts) := start_tasks_among batch tracker_id w in
  let pending := map fst (List.filter is_pending ts) in
  let w := finish_tasks_among (completion_order env pending) env tracker_id w in
  (w, collect (map (task_result env) ts)).

Fixpoint run_batches_among (fuel : nat) (remaining : list (nat * pystr))
  (env : environment) (tracker_id : pystr) (results : list (pystr * pystr))
  (w : world) : world * result (list (pystr * pystr)) :=
  match fuel, remaining with
  | S fuel', _ :: _ =>
      let batch := firstn batch_size remaining in
      let later := skipn batch_size remaining in
      match gather_among batch env tracker_id w with
      | (w, Raise e) => (w, Raise e)
      | (w, Ok batch_results) =>
          let results := results ++ batch_results in
          let w := if match later with [] => false | _ :: _ => true end
                   then suspend (Sleep (RATE_PERIOD / 2)) w else w in
          run_batches_among fuel' later env tracker_id results w
      end
  | _, _ => (w, Ok results)
  end.

Definition collect_pages_among (url tracker_id : pystr) (env : environment)
  (w : world) : world * result (list pystr * list (pystr * pystr)) :=
  match get_markdown_content_among url (seed_replies env) tracker_id w with
  | (w, Raise e) => (w, Raise e)
  | (w, Ok original_content) =>
      let w := suspend (ClientGet url 30) w in
      match seed_page env with
      | Raise e => (w, Raise e)
      | Ok hrefs =>
          match select_links hrefs with
          | Raise e => (w, Raise e)
          | Ok links =>
              let w := update_progress tracker_id
                         (SetTotal (Z.of_nat (length links) + 1)) w in
              let w := update_progress tracker_id (SetProcessed 1) w in
              match run_batches_among (length links) (enumerate links) env
                      tracker_id [original_content] w with
              | (w, Raise e) => (w, Raise e)
              | (w, Ok results) => (w, Ok (links, results))
              end
          end
      end
  end.

Definition crawl_among (url job_id tracker_id : pystr) (env : environment)
  (w : world) : world * result ScrapeResponse.t :=
  match collect_pages_among url tracker_id env w with
  | (w, Raise e) => (w, Raise e)
  | (w, Ok (links, results)) =>
      let '(w, r) := finish_crawl url job_id tracker_id links results w in
      (w, Ok r)
  end.

(** [scrape_url] (lines 423-492) with the other tasks of the event loop
    running at its awaits. *)
Definition scrape_url_among (url job_id : pystr) (env : environment) (w : world)
  : world * result ScrapeResponse.t :=
  let tracker_id := str_of_Z (py_hash url) in
  match crawl_among url job_id tracker_id env w with
  | (w, Ok r) => (w, Ok r)
  | (w, Raise e) =>
      let w := if decide (is_Some (progress_tracker w !! tracker_id))
               then delete_progress tracker_id w else w in
      (w, Raise (HTTPException 500 (py "Error scraping URL: " ++ str_of_exn e)))
  end.

End Interleaved.

(** Another job at work: it counts a URL of its own. *)
Definition other_job (w : world) : world :=
  update_progress (py "other-job") IncProcessed w.

(** A second crawl of [example_url]: its fetch of the seed runs while the
    first crawl awaits the page of the seed (line 434). *)
Definition second_crawl (w : world) : world :=
  match last (effects w) with
  | Some (ClientGet url _) =>
      if bool_decide (url = example_url)
      then fst (@get_markdown_content example_runtime example_url
                  (λ _, Response 200 valid_page)
                  (str_of_Z (example_hash example_url)) w)
      else w
  | _ => w
  end.

(** Fifty letters, then three line feeds. *)
Definition padded_page : pystr := repeat 97%N 50 ++ [NL; NL; NL].

(** The extraction service serves the seed, which has no links. *)
Definition env_served : environment :=
  {| seed_replies := λ _, Response 200 valid_page;
     seed_page := Ok [];
     link_replies := λ _ _, Response 500 [];
     completion_order := λ l, l |}.

(** The pairs of a crawl of [example_url] in [env_links]. *)
Definition env_links_results : list (pystr * pystr) :=
  (example_url, valid_page) ::
  map (@link_pair example_runtime env_links)
    (enumerate (List.filter (@kept_link example_runtime) seed_hrefs)).

(** A page that is served and one that cannot be written. *)
Definition pages_with_surrogate : list (pystr * pystr) :=
  [(example_url, valid_page); (py "https://example.com/odd", surrogate_page)].

(** * Properties *)

(** ** Strings *)

Lemma startswith_app (p s : pystr) : startswith p (p ++ s) = true.
Proof.
  induction p as [|a p IH]; simpl; [done|].
  by rewrite N.eqb_refl, IH.
Qed.

Lemma endswith_app (p s : pystr) : endswith p (s ++ p) = true.
Proof. unfold endswith. rewrite rev_app_distr. apply startswith_app. Qed.

Lemma lstrip_with_suffix f (s : pystr) : ∃ d, s = d ++ lstrip_with f s.
Proof.
  induction s as [|c s [d IH]]; simpl.
  - by exists [].
  - destruct (f c).
    + exists (c :: d). simpl. by f_equal.
    + by exists [].
Qed.

Lemma rstrip_with_prefix f (s : pystr) : ∃ d, s = rstrip_with f s ++ d.
Proof.
  unfold rstrip_with. destruct (lstrip_with_suffix f (rev s)) as [d Hd].
  exists (rev d). rewrite <- rev_app_distr, <- Hd. by rewrite rev_involutive.
Qed.

Lemma lstrip_with_length f (s : pystr) : length (lstrip_with f s) ≤ length s.
Proof. induction s as [|c s IH]; simpl; [lia|]. destruct (f c); simpl; lia. Qed.

Lemma rstrip_with_length f (s : pystr) : length (rstrip_with f s) ≤ length s.
Proof.
  unfold rstrip_with. rewrite length_rev.
  etrans; [apply lstrip_with_length|]. by rewrite length_rev.
Qed.

Lemma lstrip_with_fixed f c (s : pystr) :
  lstrip_with f (c :: s) = c :: s → f c = false.
Proof.
  simpl. destruct (f c) eqn:E; [|done]. intros Heq.
  pose proof (lstrip_with_length f s) as Hl. rewrite Heq in Hl. simpl in Hl. lia.
Qed.

Lemma lstrip_with_idem f (s : pystr) :
  lstrip_with f (lstrip_with f s) = lstrip_with f s.
Proof.
  induction s as [|c s IH]; simpl; [done|].
  destruct (f c) eqn:E; [done|]. simpl. by rewrite E.
Qed.

Lemma rstrip_with_idem f (s : pystr) :
  rstrip_with f (rstrip_with f s) = rstrip_with f s.
Proof. unfold rstrip_with. by rewrite rev_involutive, lstrip_with_idem. Qed.

Lemma lstrip_rstrip_fixed f (t : pystr) :
  lstrip_with f t = t → lstrip_with f (rstrip_with f t) = rstrip_with f t.
Proof.
  intros Ht. destruct (rstrip_with_prefix f t) as [d Hd].
  destruct (rstrip_with f t) as [|c r] eqn:E; [done|].
  rewrite Hd in Ht. simpl in Ht. apply lstrip_with_fixed in Ht.
  simpl. by rewrite Ht.
Qed.

Lemma strip_with_idem f (s : pystr) : strip_with f (strip_with f s) = strip_with f s.
Proof.
  unfold strip_with.
  rewrite (lstrip_rstrip_fixed f (lstrip_with f s)) by apply lstrip_with_idem.
  apply rstrip_with_idem.
Qed.

Lemma strip_idem (s : pystr) : strip (strip s) = strip s.
Proof. apply strip_with_idem. Qed.

Lemma Forall_lstrip_with (P : N → Prop) f (s : pystr) :
  Forall P s → Forall P (lstrip_with f s).
Proof.
  induction 1 as [|c s Hc Hs IH]; simpl; [constructor|].
  destruct (f c); [done|by constructor].
Qed.

Lemma Forall_rstrip_with (P : N → Prop) f (s : pystr) :
  Forall P s → Forall P (rstrip_with f s).
Proof.
  intros Hs. unfold rstrip_with.
  apply Forall_rev, Forall_lstrip_with, Forall_rev, Hs.
Qed.

Lemma Forall_strip_with (P : N → Prop) f (s : pystr) :
  Forall P s → Forall P (strip_with f s).
Proof. intros Hs. by apply Forall_rstrip_with, Forall_lstrip_with. Qed.

Lemma Forall_sub_runs (P : N → Prop) cls rep in_run (s : pystr) :
  P rep → Forall (λ c, cls c = false → P c) s →
  Forall P (sub_runs cls rep in_run s).
Proof.
  intros Hrep Hs. revert in_run.
  induction Hs as [|c s Hc Hs IH]; intros in_run; simpl; [constructor|].
  destruct (cls c) eqn:E.
  - destruct in_run; [apply IH|constructor; [done|apply IH]].
  - constructor; [by apply Hc|apply IH].
Qed.

(** ** The cases of the repository's tests *)

(** test_title_extraction.py, cases 1, 3, 4 and 5. *)
Example title_of_h1 :
  extract_title_from_content
    (py "# Introduction to Machine Learning" ++ [NL; NL] ++ py "This is a guide.") =
  Some (py "Introduction to Machine Learning").
Proof. by vm_compute. Qed.

Example title_of_h2 :
  extract_title_from_content
    (py "Some introductory text without header" ++ [NL; NL] ++
     py "## FastAPI Documentation" ++ [NL; NL] ++ py "FastAPI is a web framework") =
  Some (py "FastAPI Documentation").
Proof. by vm_compute. Qed.

Example title_without_markup :
  extract_title_from_content
    (py "# [Getting Started with **Python**](https://python.org)" ++ [NL; NL] ++
     py "Python is a versatile programming language...") =
  Some (py "Getting Started with Python").
Proof. by vm_compute. Qed.

Example title_missing :
  extract_title_from_content
    (py "URL Source: https://example.com" ++ [NL] ++ py "            " ++ [NL] ++
     py "Just some content without any headers.") = None.
Proof. by vm_compute. Qed.

(** test_title_extraction.py, file name cases 2, 4 and 6. *)
Example filename_of_title :
  startswith (py "Whats-New-in-Python-312_")
    (@create_safe_filename example_runtime (Some (py "What's New in Python 3.12?"))
       (py "https://python.org/whats-new") 100) = true ∧
  @create_safe_filename example_runtime None (py "https://example.com/no-title") 100 =
    str_of_Z (example_hash (py "https://example.com/no-title")) ++ py ".md" ∧
  startswith (py "untitled_")
    (@create_safe_filename example_runtime (Some (py "!!!???###"))
       (py "https://example.com/special") 100) = true.
Proof. by vm_compute. Qed.

(** The example of the specification: content that is only metadata
    lines is rejected at both points. *)
Example metadata_only_rejected :
  let content := py "# Original URL: x" ++ [NL] ++ py "Title: y" ++ [NL] in
  only_metadata content = true ∧
  fetch_rejects (strip content) = true ∧
  archive_rejects content = true.
Proof. by vm_compute. Qed.

(** ** Content validation: the two passes (C5) *)

(** C5, as stated, fails: fifty letters followed by three line feeds are
    rejected at fetch time and accepted at archival time. As the text of
    a response the page is stripped on line 261 before lines 264-272
    count its characters and its line feeds, none of which is left, and
    the fetch is retried as too short; lines 346-350 count the line feeds
    of the content as it is given, and [create_zip_file] archives the
    page. *)
Lemma validation_passes_disagree :
  fetch_time_rejects padded_page = true ∧
  archive_rejects padded_page = false ∧
  attempt (Response 200 padded_page) 0 = Again 1 (RETRY_DELAY * 1) ∧
  survivors [(example_url, padded_page)] = [(example_url, padded_page)].
Proof. by vm_compute. Qed.

(** The two checks differ in the length they measure only. *)
Lemma rejects_agree_on_length (content : pystr) :
  length (strip content) = length content →
  fetch_rejects content = archive_rejects content.
Proof.
  intros Hlen. unfold fetch_rejects, archive_rejects, validate_fetched.
  rewrite Hlen.
  destruct (length content <? 50), (count_char NL content <? 3); try done.
  simpl. by destruct (only_metadata content).
Qed.

(** What the fetcher accepted, the archive builder accepts. *)
Lemma fetched_content_archivable (text : pystr) :
  validate_fetched (strip text) = Ok tt →
  archive_rejects (strip text) = false.
Proof.
  intros Hv. rewrite <- rejects_agree_on_length by (by rewrite strip_idem).
  unfold fetch_rejects. by rewrite Hv.
Qed.

(** C5, amended: on every content without leading or trailing white
    space, the check at fetch time and the check at archival time agree,
    whether the fetch-time check is taken with its [strip()] (line 261)
    or without. That is every content the fetcher hands on: it checks and
    returns [response.text.strip()]. *)
Theorem validation_passes_agree (content : pystr) :
  strip content = content →
  fetch_rejects content = archive_rejects content ∧
  fetch_time_rejects content = archive_rejects content.
Proof.
  intros Hstripped.
  assert (Hagree : fetch_rejects content = archive_rejects content).
  { unfold fetch_rejects, validate_fetched, archive_rejects.
    rewrite Hstripped.
    destruct (length content <? 50) eqn:Hshort; [done|].
    destruct (count_char NL content <? 3) eqn:Hlines; [done|].
    cbn [orb]. by destruct (only_metadata content). }
  split; [exact Hagree|]. unfold fetch_time_rejects. by rewrite Hstripped.
Qed.

Lemma validation_passes_agree_witness :
  strip (py "Title: y") = py "Title: y" ∧
  fetch_rejects (py "Title: y") = archive_rejects (py "Title: y") ∧
  fetch_time_rejects (py "Title: y") = archive_rejects (py "Title: y").
Proof.
  split; [by vm_compute|].
  apply validation_passes_agree. by vm_compute.
Defined.

(** ** Safe file names (C6) *)

Lemma string_of_uint_chars (d : Decimal.uint) :
  Forall (λ c, filename_char c = true) (py (NilEmpty.string_of_uint d)).
Proof.
  induction d; simpl; try (constructor; [by vm_compute|assumption]).
  constructor.
Qed.

Lemma str_of_Z_chars (z : Z) : Forall (λ c, filename_char c = true) (str_of_Z z).
Proof.
  unfold str_of_Z.
  assert (Hu : ∀ d, Forall (λ c, filename_char c = true)
                      (py (NilZero.string_of_uint d))).
  { intros d. unfold NilZero.string_of_uint.
    destruct d; try apply string_of_uint_chars.
    repeat constructor. }
  destruct (Z.to_int z) as [d|d]; simpl.
  - apply Hu.
  - constructor; [by vm_compute|apply Hu].
Qed.

Section SafeFilename.
Context `{PyRuntime}.

Lemma safe_chars_of_chars (title : pystr) :
  Forall (λ c, filename_char c = true) (safe_chars_of title).
Proof.
  unfold safe_chars_of. apply Forall_strip_with, Forall_sub_runs.
  - by vm_compute.
  - apply List.Forall_forall. intros c Hc Hcls.
    apply List.filter_In in Hc as [_ Hc].
    unfold filename_char.
    destruct (re_word c); [done|]. simpl in Hc.
    rewrite orb_comm in Hc. by rewrite Hc in Hcls.
Qed.

Lemma truncated_chars (max_length : nat) (s : pystr) :
  Forall (λ c, filename_char c = true) s →
  Forall (λ c, filename_char c = true)
    (if max_length <? length s
     then rstrip_with is_hyphen (firstn max_length s) else s).
Proof.
  intros Hs. destruct (max_length <? length s); [|done].
  by apply Forall_rstrip_with, Forall_take.
Qed.

Lemma truncated_length (max_length : nat) (s : pystr) :
  length (if max_length <? length s
          then rstrip_with is_hyphen (firstn max_length s) else s) ≤ max_length.
Proof.
  destruct (Nat.ltb_spec max_length (length s)) as [Hlt|Hge]; [|lia].
  etrans; [apply rstrip_with_length|]. rewrite length_take. lia.
Qed.

(** C6, amended: the name ends in [.md] and is made of letters, digits,
    [_], [-] and [.] only, so it holds no path separator and no reserved
    character. The length limit applies to the part that comes from the
    title: with a title the whole name has at most [max(max_length, 8) + 12]
    characters (the title part, [_], up to eight digits of the URL hash,
    [.md]); without one it is the decimal URL hash followed by [.md]. *)
Theorem create_safe_filename_safe (title : option pystr) (url : pystr)
  (max_length : nat) :
  let name := create_safe_filename title url max_length in
  endswith (py ".md") name = true ∧
  Forall (λ c, filename_char c = true) name ∧
  Forall (λ c, c ∉ name) invalid_chars ∧
  match title with
  | Some (_ :: _) => length name ≤ Nat.max max_length 8 + 12
  | _ => name = str_of_Z (py_hash url) ++ py ".md"
  end.
Proof.
  intros name.
  assert (Hchars : Forall (λ c, filename_char c = true) name).
  { subst name. unfold create_safe_filename.
    assert (Hmd : Forall (λ c, filename_char c = true) (py ".md"))
      by (by vm_compute; repeat constructor).
    assert (Hhash : ∀ z, Forall (λ c, filename_char c = true)
                           (firstn 8 (str_of_Z z) ++ py ".md")).
    { intros z. apply Forall_app. split; [|done].
      apply Forall_take, str_of_Z_chars. }
    destruct title as [[|c t]|].
    - apply Forall_app; split; [apply str_of_Z_chars|done].
    - pose proof (truncated_chars max_length _ (safe_chars_of_chars (c :: t))) as Ht.
      destruct (negb (nonempty _)).
      + apply Forall_app; split; [by vm_compute; repeat constructor|apply Hhash].
      + apply Forall_app; split; [done|].
        apply Forall_app; split; [by vm_compute; repeat constructor|apply Hhash].
    - apply Forall_app; split; [apply str_of_Z_chars|done]. }
  split; [|split; [done|split]].
  - subst name. unfold create_safe_filename.
    destruct title as [[|c t]|]; try apply endswith_app.
    destruct (negb (nonempty _)); rewrite ?app_assoc; apply endswith_app.
  - apply List.Forall_forall. intros c Hc Hin.
    rewrite List.Forall_forall in Hchars.
    apply list_elem_of_In, Hchars in Hin.
    simpl in Hc.
    repeat (destruct Hc as [<-|Hc]; [by vm_compute in Hin|]). done.
  - destruct title as [[|c t]|]; [done| |done].
    subst name. unfold create_safe_filename.
    pose proof (truncated_length max_length (safe_chars_of (c :: t))) as Hl.
    assert (Hh : ∀ z, length (firstn 8 (str_of_Z z)) ≤ 8)
      by (intros z; rewrite length_take; lia).
    destruct (negb (nonempty _)); rewrite !length_app.
    + specialize (Hh (Z.abs (py_hash url))).
      change (length (py "untitled_")) with 9.
      change (length (py ".md")) with 3. lia.
    + specialize (Hh (Z.abs (py_hash url))).
      change (length (py "_")) with 1.
      change (length (py ".md")) with 3. lia.
Qed.

End SafeFilename.

(** C6, as stated, fails: the title part alone may use up the limit, and
    the hash and the extension come on top. A title of one hundred
    letters gives a name of 112 characters under the default limit of
    100. *)
Lemma long_title_exceeds_max_length :
  length (@create_safe_filename example_runtime (Some long_title)
            (py "https://example.com/long") 100) = 112 ∧
  ¬ (112 ≤ 100).
Proof. split; [by vm_compute|lia]. Qed.

(** ** The rate limiter (C2) *)

Lemma Qltb_lt (x y : Q) : Qltb x y = true ↔ (x < y)%Q.
Proof.
  unfold Qltb. rewrite negb_true_iff. split.
  - intros Hf. apply Qnot_le_lt. intros Hle.
    apply Qle_bool_iff in Hle. congruence.
  - intros Hlt. destruct (Qle_bool y x) eqn:E; [|done].
    apply Qle_bool_iff in E. lra.
Qed.

Lemma filter_filter_impl {A} (f g : A → bool) (l : list A) :
  (∀ x, f x = true → g x = true) →
  List.filter f (List.filter g l) = List.filter f l.
Proof.
  intros Himp. induction l as [|x l IH]; simpl; [done|].
  destruct (g x) eqn:Eg; simpl.
  - destruct (f x); by rewrite IH.
  - destruct (f x) eqn:Ef; [|done]. apply Himp in Ef. congruence.
Qed.

Lemma filter_length_impl {A} (f g : A → bool) (l : list A) :
  (∀ x, f x = true → g x = true) →
  length (List.filter f l) ≤ length (List.filter g l).
Proof.
  intros Himp. induction l as [|x l IH]; simpl; [done|].
  destruct (f x) eqn:Ef.
  - rewrite (Himp _ Ef). simpl. lia.
  - destruct (g x); simpl; lia.
Qed.

(** A later reading trims at least what an earlier one trimmed. *)
Lemma trim_window_trim (now later : Q) (times : list Q) :
  (now <= later)%Q →
  trim_window later (trim_window now times) = trim_window later times.
Proof.
  intros Hle. apply filter_filter_impl. intros t Ht.
  apply Qltb_lt. apply Qltb_lt in Ht. unfold RATE_PERIOD in *. lra.
Qed.

Lemma trim_window_app (now : Q) (l1 l2 : list Q) :
  trim_window now (l1 ++ l2) = trim_window now l1 ++ trim_window now l2.
Proof. apply List.filter_app. Qed.

Lemma trim_window_now (now : Q) : trim_window now [now] = [now].
Proof.
  unfold trim_window. simpl.
  assert (Qltb (now - now) RATE_PERIOD = true) as ->; [|done].
  apply Qltb_lt. unfold RATE_PERIOD. lra.
Qed.

(** A pass either appends the reading, and then fewer than [RATE_LIMIT]
    earlier calls were left in the window, or it suspends the caller for
    a positive time and appends nothing. The index error and the
    fall-through of a non-positive sleep time never happen. *)
Lemma rate_limit_pass_cases (now : Q) (times : list Q) :
  (length (trim_window now times) < RATE_LIMIT ∧
   rate_limit_pass now times = (trim_window now times ++ [now], Granted)) ∨
  (RATE_LIMIT ≤ length (trim_window now times) ∧
   ∃ sleep_time, (0 < sleep_time)%Q ∧
     rate_limit_pass now times = (trim_window now times, Suspended sleep_time)).
Proof.
  unfold rate_limit_pass.
  destruct (Nat.leb_spec RATE_LIMIT (length (trim_window now times))) as [Hfull|Hfree];
    [right|left; by split].
  split; [done|].
  destruct (trim_window now times) as [|t0 rest] eqn:E.
  { unfold RATE_LIMIT in Hfull. simpl in Hfull. lia. }
  assert (Ht0 : (now - t0 < RATE_PERIOD)%Q).
  { assert (Hin : In t0 (trim_window now times)) by (rewrite E; by left).
    apply List.filter_In in Hin as [_ Hin]. by apply Qltb_lt. }
  exists (RATE_PERIOD - (now - t0))%Q.
  assert (Hpos : (0 < RATE_PERIOD - (now - t0))%Q) by lra.
  split; [done|].
  apply Qltb_lt in Hpos. by rewrite Hpos.
Qed.

Lemma granted_within_app (a : Q) (l1 l2 : list Q) :
  granted_within a (l1 ++ l2) = granted_within a l1 ++ granted_within a l2.
Proof. apply List.filter_app. Qed.

(** Granting at [now] keeps the bound when fewer than [RATE_LIMIT] of the
    earlier grants are less than [RATE_PERIOD] old. *)
Lemma grant_keeps_bound (now : Q) (past : list Q) :
  length (trim_window now past) < RATE_LIMIT →
  (∀ a, length (granted_within a past) ≤ RATE_LIMIT) →
  ∀ a, length (granted_within a (past ++ [now])) ≤ RATE_LIMIT.
Proof.
  intros Hfree Hpast a. rewrite granted_within_app, length_app.
  unfold granted_within at 2. simpl.
  destruct (Qle_bool a now && Qltb now (a + RATE_PERIOD)) eqn:Ein; simpl.
  - apply andb_true_iff in Ein as [Hlo Hhi].
    apply Qle_bool_iff in Hlo. apply Qltb_lt in Hhi.
    assert (length (granted_within a past) ≤ length (trim_window now past)); [|lia].
    apply filter_length_impl. intros g Hg.
    apply andb_true_iff in Hg as [Hglo Hghi].
    apply Qle_bool_iff in Hglo. apply Qltb_lt. lra.
  - specialize (Hpast a). lia.
Qed.

Lemma run_passes_bound (nows : list Q) : ∀ times past,
  StronglySorted Qle nows →
  (∀ now, In now nows → trim_window now times = trim_window now past) →
  (∀ a, length (granted_within a past) ≤ RATE_LIMIT) →
  ∀ a, length (granted_within a (past ++ snd (run_passes nows times))) ≤ RATE_LIMIT.
Proof.
  induction nows as [|now later IH]; intros times past Hsorted Hsame Hpast a.
  { simpl. by rewrite app_nil_r. }
  apply StronglySorted_inv in Hsorted as [Hsorted Hlater].
  rewrite List.Forall_forall in Hlater.
  assert (Hnow : trim_window now times = trim_window now past)
    by (apply Hsame; by left).
  simpl.
  destruct (rate_limit_pass_cases now times) as [[Hfree ->]|[_ (d & _ & ->)]];
    destruct (run_passes later _) as [final granted] eqn:Erun; simpl.
  - replace (past ++ now :: granted) with ((past ++ [now]) ++ granted)
      by (by rewrite <- app_assoc).
    replace granted with (snd (run_passes later (trim_window now times ++ [now])))
      by (by rewrite Erun).
    apply IH; [done| |].
    + intros later_now Hin.
      rewrite !trim_window_app, trim_window_trim by (apply Hlater, Hin).
      f_equal. apply Hsame. by right.
    + apply grant_keeps_bound; [by rewrite <- Hnow|done].
  - replace granted with (snd (run_passes later (trim_window now times)))
      by (by rewrite Erun).
    apply IH; [done| |done].
    intros later_now Hin.
    rewrite trim_window_trim by (apply Hlater, Hin). apply Hsame. by right.
Qed.

(** Sixteen callers at the same instant: fifteen pass, the sixteenth is
    told to sleep for the whole period and passes when it is over. *)
Example sixteenth_caller_waits :
  snd (run_passes (repeat 0%Q 16 ++ [60%Q]) []) = repeat 0%Q 15 ++ [60%Q] ∧
  snd (rate_limit_pass 0 (repeat 0%Q 15)) = Suspended 60.
Proof. by vm_compute. Qed.

(** C2: whatever the interleaving of the callers, as long as the clock
    does not run backwards, at most [RATE_LIMIT] calls are granted in any
    window [[a, a + RATE_PERIOD)]; and a call that finds [RATE_LIMIT]
    calls in the window appends nothing, sleeps for a positive time and
    runs the whole check again on a fresh reading of the clock. *)
Theorem rate_limit_sliding_window (nows : list Q) :
  StronglySorted Qle nows →
  (∀ a, length (granted_within a (snd (run_passes nows []))) ≤ RATE_LIMIT) ∧
  (∀ now clock times, RATE_LIMIT ≤ length (trim_window now times) →
     ∃ sleep_time, (0 < sleep_time)%Q ∧
       rate_limit_pass now times = (trim_window now times, Suspended sleep_time) ∧
       acquire_rate_limit (now :: clock) times =
         let '(times', sleeps, r) :=
           acquire_rate_limit clock (trim_window now times) in
         (times', sleep_time :: sleeps, r)).
Proof.
  intros Hsorted. split.
  - intros a. apply (run_passes_bound nows [] []); [done|done|].
    intros a'. simpl. unfold RATE_LIMIT. lia.
  - intros now clock times Hfull.
    destruct (rate_limit_pass_cases now times) as [[Hfree _]|[_ (d & Hd & Hpass)]];
      [lia|].
    exists d. split; [done|]. split; [done|].
    simpl. by rewrite Hpass.
Qed.

Lemma rate_limit_sliding_window_witness :
  StronglySorted Qle [0; 1; 61]%Q ∧
  ∀ a, length (granted_within a (snd (run_passes [0; 1; 61]%Q []))) ≤ RATE_LIMIT.
Proof.
  assert (Hs : StronglySorted Qle [0; 1; 61]%Q).
  { repeat constructor; unfold Qle; simpl; lia. }
  split; [exact Hs|].
  exact (proj1 (rate_limit_sliding_window [0; 1; 61]%Q Hs)).
Defined.

(** ** The content fetcher (C3, C4) *)

Lemma record_of_update (tracker_id : pystr) (m : mutation) (w : world) :
  record_of tracker_id (update_progress tracker_id m w) =
  mutate m (record_of tracker_id w).
Proof. unfold record_of at 1. simpl. by rewrite lookup_insert_eq. Qed.

Lemma record_of_emit (tracker_id : pystr) (es : list effect) (w : world) :
  record_of tracker_id (emit es w) = record_of tracker_id w.
Proof. reflexivity. Qed.

Lemma lookup_update_ne (tracker_id k : pystr) (m : mutation) (w : world) :
  k ≠ tracker_id →
  progress_tracker (update_progress tracker_id m w) !! k = progress_tracker w !! k.
Proof. intros Hne. simpl. by rewrite lookup_insert_ne. Qed.

Lemma attempt_again (reply : response) (retries retries' : nat) (wait_time : Z) :
  attempt reply retries = Again retries' wait_time →
  retries' = S retries ∧ wait_time = (RETRY_DELAY * Z.of_nat (S retries))%Z.
Proof.
  assert (Hexn : ∀ e, on_exception e retries = Again retries' wait_time →
            retries' = S retries ∧ wait_time = (RETRY_DELAY * Z.of_nat (S retries))%Z).
  { intros e. unfold on_exception.
    destruct (S retries <=? MAX_RETRIES); [|done].
    destruct (retried_message _); [|done]. by intros [= <- <-]. }
  unfold attempt. destruct reply as [status text|msg]; [|apply Hexn].
  destruct (status =? 200)%Z.
  - destruct (validate_fetched (strip text)); [done|apply Hexn].
  - destruct (status =? 429)%Z; [|apply Hexn].
    destruct (S retries <=? MAX_RETRIES) eqn:E; [by intros [= <- <-]|].
    intros Hagain. unfold on_exception in Hagain.
    destruct (S (S retries) <=? MAX_RETRIES) eqn:E2; [|done].
    apply Nat.leb_le in E2. apply Nat.leb_gt in E. lia.
Qed.

Lemma fetch_loop_step (fuel retries request_no : nat) jina_url timeout replies :
  fetch_loop (S fuel) retries request_no jina_url timeout replies =
  if MAX_RETRIES <? retries then ([], None)
  else match attempt (replies request_no) retries with
       | Fetched content =>
           ([AcquireRateLimit; ClientGet jina_url timeout], Some content)
       | Again retries' wait_time =>
           let '(es', r) :=
             fetch_loop fuel retries' (S request_no) jina_url timeout replies in
           ([AcquireRateLimit; ClientGet jina_url timeout] ++
              Sleep (inject_Z wait_time) :: es', r)
       | Stop => ([AcquireRateLimit; ClientGet jina_url timeout], None)
       end.
Proof. reflexivity. Qed.

(** The retry loop ends by itself: fuel beyond [MAX_RETRIES + 1 - retries]
    is never used. *)
Lemma fetch_loop_fuel (fuel : nat) : ∀ retries request_no jina_url timeout replies,
  S MAX_RETRIES - retries ≤ fuel →
  fetch_loop (S fuel) retries request_no jina_url timeout replies =
  fetch_loop fuel retries request_no jina_url timeout replies.
Proof.
  induction fuel as [|fuel IH]; intros retries n jina_url timeout replies Hfuel.
  - simpl. destruct (Nat.ltb_spec MAX_RETRIES retries); [done|lia].
  - rewrite (fetch_loop_step (S fuel)), (fetch_loop_step fuel).
    destruct (MAX_RETRIES <? retries); [done|].
    destruct (attempt (replies n) retries) as [c|r' wt|] eqn:E; [done| |done].
    apply attempt_again in E as [-> _].
    rewrite IH; [done|]. lia.
Qed.



Section Fetcher.
Context `{PyRuntime}.

(** C4: a URL that [should_skip_url] matches is answered without any
    request: the result is [(url, "")], nothing is added to the effects,
    and the job's record has [processed] and [skipped] each one higher
    and the other counters as before. No other job's record changes. *)
Theorem skipped_url_not_fetched (url tracker_id : pystr)
  (replies : nat → response) (w : world) :
  should_skip_url url = Ok true →
  let w' := fst (get_markdown_content url replies tracker_id w) in
  let before := record_of tracker_id w in
  let after := record_of tracker_id w' in
  snd (get_markdown_content url replies tracker_id w) = Ok (url, []) ∧
  effects w' = effects w ∧
  processed after = (processed before + 1)%Z ∧
  skipped after = (skipped before + 1)%Z ∧
  potential_successful after = potential_successful before ∧
  failed after = failed before ∧
  successful after = successful before ∧
  total after = total before ∧
  current_url after = url ∧
  ∀ k, k ≠ tracker_id → progress_tracker w' !! k = progress_tracker w !! k.
Proof.
  intros Hskip w' before after. subst w' before after.
  unfold get_markdown_content, begin_fetch. rewrite Hskip. cbn [fst snd].
  rewrite !record_of_update.
  destruct (record_of tracker_id w). cbn.
  repeat split; try done.
  intros k Hne. by rewrite !lookup_insert_ne.
Qed.


End Fetcher.


(** The two paths that are retried: a 429 and a rejected content. *)
Example status_429_retried :
  retried_to_the_ceiling
    (effects (fst (@get_markdown_content example_runtime example_url
                     (λ _, Response 429 []) example_tracker empty_world))).
Proof. by vm_compute. Qed.

Example short_content_retried :
  retried_to_the_ceiling
    (effects (fst (@get_markdown_content example_runtime example_url
                     (λ _, Response 200 (py "too little")) example_tracker
                     empty_world))).
Proof. by vm_compute. Qed.

Lemma skipped_url_not_fetched_witness :
  @should_skip_url example_runtime (py "https://twitter.com/someone") = Ok true ∧
  effects (fst (@get_markdown_content example_runtime
                  (py "https://twitter.com/someone") (λ _, Response 200 [])
                  example_tracker empty_world)) = [].
Proof.
  split; [by vm_compute|].
  apply (@skipped_url_not_fetched example_runtime
           (py "https://twitter.com/someone") example_tracker
           (λ _, Response 200 []) empty_world).
  by vm_compute.
Defined.


(** ** Traces of a progress record *)

Lemma history_app (p : progress) (ms1 ms2 : list mutation) :
  history p (ms1 ++ ms2) = history p ms1 ++ history (apply_writes p ms1) ms2.
Proof.
  revert p. induction ms1 as [|m ms1 IH]; intros p; simpl; [done|].
  by rewrite IH.
Qed.

Lemma apply_writes_app (p : progress) (ms1 ms2 : list mutation) :
  apply_writes p (ms1 ++ ms2) = apply_writes (apply_writes p ms1) ms2.
Proof. apply fold_left_app. Qed.

Lemma evolves_one (tracker_id : pystr) (m : mutation) (w : world) :
  evolves tracker_id [m] w (update_progress tracker_id m w).
Proof. apply (evolves_update tracker_id [] m), evolves_refl. Qed.

Lemma evolves_trans (tracker_id : pystr) ms1 ms2 w1 w2 w3 :
  evolves tracker_id ms1 w1 w2 → evolves tracker_id ms2 w2 w3 →
  evolves tracker_id (ms1 ++ ms2) w1 w3.
Proof.
  intros H12 H23. induction H23 as [w|ms m w w' _ IH|ms w w' w'' _ IH Hp Hr Hs].
  - by rewrite app_nil_r.
  - rewrite app_assoc. apply evolves_update, IH, H12.
  - eapply evolves_quiet; [apply IH, H12|done..].
Qed.

Lemma evolves_emit (tracker_id : pystr) ms w w' es :
  evolves tracker_id ms w w' → evolves tracker_id ms w (emit es w').
Proof. intros Hev. by eapply evolves_quiet. Qed.

Lemma evolves_with_fs (tracker_id : pystr) ms w w' f :
  evolves tracker_id ms w w' → evolves tracker_id ms w (with_fs f w').
Proof. intros Hev. by eapply evolves_quiet. Qed.

(** What [evolves] says about the two trackers and the snapshots. *)
Lemma evolves_spec (tracker_id : pystr) ms w w' :
  evolves tracker_id ms w w' →
  record_of tracker_id w' = apply_writes (record_of tracker_id w) ms ∧
  snapshots w' =
    snapshots w ++ map (pair tracker_id) (history (record_of tracker_id w) ms) ∧
  results_tracker w' = results_tracker w ∧
  ∀ k, k ≠ tracker_id → progress_tracker w' !! k = progress_tracker w !! k.
Proof.
  induction 1 as [w|ms m w w' _ (IHr & IHs & IHt & IHk)
                 |ms w w' w'' _ (IHr & IHs & IHt & IHk) Hp Hr Hs].
  - simpl. by rewrite app_nil_r.
  - rewrite record_of_update, IHr. split; [by rewrite apply_writes_app|].
    split; [|split; [done|]].
    + simpl. rewrite IHs, history_app, map_app, <- app_assoc. simpl.
      by rewrite IHr.
    + intros k Hne. rewrite lookup_update_ne by done. by apply IHk.
  - unfold record_of in *. rewrite Hp, Hr, Hs. done.
Qed.

Lemma fetch_writes_mono (n n' : nat) ms :
  fetch_writes n ms → n ≤ n' → fetch_writes n' ms.
Proof.
  intros Hw. revert n'. induction Hw as [n|n url ms _ IH|n m ms Hm _ IH]; intros n' Hle.
  - constructor.
  - constructor. by apply IH.
  - destruct n' as [|n']; [lia|]. constructor; [done|]. apply IH. lia.
Qed.

Lemma fetch_writes_app (n1 n2 : nat) ms1 ms2 :
  fetch_writes n1 ms1 → fetch_writes n2 ms2 → fetch_writes (n1 + n2) (ms1 ++ ms2).
Proof.
  intros H1 H2. induction H1 as [n|n url ms _ IH|n m ms Hm _ IH]; simpl.
  - eapply fetch_writes_mono; [done|lia].
  - by constructor.
  - by constructor.
Qed.



(** Neutral writes keep any property of the five counters. *)
Lemma neutral_writes_keep (P : Z → Z → Z → Z → Z → Prop) ms (p : progress) :
  Forall neutral ms →
  P (total p) (processed p) (potential_successful p) (skipped p) (failed p) →
  Forall (λ q, P (total q) (processed q) (potential_successful q) (skipped q)
                 (failed q)) (history p ms) ∧
  (let q := apply_writes p ms in
   P (total q) (processed q) (potential_successful q) (skipped q) (failed q)).
Proof.
  intros Hn. revert p. induction Hn as [|m ms Hm _ IH]; intros p Hp.
  - by split; [constructor|].
  - assert (Hp' : let q := mutate m p in
       P (total q) (processed q) (potential_successful q) (skipped q) (failed q))
      by (by destruct p, m).
    destruct (IH _ Hp') as [IH1 IH2]. split; [by constructor|done].
Qed.

(** ** The writes of the fetcher, the crawler and the archive builder *)

Lemma attempt_fetched (reply : response) (retries : nat) (content : pystr) :
  attempt reply retries = Fetched content → archive_rejects content = false.
Proof.
  assert (Hexn : ∀ e n, on_exception e n ≠ Fetched content).
  { intros e n. unfold on_exception.
    destruct (S n <=? MAX_RETRIES); [|done]. by destruct (retried_message _). }
  unfold attempt. destruct reply as [status text|msg]; [|by intros ?%Hexn].
  destruct (status =? 200)%Z.
  - destruct (validate_fetched (strip text)) as [[]|e] eqn:Ev; [|by intros ?%Hexn].
    intros [= <-]. by apply fetched_content_archivable.
  - destruct (status =? 429)%Z; [|by intros ?%Hexn].
    destruct (S retries <=? MAX_RETRIES); [done|by intros ?%Hexn].
Qed.

Lemma fetch_loop_archivable (fuel : nat) :
  ∀ retries request_no jina_url timeout replies content,
  snd (fetch_loop fuel retries request_no jina_url timeout replies) = Some content →
  archive_rejects content = false.
Proof.
  induction fuel as [|fuel IH]; intros retries n jina_url timeout replies content;
    [done|].
  rewrite fetch_loop_step. destruct (MAX_RETRIES <? retries); [done|].
  destruct (attempt (replies n) retries) as [c|r' wt|] eqn:E; [| |done].
  - intros [= <-]. by eapply attempt_fetched.
  - specialize (IH r' (S n) jina_url timeout replies content).
    destruct (fetch_loop fuel r' (S n) jina_url timeout replies). apply IH.
Qed.

Lemma collect_Forall {A} (P : A → Prop) (rs : list (result A)) (l : list A) :
  Forall (λ r, match r with Ok a => P a | Raise _ => True end) rs →
  collect rs = Ok l → Forall P l.
Proof.
  intros Hrs. revert l. induction Hrs as [|r rs Hr _ IH]; intros l; simpl.
  - by intros [= <-].
  - destruct r as [a|e]; [|done]. destruct (collect rs) as [l'|e]; [|done].
    intros [= <-]. constructor; [done|by apply IH].
Qed.

Section Crawl.
Context `{PyRuntime}.

Lemma fetched_pair_archivable (url : pystr) (replies : nat → response) :
  archivable (fetched_pair url replies).
Proof.
  unfold fetched_pair, archivable, network_phase.
  destruct (snd (fetch_loop _ _ _ _ _ _)) as [content|] eqn:E; simpl; [|by left].
  right. by eapply fetch_loop_archivable.
Qed.

Lemma begin_fetch_evolves (url tracker_id : pystr) (w : world) :
  ∃ ms, evolves tracker_id ms w (fst (begin_fetch url tracker_id w)) ∧
    fetch_writes (match snd (begin_fetch url tracker_id w) with
                  | Pending => 0
                  | Finished _ => 1
                  end) ms.
Proof.
  unfold begin_fetch. destruct (should_skip_url url) as [[|]|e]; cbn [fst snd].
  - exists [SetCurrentUrl url; IncProcessed; IncSkipped]. split.
    + apply (evolves_update tracker_id [_; _]), (evolves_update tracker_id [_]),
        evolves_one.
    + constructor. constructor; [simpl; auto|constructor].
  - exists [SetCurrentUrl url]. split; [apply evolves_one|repeat constructor].
  - exists [SetCurrentUrl url]. split; [apply evolves_one|repeat constructor].
Qed.

Lemma begin_fetch_result (url tracker_id : pystr) (w : world) :
  match snd (begin_fetch url tracker_id w) with
  | Finished (Ok item) => archivable item
  | _ => True
  end.
Proof.
  unfold begin_fetch. destruct (should_skip_url url) as [[|]|e]; cbn [fst snd]; [|done..].
  by left.
Qed.

Lemma end_fetch_evolves (url : pystr) (replies : nat → response)
  (tracker_id : pystr) (w : world) :
  ∃ ms, evolves tracker_id ms w (end_fetch url replies tracker_id w) ∧
    fetch_writes 1 ms.
Proof.
  unfold end_fetch. destruct (snd (network_phase url replies)).
  - exists [IncProcessed; IncPotentialSuccessful]. split.
    + apply (evolves_update tracker_id [_]), (evolves_update tracker_id []),
        evolves_emit, evolves_refl.
    + constructor; [simpl; auto|constructor].
  - exists [IncProcessed; IncFailed]. split.
    + apply (evolves_update tracker_id [_]), (evolves_update tracker_id []),
        evolves_emit, evolves_refl.
    + constructor; [simpl; auto|constructor].
Qed.

Lemma get_markdown_content_evolves (url : pystr) (replies : nat → response)
  (tracker_id : pystr) (w : world) :
  ∃ ms, evolves tracker_id ms w (fst (get_markdown_content url replies tracker_id w)) ∧
    fetch_writes 1 ms.
Proof.
  unfold get_markdown_content.
  destruct (begin_fetch_evolves url tracker_id w) as (ms1 & Hev1 & Hw1).
  destruct (begin_fetch url tracker_id w) as [w1 [r|]]; cbn [fst snd] in *.
  - by exists ms1.
  - destruct (end_fetch_evolves url replies tracker_id w1) as (ms2 & Hev2 & Hw2).
    exists (ms1 ++ ms2). split; [by eapply evolves_trans|].
    by apply (fetch_writes_app 0 1).
Qed.

Lemma get_markdown_content_archivable (url : pystr) (replies : nat → response)
  (tracker_id : pystr) (w : world) (item : pystr * pystr) :
  snd (get_markdown_content url replies tracker_id w) = Ok item → archivable item.
Proof.
  unfold get_markdown_content.
  pose proof (begin_fetch_result url tracker_id w) as Hb.
  destruct (begin_fetch url tracker_id w) as [w1 [r|]]; cbn [fst snd] in *.
  - intros ->. done.
  - intros [= <-]. apply fetched_pair_archivable.
Qed.

Lemma start_tasks_evolves (batch : list (nat * pystr)) (tracker_id : pystr) :
  ∀ w, ∃ ms,
    evolves tracker_id ms w (fst (start_tasks batch tracker_id w)) ∧
    fetch_writes
      (length (List.filter (λ t, negb (is_pending t))
                 (snd (start_tasks batch tracker_id w)))) ms ∧
    length (snd (start_tasks batch tracker_id w)) = length batch ∧
    Forall (λ r, match r with Ok item => archivable item | Raise _ => True end)
      (map (λ t, match t with
                 | (_, _, Finished r) => r
                 | (_, link, Pending) => Ok (link, [])
                 end) (snd (start_tasks batch tracker_id w))).
Proof.
  induction batch as [|[i link] rest IH]; intros w.
  - exists []. simpl. split; [constructor|]. split; [constructor|]. by split.
  - simpl.
    destruct (begin_fetch_evolves link tracker_id w) as (ms1 & Hev1 & Hw1).
    pose proof (begin_fetch_result link tracker_id w) as Hr1.
    destruct (begin_fetch link tracker_id w) as [w1 s]. cbn [fst snd] in *.
    destruct (IH w1) as (ms2 & Hev2 & Hw2 & Hlen & Hres).
    destruct (start_tasks rest tracker_id w1) as [w2 ss]. cbn [fst snd] in *.
    exists (ms1 ++ ms2). split; [by eapply evolves_trans|].
    split; [|split; [simpl; by rewrite Hlen|]].
    + destruct s; simpl.
      * by apply (fetch_writes_app 1).
      * by apply (fetch_writes_app 0).
    + simpl. constructor; [|done]. destruct s as [[item|e]|]; [done..|by left].
Qed.

Lemma finish_tasks_evolves (env : environment) (tracker_id : pystr)
  (order : list (nat * pystr)) :
  ∀ w, ∃ ms, evolves tracker_id ms w (finish_tasks order env tracker_id w) ∧
    fetch_writes (length order) ms.
Proof.
  induction order as [|t order IH]; intros w.
  - exists []. split; constructor.
  - unfold finish_tasks. simpl.
    destruct (end_fetch_evolves (snd t) (link_replies env (fst t)) tracker_id w)
      as (ms1 & Hev1 & Hw1).
    destruct (IH (end_fetch (snd t) (link_replies env (fst t)) tracker_id w))
      as (ms2 & Hev2 & Hw2).
    exists (ms1 ++ ms2). split; [by eapply evolves_trans|].
    by apply (fetch_writes_app 1).
Qed.

Lemma gather_evolves (env : environment) (batch : list (nat * pystr))
  (tracker_id : pystr) (w : world) :
  ∃ ms n, evolves tracker_id ms w (fst (gather batch env tracker_id w)) ∧
    fetch_writes n ms ∧ (completes_each_once env → n ≤ length batch).
Proof.
  unfold gather.
  destruct (start_tasks_evolves batch tracker_id w) as (ms1 & Hev1 & Hw1 & Hlen & _).
  destruct (start_tasks batch tracker_id w) as [w1 ts]. cbn [fst snd] in *.
  set (pending := map fst (List.filter is_pending ts)).
  destruct (finish_tasks_evolves env tracker_id (completion_order env pending) w1)
    as (ms2 & Hev2 & Hw2).
  exists (ms1 ++ ms2),
    (length (List.filter (λ t, negb (is_pending t)) ts) +
     length (completion_order env pending)).
  split; [by eapply evolves_trans|].
  split; [by apply fetch_writes_app|].
  intros Honce. rewrite Honce. subst pending.
  rewrite length_map, <- Hlen, <- (List.filter_length is_pending ts). lia.
Qed.

Lemma gather_archivable (env : environment) (batch : list (nat * pystr))
  (tracker_id : pystr) (w : world) (rs : list (pystr * pystr)) :
  snd (gather batch env tracker_id w) = Ok rs → Forall archivable rs.
Proof.
  unfold gather.
  destruct (start_tasks_evolves batch tracker_id w) as (_ & _ & _ & _ & Hres).
  destruct (start_tasks batch tracker_id w) as [w1 ts]. cbn [fst snd] in *.
  apply collect_Forall. rewrite Forall_map in Hres. rewrite Forall_map.
  eapply Forall_impl; [apply Hres|].
  intros [[i link] [r|]]; simpl; [done|]. intros _. apply fetched_pair_archivable.
Qed.

Lemma run_batches_evolves (env : environment) (tracker_id : pystr) (fuel : nat) :
  ∀ remaining results w, ∃ ms n,
    evolves tracker_id ms w
      (fst (run_batches fuel remaining env tracker_id results w)) ∧
    fetch_writes n ms ∧ (completes_each_once env → n ≤ length remaining).
Proof.
  induction fuel as [|fuel IH]; intros remaining results w.
  { exists [], 0. split; [destruct remaining; constructor|].
    split; [constructor|lia]. }
  destruct remaining as [|t remaining].
  { exists [], 0. split; [constructor|]. split; [constructor|simpl; lia]. }
  cbn [run_batches].
  set (batch := firstn batch_size (t :: remaining)).
  set (later := skipn batch_size (t :: remaining)).
  assert (Hsplit : length batch + length later = length (t :: remaining)).
  { subst batch later.
    rewrite <- (firstn_skipn batch_size (t :: remaining)) at 3.
    by rewrite length_app. }
  destruct (gather_evolves env batch tracker_id w) as (ms1 & n1 & Hev1 & Hw1 & Hn1).
  destruct (gather batch env tracker_id w) as [w1 [batch_results|e]];
    cbn [fst snd] in *.
  - match goal with
    | |- context [run_batches fuel later env tracker_id ?rs ?w2] =>
        destruct (IH later rs w2) as (ms2 & n2 & Hev2 & Hw2 & Hn2)
    end.
    exists (ms1 ++ ms2), (n1 + n2). split.
    + eapply evolves_trans; [|exact Hev2].
      destruct later; [done|by apply evolves_emit].
    + split; [by apply fetch_writes_app|].
      intros Honce. specialize (Hn1 Honce). specialize (Hn2 Honce). lia.
  - exists ms1, n1. split; [done|]. split; [done|].
    intros Honce. specialize (Hn1 Honce). lia.
Qed.

Lemma run_batches_archivable (env : environment) (tracker_id : pystr) (fuel : nat) :
  ∀ remaining results w rs,
    Forall archivable results →
    snd (run_batches fuel remaining env tracker_id results w) = Ok rs →
    Forall archivable rs.
Proof.
  induction fuel as [|fuel IH]; intros remaining results w rs Hres.
  { destruct remaining; simpl; by intros [= <-]. }
  destruct remaining as [|t remaining]; [simpl; by intros [= <-]|].
  cbn [run_batches].
  pose proof (gather_archivable env (firstn batch_size (t :: remaining)) tracker_id w)
    as Hg.
  destruct (gather _ env tracker_id w) as [w1 [batch_results|e]];
    cbn [fst snd] in *; [|done].
  apply IH. apply Forall_app. split; [done|by apply Hg].
Qed.

(** *** The archive builder *)

Lemma write_entries_evolves (job_id tracker_id : pystr)
  (contents : list (pystr * pystr)) :
  ∀ file_count w, ∃ ms,
    evolves tracker_id ms w
      (fst (write_entries contents job_id tracker_id file_count w)) ∧
    (Forall archivable contents → Forall neutral ms).
Proof.
  induction contents as [|[url content] rest IH]; intros file_count w.
  { exists []. split; [constructor|done]. }
  cbn [write_entries].
  destruct (nonempty content) eqn:Hne; cbn [negb].
  - destruct (archive_rejects content) eqn:Hrej.
    + destruct (IH file_count (update_progress tracker_id IncFailed w))
        as (ms & Hev & Hn).
      exists (IncFailed :: ms). split.
      * eapply (evolves_trans tracker_id [_]); [apply evolves_one|done].
      * intros Harch. apply Forall_cons_1 in Harch as [[Ha|Ha] _];
          simpl in Ha; congruence.
    + destruct (write_file job_id _ _ (fs w)) as [f [[]|e]].
      * match goal with
        | |- context [write_entries rest job_id tracker_id (S file_count) ?w1] =>
            destruct (IH (S file_count) w1) as (ms & Hev & Hn)
        end.
        exists (IncSuccessful :: ms). split.
        -- eapply (evolves_trans tracker_id [_]); [|exact Hev].
           apply (evolves_update tracker_id []), evolves_with_fs, evolves_refl.
        -- intros Harch. apply Forall_cons_1 in Harch as [_ Harch].
           constructor; [done|by apply Hn].
      * exists []. split; [apply evolves_with_fs, evolves_refl|done].
  - destruct (IH file_count w) as (ms & Hev & Hn).
    exists ms. split; [done|]. intros Harch. apply Hn.
    by apply Forall_cons_1 in Harch as [_ Harch].
Qed.

Lemma create_zip_file_evolves (contents : list (pystr * pystr))
  (job_id tracker_id : pystr) (w : world) :
  ∃ ms, evolves tracker_id ms w
          (fst (create_zip_file contents job_id tracker_id w)) ∧
    (Forall archivable contents → Forall neutral ms).
Proof.
  unfold create_zip_file.
  match goal with
  | |- context [write_entries contents job_id tracker_id 0 ?w1] =>
      destruct (write_entries_evolves job_id tracker_id contents 0 w1)
        as (ms & Hev & Hn);
      destruct (write_entries contents job_id tracker_id 0 w1)
        as [w2 [file_count|e]]
  end; cbn [fst] in Hev; exists (SetSuccessful 0 :: ms).
  - split.
    + apply (evolves_trans tracker_id [_] ms w
               (update_progress tracker_id (SetSuccessful 0)
                  (with_fs (mkdir job_id) w))).
      * apply (evolves_update tracker_id []), evolves_with_fs, evolves_refl.
      * destruct (file_count =? 0); cbn [fst]; [done|].
        destruct (os_error _); cbn [fst]; [done|].
        by repeat apply evolves_with_fs.
    + intros Harch. constructor; [done|by apply Hn].
  - split.
    + apply (evolves_trans tracker_id [_] ms w
               (update_progress tracker_id (SetSuccessful 0)
                  (with_fs (mkdir job_id) w))); [|done].
      apply (evolves_update tracker_id []), evolves_with_fs, evolves_refl.
    + intros Harch. constructor; [done|by apply Hn].
Qed.

(** Nothing survives: no file is written and the count stays. *)
Lemma write_entries_none (job_id tracker_id : pystr)
  (contents : list (pystr * pystr)) :
  survivors contents = [] →
  ∀ file_count w,
    snd (write_entries contents job_id tracker_id file_count w) = Ok file_count ∧
    fs (fst (write_entries contents job_id tracker_id file_count w)) = fs w.
Proof.
  induction contents as [|[url content] rest IH]; intros Hnone file_count w;
    [done|].
  unfold survivors in Hnone. cbn [List.filter snd] in Hnone.
  cbn [write_entries].
  destruct (nonempty content); cbn [negb andb] in *.
  - destruct (archive_rejects content); cbn [negb] in *; [|done].
    destruct (IH Hnone file_count (update_progress tracker_id IncFailed w))
      as [-> ->]. done.
  - by apply IH.
Qed.

End Crawl.

(** ** The archive builder (C8) *)

Section Archive.
Context `{PyRuntime}.

(** C8: when no pair survives the archival check, [create_zip_file]
    raises the exception [No valid content to download] and no archive
    is written: the archives on disk are the ones there were. *)
Theorem no_valid_content_no_archive (contents : list (pystr * pystr))
  (job_id tracker_id : pystr) (w : world) :
  survivors contents = [] →
  snd (create_zip_file contents job_id tracker_id w) =
    Raise (Exception (py "No valid content to download")) ∧
  zips (fs (fst (create_zip_file contents job_id tracker_id w))) = zips (fs w).
Proof.
  intros Hnone. unfold create_zip_file.
  match goal with
  | |- context [write_entries contents job_id tracker_id 0 ?w1] =>
      destruct (write_entries_none job_id tracker_id contents Hnone 0 w1)
        as [Hcount Hfs];
      destruct (write_entries contents job_id tracker_id 0 w1) as [w2 file_count]
  end.
  cbn [fst snd] in *. subst file_count. cbn [Nat.eqb fst snd].
  split; [done|]. by rewrite Hfs.
Qed.

End Archive.

Lemma no_valid_content_no_archive_witness :
  survivors [(example_url, []); (example_url, py "Title: y")] = [] ∧
  snd (@create_zip_file example_runtime
         [(example_url, []); (example_url, py "Title: y")]
         (py "job-1") example_tracker empty_world) =
    Raise (Exception (py "No valid content to download")).
Proof.
  split; [by vm_compute|].
  apply (@no_valid_content_no_archive example_runtime). by vm_compute.
Defined.

(** ** The crawl as a whole (C1, C7, C10) *)

Lemma fetch_writes_total (n : nat) ms (p : progress) :
  fetch_writes n ms →
  Forall (λ q, total q = total p) (history p ms) ∧
  total (apply_writes p ms) = total p.
Proof.
  intros Hw. revert p. induction Hw as [n|n url ms _ IH|n m ms Hm _ IH]; intros p.
  - by split; [constructor|].
  - destruct (IH (mutate (SetCurrentUrl url) p)) as [IH1 IH2].
    assert (Ht : total (mutate (SetCurrentUrl url) p) = total p) by (by destruct p).
    rewrite Ht in *. split; [by constructor|done].
  - destruct (IH (mutate m (mutate IncProcessed p))) as [IH1 IH2].
    assert (Ht1 : total (mutate IncProcessed p) = total p) by (by destruct p).
    assert (Ht2 : total (mutate m (mutate IncProcessed p)) = total p)
      by (by destruct p, Hm as [<-|[<-|[<-|[]]]]).
    rewrite Ht2 in *. split; [by repeat constructor|done].
Qed.

Lemma Ok_inj {A} (a b : A) : Ok a = Ok b → a = b.
Proof. by intros [= ->]. Qed.

Lemma length_enumerate (links : list pystr) : length (enumerate links) = length links.
Proof. unfold enumerate. rewrite length_combine, length_seq. lia. Qed.

Section WholeCrawl.
Context `{PyRuntime}.

(** The links kept are the [href]s that start with [http] and match no
    skip pattern, when [urlparse] accepts every [href] it is shown. *)
Lemma select_links_filter (hrefs : list pystr) :
  Forall (λ h, startswith (py "http") h = true → urlparse_accepts h = true) hrefs →
  select_links hrefs =
  Ok (List.filter (λ h, startswith (py "http") h && negb (matches_skip_pattern h))
        hrefs).
Proof.
  induction 1 as [|h hrefs Hh _ IH]; [done|].
  cbn [select_links List.filter]. rewrite IH.
  destruct (startswith (py "http") h); [|done].
  specialize (Hh eq_refl). unfold urlparse_accepts in Hh. unfold should_skip_url.
  destruct (urlparse_error h); [done|].
  by destruct (matches_skip_pattern h).
Qed.

(** The writes of [collect_pages] after the fetch of the seed: none when
    it raises before the links are known; otherwise [total], then
    [processed], then those of the fetches of the links. *)
Lemma collect_pages_trace (url tracker_id : pystr) (env : environment) (w : world) :
  ∃ ms,
    evolves tracker_id ms
      (fst (get_markdown_content url (seed_replies env) tracker_id w))
      (fst (collect_pages url tracker_id env w)) ∧
    ((ms = [] ∧ (∀ x, snd (collect_pages url tracker_id env w) ≠ Ok x) ∧
      ¬ ∃ seed hrefs links,
          snd (get_markdown_content url (seed_replies env) tracker_id w) = Ok seed ∧
          seed_page env = Ok hrefs ∧ select_links hrefs = Ok links) ∨
     ∃ seed hrefs links ms1 n,
       snd (get_markdown_content url (seed_replies env) tracker_id w) = Ok seed ∧
       seed_page env = Ok hrefs ∧
       select_links hrefs = Ok links ∧
       ms = SetTotal (Z.of_nat (length links) + 1) :: SetProcessed 1 :: ms1 ∧
       fetch_writes n ms1 ∧
       (completes_each_once env → n ≤ length links) ∧
       ∀ links' rs, snd (collect_pages url tracker_id env w) = Ok (links', rs) →
                    links' = links ∧ Forall archivable rs).
Proof.
  unfold collect_pages.
  pose proof (get_markdown_content_archivable url (seed_replies env) tracker_id w)
    as Hseed.
  destruct (get_markdown_content url (seed_replies env) tracker_id w)
    as [w1 [seed|e]]; cbn [fst snd] in *;
    [|exists []; split; [constructor|left; do 2 (split; [done|]);
                                     by intros (? & ? & ? & ? & _)]].
  destruct (seed_page env) as [hrefs|e] eqn:Ep;
    [|exists []; split; [apply evolves_emit; constructor
                        |left; do 2 (split; [done|]);
                         by intros (? & ? & ? & _ & ? & _)]].
  destruct (select_links hrefs) as [links|e] eqn:El;
    [|exists []; split; [apply evolves_emit; constructor
                        |left; do 2 (split; [done|]);
                         intros (? & ? & ? & _ & [= <-] & ?); congruence]].
  match goal with
  | |- context [run_batches (length links) (enumerate links) env tracker_id
                  [seed] ?w2] =>
      destruct (run_batches_evolves env tracker_id (length links)
                  (enumerate links) [seed] w2) as (ms1 & n & Hev & Hw & Hn);
      pose proof (run_batches_archivable env tracker_id (length links)
                    (enumerate links) [seed] w2) as Hrs;
      destruct (run_batches (length links) (enumerate links) env tracker_id
                  [seed] w2) as [w3 [rs|e]]
  end; cbn [fst snd] in *.
  all: exists (SetTotal (Z.of_nat (length links) + 1) :: SetProcessed 1 :: ms1).
  all: split;
    [eapply (evolves_trans tracker_id [_; _]); [|exact Hev];
     apply (evolves_update tracker_id [_]), (evolves_update tracker_id []),
       evolves_emit, evolves_refl|].
  all: right; exists seed, hrefs, links, ms1, n.
  all: rewrite length_enumerate in Hn.
  all: do 6 (split; [done|]).
  - intros links' rs' [= <- <-]. split; [done|].
    apply (Hrs rs); [|done]. constructor; [by apply Hseed|constructor].
  - done.
Qed.

(** The snapshots of a whole [scrape_url] after those of the seed. *)
Lemma scrape_url_trace (url job_id : pystr) (env : environment) (w : world) :
  let tracker_id := str_of_Z (py_hash url) in
  let w1 := fst (get_markdown_content url (seed_replies env) tracker_id w) in
  ∃ ms,
    snapshots (fst (scrape_url url job_id env w)) =
      snapshots w1 ++ map (pair tracker_id) (history (record_of tracker_id w1) ms) ∧
    ((ms = [] ∧
      ¬ ∃ seed hrefs links,
          snd (get_markdown_content url (seed_replies env) tracker_id w) = Ok seed ∧
          seed_page env = Ok hrefs ∧ select_links hrefs = Ok links) ∨
     ∃ seed hrefs links ms1 ms2 n,
       snd (get_markdown_content url (seed_replies env) tracker_id w) = Ok seed ∧
       seed_page env = Ok hrefs ∧
       select_links hrefs = Ok links ∧
       ms = SetTotal (Z.of_nat (length links) + 1) :: SetProcessed 1 :: ms1 ++ ms2 ∧
       fetch_writes n ms1 ∧
       (completes_each_once env → n ≤ length links) ∧
       Forall neutral ms2).
Proof.
  intros tracker_id w1. subst w1. unfold scrape_url, crawl. fold tracker_id.
  destruct (collect_pages_trace url tracker_id env w) as (ms & Hev & Hshape).
  destruct (collect_pages url tracker_id env w) as [w2 [[links results]|e]];
    cbn [fst snd] in *.
  - destruct Hshape as [(_ & Hno & _)|(seed & hrefs & links0 & ms1 & n & Hs & Hp & Hl
                                  & -> & Hw & Hn & Hrs)];
      [by destruct (Hno (links, results))|].
    destruct (Hrs links results eq_refl) as [-> Harch].
    unfold finish_crawl.
    destruct (create_zip_file_evolves results job_id tracker_id w2)
      as (ms2 & Hev2 & Hn2).
    exists (SetTotal (Z.of_nat (length links0) + 1) :: SetProcessed 1 :: ms1 ++ ms2).
    split.
    + pose proof (evolves_trans _ _ _ _ _ _ Hev Hev2) as Hall.
      apply evolves_spec in Hall as (_ & Hsnap & _).
      destruct (create_zip_file results job_id tracker_id w2) as [w3 [zip_path|e]];
        cbn [fst] in Hsnap; exact Hsnap.
    + right. exists seed, hrefs, links0, ms1, ms2, n.
      do 6 (split; [done|]). by apply Hn2.
  - apply evolves_spec in Hev as (_ & Hsnap & _).
    exists ms. split.
    + by destruct (decide _).
    + destruct Hshape as [(-> & _ & Hno)|(seed & hrefs & links & ms1 & n & Hs & Hp & Hl
                                   & -> & Hw & Hn & _)]; [by left|].
      right. exists seed, hrefs, links, ms1, [], n. rewrite app_nil_r. done.
Qed.

End WholeCrawl.


Lemma record_of_fresh (tracker_id : pystr) (w : world) :
  progress_tracker w !! tracker_id = None →
  record_of tracker_id w = default_progress.
Proof. intros Hfresh. unfold record_of. by rewrite Hfresh. Qed.

Section Invariants.
Context `{PyRuntime}.



(** C7: when the page of the seed has twelve [href]s that start with
    [http] and match no skip pattern, and three that start with [http]
    and match one, the crawl sets [total] to 13, the twelve kept links
    and the seed; from that write on every snapshot of the record has
    [total = 13], and none has 16. *)
Theorem total_excludes_skipped_links (url job_id : pystr) (env : environment)
  (w : world) (hrefs : list pystr) :
  let tracker_id := str_of_Z (py_hash url) in
  urlparse_accepts url = true →
  seed_page env = Ok hrefs →
  Forall (λ h, startswith (py "http") h = true → urlparse_accepts h = true) hrefs →
  length (List.filter (λ h, startswith (py "http") h &&
                            negb (matches_skip_pattern h)) hrefs) = 12 →
  length (List.filter (λ h, startswith (py "http") h &&
                            matches_skip_pattern h) hrefs) = 3 →
  let w1 := fst (get_markdown_content url (seed_replies env) tracker_id w) in
  let w' := fst (scrape_url url job_id env w) in
  ∃ first rest,
    snapshots w' = snapshots w1 ++ map (pair tracker_id) (first :: rest) ∧
    Forall (λ p, total p = 13%Z ∧ total p ≠ 16%Z) (first :: rest).
Proof.
  intros tracker_id Hurl Hpage Hparse H12 _ w1 w'.
  destruct (scrape_url_trace url job_id env w) as (ms & Hsnap & Hshape).
  fold tracker_id w1 in Hsnap, Hshape.
  pose proof (select_links_filter hrefs Hparse) as Hlinks.
  assert (Hseed : ∃ seed,
    snd (get_markdown_content url (seed_replies env) tracker_id w) = Ok seed).
  { unfold urlparse_accepts in Hurl.
    unfold get_markdown_content, begin_fetch, should_skip_url.
    destruct (urlparse_error url); [done|].
    destruct (matches_skip_pattern url); cbn [fst snd]; eauto. }
  destruct Hseed as [seed Hseed].
  destruct Hshape as [[_ Hno]|(seed' & hrefs' & links & ms1 & ms2 & n & _ & Hpage'
                               & Hlinks' & -> & Hw1 & _ & Hneutral)].
  { destruct Hno. eexists _, _, _.
    split; [exact Hseed|]. split; [exact Hpage|exact Hlinks]. }
  rewrite Hpage in Hpage'. apply Ok_inj in Hpage' as <-.
  rewrite Hlinks in Hlinks'. apply Ok_inj in Hlinks'.
  rewrite Hlinks' in H12. rewrite H12 in Hsnap.
  set (p1 := record_of tracker_id w1) in *.
  set (p2 := mutate (SetTotal (Z.of_nat 12 + 1)) p1).
  set (p3 := mutate (SetProcessed 1) p2).
  assert (Ht2 : total p2 = 13%Z) by (subst p2; by destruct p1).
  assert (Ht3 : total p3 = 13%Z) by (subst p3 p2; by destruct p1).
  destruct (fetch_writes_total n ms1 p3 Hw1) as [Ht4 Ht5]. rewrite Ht3 in *.
  destruct (neutral_writes_keep (λ t _ _ _ _, t = 13%Z) ms2 (apply_writes p3 ms1)
              Hneutral Ht5) as [Ht6 _].
  exists p2, (p3 :: history p3 (ms1 ++ ms2)). split; [exact Hsnap|].
  assert (Hall : Forall (λ p, total p = 13%Z) (p2 :: p3 :: history p3 (ms1 ++ ms2))).
  { constructor; [done|]. constructor; [done|].
    rewrite history_app. apply Forall_app. by split. }
  eapply Forall_impl; [exact Hall|]. intros p ->. by split.
Qed.

End Invariants.


Lemma total_excludes_skipped_links_witness :
  let tracker_id := str_of_Z (example_hash example_url) in
  length seed_hrefs = 16 ∧
  ∃ first rest,
    snapshots (fst (@scrape_url example_runtime example_url (py "job-1")
                      env_links empty_world)) =
      snapshots (fst (@get_markdown_content example_runtime example_url
                        (seed_replies env_links) tracker_id empty_world)) ++
      map (pair tracker_id) (first :: rest) ∧
    Forall (λ p, total p = 13%Z ∧ total p ≠ 16%Z) (first :: rest).
Proof.
  split; [by vm_compute|].
  apply (@total_excludes_skipped_links example_runtime example_url (py "job-1")
           env_links empty_world seed_hrefs).
  - by vm_compute.
  - done.
  - apply List.Forall_forall. intros h Hin _.
    assert (Hall : forallb (@urlparse_accepts example_runtime) seed_hrefs = true)
      by (by vm_compute).
    rewrite forallb_forall in Hall. by apply Hall.
  - by vm_compute.
  - by vm_compute.
Defined.

(** ** Archive failures and downloads (C10) *)

Section Download.
Context `{PyRuntime}.

(** Nothing before the registration of the archive touches
    [results_tracker]. *)
Lemma results_tracker_untouched (url job_id tracker_id : pystr)
  (env : environment) (w : world) (links : list pystr)
  (results : list (pystr * pystr)) :
  snd (collect_pages url tracker_id env w) = Ok (links, results) →
  results_tracker
    (fst (create_zip_file results job_id tracker_id
            (fst (collect_pages url tracker_id env w)))) = results_tracker w.
Proof.
  intros _.
  destruct (get_markdown_content_evolves url (seed_replies env) tracker_id w)
    as (ms0 & Hev0 & _).
  destruct (collect_pages_trace url tracker_id env w) as (ms1 & Hev1 & _).
  destruct (create_zip_file_evolves results job_id tracker_id
              (fst (collect_pages url tracker_id env w))) as (ms2 & Hev2 & _).
  apply evolves_spec in Hev0 as (_ & _ & Hr0 & _).
  apply evolves_spec in Hev1 as (_ & _ & Hr1 & _).
  apply evolves_spec in Hev2 as (_ & _ & Hr2 & _).
  congruence.
Qed.

(** C10: when [create_zip_file] raises, [scrape_url] still returns a
    response, with the job id and the counts of the record as the
    archive builder left it; the job id, if it was not a key of
    [results_tracker] before, is not one afterwards, and a download of it
    is answered 404, [Results not found]. *)
Theorem archive_failure_hidden (url job_id : pystr) (env : environment)
  (w : world) (links : list pystr) (results : list (pystr * pystr)) (e : exn) :
  let tracker_id := str_of_Z (py_hash url) in
  let w2 := fst (collect_pages url tracker_id env w) in
  let w3 := fst (create_zip_file results job_id tracker_id w2) in
  snd (collect_pages url tracker_id env w) = Ok (links, results) →
  snd (create_zip_file results job_id tracker_id w2) = Raise e →
  results_tracker w !! job_id = None →
  scrape_url url job_id env w =
    (delete_progress tracker_id w3,
     Ok {| ScrapeResponse.links := url :: links;
           ScrapeResponse.jobId := job_id;
           ScrapeResponse.successful := successful (record_of tracker_id w3);
           ScrapeResponse.skipped := skipped (record_of tracker_id w3);
           ScrapeResponse.failed := failed (record_of tracker_id w3) |}) ∧
  results_tracker (fst (scrape_url url job_id env w)) !! job_id = None ∧
  download_results job_id (fst (scrape_url url job_id env w)) =
    Raise (HTTPException 404 (py "Results not found")).
Proof.
  intros tracker_id w2 w3 Hpages Hzip Hnew.
  pose proof (results_tracker_untouched url job_id tracker_id env w links results
                Hpages) as Hsame.
  fold w2 w3 in Hsame.
  assert (Hrun : scrape_url url job_id env w =
    (delete_progress tracker_id w3,
     Ok {| ScrapeResponse.links := url :: links;
           ScrapeResponse.jobId := job_id;
           ScrapeResponse.successful := successful (record_of tracker_id w3);
           ScrapeResponse.skipped := skipped (record_of tracker_id w3);
           ScrapeResponse.failed := failed (record_of tracker_id w3) |})).
  { unfold scrape_url, crawl. fold tracker_id. subst w3 w2.
    destruct (collect_pages url tracker_id env w) as [w2 r].
    cbn [fst snd] in *. subst r. unfold finish_crawl.
    destruct (create_zip_file results job_id tracker_id w2) as [w3 r].
    cbn [fst snd] in *. by subst r. }
  split; [exact Hrun|]. rewrite Hrun. cbn [fst].
  assert (Hnone : results_tracker (delete_progress tracker_id w3) !! job_id = None)
    by (cbn [results_tracker delete_progress]; by rewrite Hsame).
  split; [exact Hnone|]. unfold download_results. by rewrite Hnone.
Qed.

End Download.

Lemma archive_failure_hidden_witness :
  let tracker_id := str_of_Z (example_hash example_url) in
  snd (@collect_pages example_runtime example_url tracker_id env_plain empty_world) =
    Ok ([], [(example_url, [])]) ∧
  ScrapeResponse.failed <$>
    (match snd (@scrape_url example_runtime example_url (py "job-1") env_plain
                  empty_world) with
     | Ok r => Some r
     | Raise _ => None
     end) = Some 1%Z ∧
  @download_results (py "job-1")
    (fst (@scrape_url example_runtime example_url (py "job-1") env_plain
            empty_world)) =
    Raise (HTTPException 404 (py "Results not found")).
Proof.
  assert (Hpages :
    snd (@collect_pages example_runtime example_url
           (str_of_Z (example_hash example_url)) env_plain empty_world) =
    Ok ([], [(example_url, [])])) by (by vm_compute).
  destruct (@archive_failure_hidden example_runtime example_url (py "job-1")
              env_plain empty_world [] [(example_url, [])]
              (Exception (py "No valid content to download")) Hpages)
    as (Hrun & _ & Hdownload); [by vm_compute|done|].
  split; [exact Hpages|]. split; [|exact Hdownload].
  rewrite Hrun. by vm_compute.
Defined.

(** ** Cancellation (C9) *)

(** C9 does not hold of the code: [cancel_scrape] deletes nothing. On
    every tracker key and in every state the call raises [NameError] for
    the unbound name [cancel_scraping] and leaves the process as it was;
    for the job of [world_in_flight], whose seed is fetched and whose
    first link is in flight, the record is still there after the call,
    with its count and its current URL. *)
Theorem cancel_scrape_raises_name_error (tracker_id : pystr) (w : world) :
  cancel_scrape tracker_id w =
    (w, Raise (NameError (py "name 'cancel_scraping' is not defined"))) ∧
  progress_tracker (fst (cancel_scrape tracker_id w)) !! tracker_id =
    progress_tracker w !! tracker_id ∧
  ∃ p, progress_tracker (fst (cancel_scrape example_tracker world_in_flight))
         !! example_tracker = Some p ∧
       processed p = 1%Z ∧ potential_successful p = 1%Z ∧
       current_url p = py "https://site.example/page/1".
Proof.
  split; [reflexivity|]. split; [reflexivity|].
  eexists. split; [by vm_compute|]. by vm_compute.
Qed.

(** * Further properties of the code *)

(** ** The rate limiter *)

Lemma trim_window_length (now : Q) (times : list Q) :
  length (trim_window now times) ≤ length times.
Proof. unfold trim_window. apply List.filter_length_le. Qed.

(** What a suspension tells: the window is full and the sleep is what
    the oldest entry lacks to leave it. *)
Lemma rate_limit_pass_suspended (now : Q) (times : list Q) (sleep_time : Q) :
  snd (rate_limit_pass now times) = Suspended sleep_time →
  ∃ t0 rest, trim_window now times = t0 :: rest ∧
    sleep_time = (RATE_PERIOD - (now - t0))%Q ∧
    fst (rate_limit_pass now times) = t0 :: rest.
Proof.
  unfold rate_limit_pass.
  destruct (RATE_LIMIT <=? length (trim_window now times)); [|done].
  destruct (trim_window now times) as [|t0 rest]; [done|].
  destruct (Qltb 0 (RATE_PERIOD - (now - t0))); [|done].
  intros [= <-]. by exists t0, rest.
Qed.

(** X1: [last_request_times] never grows beyond [RATE_LIMIT] entries,
    whatever the clock does. *)
Theorem window_never_exceeds_limit (nows times : list Q) :
  length times ≤ RATE_LIMIT →
  length (fst (run_passes nows times)) ≤ RATE_LIMIT.
Proof.
  revert times. induction nows as [|now later IH]; intros times Hlen; [done|].
  simpl. pose proof (trim_window_length now times) as Htrim.
  destruct (rate_limit_pass_cases now times) as [[Hfree Hpass]|[_ (d & _ & Hpass)]];
    rewrite Hpass.
  - specialize (IH (trim_window now times ++ [now])).
    destruct (run_passes later (trim_window now times ++ [now])). simpl in *.
    apply IH. rewrite length_app. simpl. lia.
  - specialize (IH (trim_window now times)).
    destruct (run_passes later (trim_window now times)). simpl in *.
    apply IH. lia.
Qed.

Lemma window_never_exceeds_limit_witness :
  length (repeat 0%Q 15) ≤ RATE_LIMIT ∧
  length (fst (run_passes [0; 30; 61]%Q (repeat 0%Q 15))) ≤ RATE_LIMIT.
Proof.
  assert (Hlen : length (repeat 0%Q 15) ≤ RATE_LIMIT) by (vm_compute; lia).
  split; [exact Hlen|].
  exact (window_never_exceeds_limit [0; 30; 61]%Q (repeat 0%Q 15) Hlen).
Defined.

(** X2: a suspended caller sleeps for a positive time of at most
    [RATE_PERIOD], when no recorded call is later than its reading of
    the clock. *)
Theorem sleep_time_within_period (now : Q) (times : list Q) (sleep_time : Q) :
  Forall (λ t, (t <= now)%Q) times →
  snd (rate_limit_pass now times) = Suspended sleep_time →
  (0 < sleep_time)%Q ∧ (sleep_time <= RATE_PERIOD)%Q.
Proof.
  intros Hpast Hpass.
  destruct (rate_limit_pass_suspended now times sleep_time Hpass)
    as (t0 & rest & Htrim & -> & _).
  assert (Hin : In t0 (trim_window now times)) by (rewrite Htrim; by left).
  apply List.filter_In in Hin as [Hin Hyoung].
  apply Qltb_lt in Hyoung.
  rewrite List.Forall_forall in Hpast. specialize (Hpast t0 Hin).
  unfold RATE_PERIOD in *. split; lra.
Qed.

Lemma sleep_time_within_period_witness :
  Forall (λ t, (t <= 20)%Q) (repeat 5%Q 15) ∧
  snd (rate_limit_pass 20 (repeat 5%Q 15)) = Suspended 45 ∧
  (0 < 45)%Q ∧ (45 <= RATE_PERIOD)%Q.
Proof.
  assert (Hpast : Forall (λ t, (t <= 20)%Q) (repeat 5%Q 15))
    by (repeat constructor; unfold Qle; simpl; lia).
  assert (Hpass : snd (rate_limit_pass 20 (repeat 5%Q 15)) = Suspended 45)
    by reflexivity.
  split; [exact Hpast|]. split; [exact Hpass|].
  exact (sleep_time_within_period 20 (repeat 5%Q 15) 45 Hpast Hpass).
Defined.

(** X3: a caller that was suspended and wakes when its sleep is over is
    let through at once, provided no other caller was granted a slot
    during the sleep, so that the window it finds is the window it left:
    its pass is granted and its reading of the clock recorded; the call
    as a whole sleeps once and returns [True]. *)
Theorem suspended_caller_passes_after_sleep (now later : Q)
  (times found : list Q) (sleep_time : Q) :
  length times ≤ RATE_LIMIT →
  snd (rate_limit_pass now times) = Suspended sleep_time →
  (now + sleep_time <= later)%Q →
  found = fst (rate_limit_pass now times) →
  rate_limit_pass later found =
    (trim_window later (trim_window now times) ++ [later], Granted) ∧
  acquire_rate_limit [now; later] times =
    (trim_window later (trim_window now times) ++ [later], [sleep_time],
     Some (Ok true)).
Proof.
  intros Hlen Hpass Hlater ->.
  destruct (rate_limit_pass_suspended now times sleep_time Hpass)
    as (t0 & rest & Htrim & Hsleep & Hfst).
  pose proof (trim_window_length now times) as Hle.
  cbn [acquire_rate_limit].
  destruct (rate_limit_pass now times) as [times1 v]. cbn [fst snd] in *.
  subst v times1. rewrite Htrim in *.
  assert (Hgone : trim_window later (t0 :: rest) = trim_window later rest).
  { unfold trim_window. cbn [List.filter].
    destruct (Qltb (later - t0) RATE_PERIOD) eqn:E; [|done].
    apply Qltb_lt in E. subst sleep_time. unfold RATE_PERIOD in *. lra. }
  destruct (rate_limit_pass_cases later (t0 :: rest)) as [[_ ->]|[Hfull _]].
  - done.
  - rewrite Hgone in Hfull. pose proof (trim_window_length later rest).
    simpl in Hle. lia.
Qed.

Lemma suspended_caller_passes_after_sleep_witness :
  length (repeat 5%Q 15) ≤ RATE_LIMIT ∧
  acquire_rate_limit [20; 65]%Q (repeat 5%Q 15) = ([65%Q], [45%Q], Some (Ok true)).
Proof.
  assert (Hlen : length (repeat 5%Q 15) ≤ RATE_LIMIT) by (vm_compute; lia).
  split; [exact Hlen|].
  refine (proj2 (suspended_caller_passes_after_sleep 20 65 (repeat 5%Q 15) _ 45
                   Hlen eq_refl _ eq_refl)).
  unfold Qle. simpl. lia.
Defined.

(** Without that condition the caller can be suspended again: the
    window holds 5 and fourteen times 50, a caller arrives at 55 and is
    put to sleep for 10 seconds; at 65 another caller passes first and
    takes the slot that 5 has left; the woken caller then finds the
    window full and is put to sleep for another 45 seconds. *)
Example woken_caller_suspended_again :
  let times := 5%Q :: repeat 50%Q 14 in
  let left := fst (rate_limit_pass 55 times) in
  let found := fst (rate_limit_pass 65 left) in
  snd (rate_limit_pass 55 times) = Suspended 10 ∧
  snd (rate_limit_pass 65 left) = Granted ∧
  snd (rate_limit_pass 65 found) = Suspended 45.
Proof. by vm_compute. Qed.

(** ** The retry loop of the content fetcher *)

Lemma attempt_retryable (reply : response) (retries : nat) :
  retryable reply = true →
  attempt reply retries =
  if S retries <=? MAX_RETRIES
  then Again (S retries) (RETRY_DELAY * Z.of_nat (S retries))%Z
  else Stop.
Proof.
  assert (Hexn : ∀ e n, retried_message (str_of_exn e) = true →
            on_exception e n =
            if S n <=? MAX_RETRIES
            then Again (S n) (RETRY_DELAY * Z.of_nat (S n))%Z else Stop).
  { intros e n He. unfold on_exception. by rewrite He. }
  unfold retryable, attempt.
  destruct reply as [status text|msg]; [|apply (Hexn (Exception msg))].
  destruct (status =? 200)%Z.
  - unfold fetch_rejects, validate_fetched.
    destruct (_ || _); [intros _; apply Hexn; by vm_compute|].
    destruct (only_metadata _); [intros _; apply Hexn; by vm_compute|done].
  - destruct (status =? 429)%Z; cbn [orb].
    + intros _. destruct (S retries <=? MAX_RETRIES) eqn:E; [done|].
      apply Nat.leb_gt in E. unfold on_exception.
      destruct (Nat.leb_spec (S (S retries)) MAX_RETRIES); [lia|done].
    + apply (Hexn (Exception (failure_message status))).
Qed.

Lemma attempt_final (reply : response) (retries : nat) :
  retryable reply = false →
  attempt reply retries =
  match final_content reply with
  | Some content => Fetched content
  | None => Stop
  end.
Proof.
  assert (Hexn : ∀ e n, retried_message (str_of_exn e) = false →
            on_exception e n = Stop).
  { intros e n He. unfold on_exception. rewrite He. by destruct (S n <=? _). }
  unfold retryable, attempt, final_content.
  destruct reply as [status text|msg]; [|apply (Hexn (Exception msg))].
  destruct (status =? 200)%Z.
  - unfold fetch_rejects. by destruct (validate_fetched (strip text)) as [[]|e].
  - destruct (status =? 429)%Z; [done|].
    apply (Hexn (Exception (failure_message status))).
Qed.

Lemma fetch_loop_final jina_url timeout replies (k : nat) :
  ∀ fuel retries n,
    retries + k ≤ MAX_RETRIES → k < fuel →
    (∀ i, i < k → retryable (replies (n + i)) = true) →
    retryable (replies (n + k)) = false →
    fetch_loop fuel retries n jina_url timeout replies =
    (AcquireRateLimit :: ClientGet jina_url timeout ::
       retry_rounds jina_url timeout (S retries) k,
     final_content (replies (n + k))).
Proof.
  induction k as [|k IH]; intros fuel retries n Hroom Hfuel Hretry Hfinal;
    (destruct fuel as [|fuel]; [lia|]); rewrite fetch_loop_step;
    (destruct (Nat.ltb_spec MAX_RETRIES retries); [lia|]).
  - rewrite Nat.add_0_r in *. rewrite attempt_final by done.
    by destruct (final_content (replies n)).
  - rewrite attempt_retryable
      by (specialize (Hretry 0); rewrite Nat.add_0_r in Hretry; apply Hretry; lia).
    destruct (Nat.leb_spec (S retries) MAX_RETRIES); [|lia].
    rewrite (IH fuel (S retries) (S n)); [| lia | lia | |].
    + simpl. by rewrite Nat.add_succ_r.
    + intros i Hi. specialize (Hretry (S i)).
      rewrite Nat.add_succ_r in Hretry. apply Hretry. lia.
    + by rewrite Nat.add_succ_r in Hfinal.
Qed.

Lemma fetch_loop_ceiling jina_url timeout replies (m : nat) :
  ∀ fuel retries n,
    retries + m = MAX_RETRIES → m < fuel →
    (∀ i, i ≤ m → retryable (replies (n + i)) = true) →
    fetch_loop fuel retries n jina_url timeout replies =
    (AcquireRateLimit :: ClientGet jina_url timeout ::
       retry_rounds jina_url timeout (S retries) m, None).
Proof.
  induction m as [|m IH]; intros fuel retries n Hroom Hfuel Hretry;
    (destruct fuel as [|fuel]; [lia|]); rewrite fetch_loop_step;
    (destruct (Nat.ltb_spec MAX_RETRIES retries); [lia|]);
    rewrite attempt_retryable
      by (specialize (Hretry 0); rewrite Nat.add_0_r in Hretry; apply Hretry; lia).
  - destruct (Nat.leb_spec (S retries) MAX_RETRIES); [lia|done].
  - destruct (Nat.leb_spec (S retries) MAX_RETRIES); [|lia].
    rewrite (IH fuel (S retries) (S n)); [done| lia | lia |].
    intros i Hi. specialize (Hretry (S i)).
    rewrite Nat.add_succ_r in Hretry. apply Hretry. lia.
Qed.

Lemma fetch_loop_shape jina_url timeout replies (fuel : nat) :
  ∀ retries n,
    retries ≤ MAX_RETRIES → MAX_RETRIES - retries < fuel →
    ∃ k, retries + k ≤ MAX_RETRIES ∧
      fst (fetch_loop fuel retries n jina_url timeout replies) =
      AcquireRateLimit :: ClientGet jina_url timeout ::
        retry_rounds jina_url timeout (S retries) k.
Proof.
  induction fuel as [|fuel IH]; intros retries n Hle Hfuel; [lia|].
  rewrite fetch_loop_step. destruct (Nat.ltb_spec MAX_RETRIES retries); [lia|].
  destruct (attempt (replies n) retries) as [c|r' wt|] eqn:E.
  - exists 0. split; [lia|done].
  - destruct (retryable (replies n)) eqn:Er.
    + rewrite attempt_retryable in E by done.
      destruct (Nat.leb_spec (S retries) MAX_RETRIES); [|done].
      injection E as <- <-.
      destruct (IH (S retries) (S n)) as (k & Hk & Hes); [lia|lia|].
      destruct (fetch_loop fuel (S retries) (S n) jina_url timeout replies)
        as [es r]. simpl in Hes. subst es.
      exists (S k). split; [lia|done].
    + rewrite attempt_final in E by done. by destruct (final_content _).
  - exists 0. split; [lia|done].
Qed.

Section RetryLoop.
Context `{PyRuntime}.

(** X4: whatever the extraction service answers, one fetch makes a first
    request and at most [MAX_RETRIES] retries, always of the same URL with
    the same timeout; it asks the rate limiter before each request and
    sleeps [RETRY_DELAY] times the number of the retry before each
    retry. *)
Theorem fetch_follows_schedule (url : pystr) (replies : nat → response) :
  ∃ k, k ≤ MAX_RETRIES ∧
    fst (network_phase url replies) =
    fetch_schedule (py "https://r.jina.ai/" ++ transform_arxiv_url url)
      (if is_pdf_url (transform_arxiv_url url) then PDF_TIMEOUT else DEFAULT_TIMEOUT)
      k.
Proof.
  unfold network_phase, fetch_schedule.
  destruct (fetch_loop_shape (py "https://r.jina.ai/" ++ transform_arxiv_url url)
              (if is_pdf_url (transform_arxiv_url url)
               then PDF_TIMEOUT else DEFAULT_TIMEOUT)
              replies (S MAX_RETRIES) 0 0) as (k & Hk & Hes); [lia|lia|].
  exists k. split; [lia|exact Hes].
Qed.

(** X5: the first reply that is not retried decides the fetch. When the
    replies before the [k]-th, [k ≤ MAX_RETRIES], are all retried and the
    [k]-th is not, the fetch makes [k + 1] requests and ends with the
    stripped text of that reply if it is a 200, and with nothing
    otherwise. *)
Theorem first_final_reply_decides (url : pystr) (replies : nat → response)
  (k : nat) :
  k ≤ MAX_RETRIES →
  (∀ i, i < k → retryable (replies i) = true) →
  retryable (replies k) = false →
  network_phase url replies =
  (fetch_schedule (py "https://r.jina.ai/" ++ transform_arxiv_url url)
     (if is_pdf_url (transform_arxiv_url url) then PDF_TIMEOUT else DEFAULT_TIMEOUT)
     k,
   final_content (replies k)).
Proof.
  intros Hk Hretry Hfinal. unfold network_phase, fetch_schedule.
  apply (fetch_loop_final _ _ replies k (S MAX_RETRIES) 0 0); [lia|lia|done|done].
Qed.

(** X6: when the first [MAX_RETRIES + 1] replies are all of the retried
    kind, the fetch makes [MAX_RETRIES + 1] requests, sleeping 5, 10 and
    15 seconds in between, and ends with nothing. *)
Theorem retries_stop_at_ceiling (url : pystr) (replies : nat → response) :
  (∀ i, i ≤ MAX_RETRIES → retryable (replies i) = true) →
  network_phase url replies =
  (fetch_schedule (py "https://r.jina.ai/" ++ transform_arxiv_url url)
     (if is_pdf_url (transform_arxiv_url url) then PDF_TIMEOUT else DEFAULT_TIMEOUT)
     MAX_RETRIES,
   None).
Proof.
  intros Hretry. unfold network_phase, fetch_schedule.
  apply (fetch_loop_ceiling _ _ replies MAX_RETRIES (S MAX_RETRIES) 0 0);
    [lia|lia|done].
Qed.

End RetryLoop.

Section RetryRule.
Context `{PyRuntime}.


End RetryRule.


Lemma first_final_reply_decides_witness :
  2 ≤ MAX_RETRIES ∧
  retryable (throttled_twice 2) = false ∧
  snd (@network_phase example_runtime example_url throttled_twice) =
    Some valid_page ∧
  length (List.filter is_request
            (fst (@network_phase example_runtime example_url throttled_twice))) = 3.
Proof.
  assert (Hk : 2 ≤ MAX_RETRIES) by (unfold MAX_RETRIES; lia).
  assert (Hretry : ∀ i, i < 2 → retryable (throttled_twice i) = true)
    by (intros [|[|i]] Hi; [reflexivity|reflexivity|lia]).
  assert (Hfinal : retryable (throttled_twice 2) = false) by (by vm_compute).
  split; [exact Hk|]. split; [exact Hfinal|].
  rewrite (@first_final_reply_decides example_runtime example_url throttled_twice
             2 Hk Hretry Hfinal).
  split; by vm_compute.
Defined.

Lemma retries_stop_at_ceiling_witness :
  (∀ i : nat, i ≤ MAX_RETRIES → retryable (Response 429 []) = true) ∧
  @network_phase example_runtime example_url (λ _, Response 429 []) =
    (fetch_schedule (py "https://r.jina.ai/https://example.com/page") 30 3, None).
Proof.
  assert (Hretry : ∀ i : nat, i ≤ MAX_RETRIES → retryable (Response 429 []) = true)
    by (intros i _; reflexivity).
  split; [exact Hretry|].
  exact (@retries_stop_at_ceiling example_runtime example_url
           (λ _, Response 429 []) Hretry).
Defined.

Lemma fetch_loop_valid (fuel : nat) :
  ∀ retries request_no jina_url timeout replies content,
  snd (fetch_loop fuel retries request_no jina_url timeout replies) = Some content →
  strip content = content ∧ validate_fetched content = Ok tt.
Proof.
  induction fuel as [|fuel IH]; intros retries n jina_url timeout replies content;
    [done|].
  rewrite fetch_loop_step. destruct (MAX_RETRIES <? retries); [done|].
  destruct (attempt (replies n) retries) as [c|r' wt|] eqn:E; [| |done].
  - intros [= <-]. destruct (retryable (replies n)) eqn:Er.
    + rewrite attempt_retryable in E by done. by destruct (_ <=? _).
    + rewrite attempt_final in E by done.
      destruct (replies n) as [status text|msg]; [|done].
      unfold retryable, final_content in *.
      destruct (status =? 200)%Z; [|done].
      injection E as <-. split; [apply strip_idem|].
      unfold fetch_rejects in Er.
      by destruct (validate_fetched (strip text)) as [[]|e].
  - specialize (IH r' (S n) jina_url timeout replies content).
    destruct (fetch_loop fuel r' (S n) jina_url timeout replies). apply IH.
Qed.

Lemma validate_fetched_ok (content : pystr) :
  validate_fetched content = Ok tt →
  50 ≤ length content ∧ 3 ≤ count_char NL content ∧ only_metadata content = false.
Proof.
  unfold validate_fetched.
  destruct (Nat.ltb_spec (length content) 50); [done|].
  destruct (Nat.ltb_spec (count_char NL content) 3); [done|].
  cbn [orb]. by destruct (only_metadata content).
Qed.

Section FetchResult.
Context `{PyRuntime}.

(** X7: the pair a fetch returns tells its outcome. For a URL that is
    not skipped, [get_markdown_content] returns the URL it was given
    (not the transformed one) and adds one to [processed]; the content is
    either empty, and then [failed] went up by one, or it is stripped, has
    at least 50 characters and 3 line feeds and is not made of metadata
    lines only, and then [potential_successful] went up by one. *)
Theorem fetch_result_tells_outcome (url tracker_id : pystr)
  (replies : nat → response) (w : world) :
  should_skip_url url = Ok false →
  let w' := fst (get_markdown_content url replies tracker_id w) in
  let before := record_of tracker_id w in
  let after := record_of tracker_id w' in
  ∃ content,
    snd (get_markdown_content url replies tracker_id w) = Ok (url, content) ∧
    effects w' = effects w ++ fst (network_phase url replies) ∧
    processed after = (processed before + 1)%Z ∧
    skipped after = skipped before ∧
    ((content = [] ∧
      failed after = (failed before + 1)%Z ∧
      potential_successful after = potential_successful before) ∨
     (50 ≤ length content ∧ 3 ≤ count_char NL content ∧
      only_metadata content = false ∧ strip content = content ∧
      potential_successful after = (potential_successful before + 1)%Z ∧
      failed after = failed before)).
Proof.
  intros Hskip w' before after. subst w' before after.
  unfold get_markdown_content, begin_fetch. rewrite Hskip. cbn [fst snd].
  unfold end_fetch, fetched_pair.
  pose proof (fetch_loop_valid (S MAX_RETRIES) 0 0
                (py "https://r.jina.ai/" ++ transform_arxiv_url url)
                (if is_pdf_url (transform_arxiv_url url)
                 then PDF_TIMEOUT else DEFAULT_TIMEOUT) replies) as Hvalid.
  fold (network_phase url replies) in Hvalid.
  destruct (snd (network_phase url replies)) as [content|].
  - exists content. split; [done|]. split; [done|].
    destruct (Hvalid content eq_refl) as [Hstrip Hok].
    apply validate_fetched_ok in Hok as (Hlen & Hnl & Hmeta).
    rewrite !record_of_update, record_of_emit, record_of_update.
    destruct (record_of tracker_id w).
    split; [reflexivity|]. split; [reflexivity|]. right.
    do 4 (split; [done|]). split; reflexivity.
  - exists []. split; [done|]. split; [done|].
    rewrite !record_of_update, record_of_emit, record_of_update.
    destruct (record_of tracker_id w).
    split; [reflexivity|]. split; [reflexivity|]. left.
    split; [done|]. split; reflexivity.
Qed.

End FetchResult.

Lemma fetch_result_tells_outcome_witness :
  @should_skip_url example_runtime example_url = Ok false ∧
  ∃ content,
    snd (@get_markdown_content example_runtime example_url throttled_twice
           example_tracker empty_world) = Ok (example_url, content).
Proof.
  assert (Hskip : @should_skip_url example_runtime example_url = Ok false)
    by (by vm_compute).
  split; [exact Hskip|].
  destruct (@fetch_result_tells_outcome example_runtime example_url example_tracker
              throttled_twice empty_world Hskip) as (content & Hres & _).
  by exists content.
Defined.

(** ** arXiv URLs *)

Lemma startswith_app_l (p x s : pystr) :
  startswith (p ++ x) s = true → startswith p s = true.
Proof.
  revert s. induction p as [|a p IH]; intros s; simpl; [done|].
  destruct s as [|b s]; [done|]. intros [Hab Hrest]%andb_true_iff.
  by rewrite Hab, (IH s Hrest).
Qed.

Lemma contains_app_l (p x s : pystr) :
  contains p s = false → contains (p ++ x) s = false.
Proof.
  induction s as [|c s IH]; simpl.
  - intros Hp%orb_false_iff. destruct Hp as [Hp _].
    destruct (startswith (p ++ x) []) eqn:E; [|done].
    apply startswith_app_l in E. congruence.
  - intros [Hp Hrest]%orb_false_iff. rewrite (IH Hrest), orb_false_r.
    destruct (startswith (p ++ x) (c :: s)) eqn:E; [|done].
    apply startswith_app_l in E. congruence.
Qed.

Section Arxiv.
Context `{PyRuntime}.

Lemma re_search_arxiv_none (lit : pystr) (need_pdf : bool) (s : pystr) :
  contains lit s = false → re_search (match_arxiv_here lit need_pdf) s = None.
Proof.
  induction s as [|c s IH]; simpl.
  - intros [Hs _]%orb_false_iff. unfold match_arxiv_here, strip_prefix.
    by rewrite Hs.
  - intros [Hs Hrest]%orb_false_iff. unfold match_arxiv_here at 1, strip_prefix.
    rewrite Hs. by apply IH.
Qed.

(** X8: [transform_arxiv_url] returns either the URL it was given or a URL
    that starts with [https://arxiv.org/pdf/] and ends in [.pdf]; and it
    returns a URL that does not contain [arxiv.org/] as it is. *)
Theorem transform_arxiv_url_shape (url : pystr) :
  (transform_arxiv_url url = url ∨
   startswith (py "https://arxiv.org/pdf/") (transform_arxiv_url url) = true ∧
   endswith (py ".pdf") (transform_arxiv_url url) = true) ∧
  (contains (py "arxiv.org/") url = false → transform_arxiv_url url = url).
Proof.
  split.
  - unfold transform_arxiv_url.
    induction arxiv_patterns as [|[lit need_pdf] rest IH]; [by left|].
    cbn [transform_arxiv_loop].
    destruct (re_search (match_arxiv_here lit need_pdf) url) as [[id version]|];
      [|exact IH].
    right. split; [apply startswith_app|].
    rewrite !app_assoc. apply endswith_app.
  - intros Hno. unfold transform_arxiv_url, arxiv_patterns.
    cbn [transform_arxiv_loop].
    rewrite (re_search_arxiv_none (py "arxiv.org/abs/") false url)
      by apply (contains_app_l (py "arxiv.org/") (py "abs/")), Hno.
    rewrite (re_search_arxiv_none (py "arxiv.org/pdf/") true url)
      by apply (contains_app_l (py "arxiv.org/") (py "pdf/")), Hno.
    rewrite (re_search_arxiv_none (py "arxiv.org/html/") false url)
      by apply (contains_app_l (py "arxiv.org/") (py "html/")), Hno.
    done.
Qed.

End Arxiv.

(** The forms of an arXiv URL and the one they are turned into. *)
Example arxiv_forms :
  @transform_arxiv_url example_runtime (py "https://arxiv.org/abs/1706.03762") =
    py "https://arxiv.org/pdf/1706.03762.pdf" ∧
  @transform_arxiv_url example_runtime (py "http://arxiv.org/html/1706.03762v5") =
    py "https://arxiv.org/pdf/1706.03762v5.pdf" ∧
  @transform_arxiv_url example_runtime (py "https://arxiv.org/pdf/1706.03762v5.pdf") =
    py "https://arxiv.org/pdf/1706.03762v5.pdf" ∧
  @transform_arxiv_url example_runtime (py "https://arxiv.org/pdf/1706.03762v5") =
    py "https://arxiv.org/pdf/1706.03762v5".
Proof. by vm_compute. Qed.

(** ** The archive builder: what it writes *)

Lemma record_of_with_fs (tracker_id : pystr) f (w : world) :
  record_of tracker_id (with_fs f w) = record_of tracker_id w.
Proof. reflexivity. Qed.

Lemma advanced_refl (p : progress) : advanced p p 0 0 0 0 0.
Proof. unfold advanced. lia. Qed.

Lemma advanced_trans (p q r : progress) a1 b1 c1 d1 e1 a2 b2 c2 d2 e2 :
  advanced p q a1 b1 c1 d1 e1 → advanced q r a2 b2 c2 d2 e2 →
  advanced p r (a1 + a2) (b1 + b2) (c1 + c2) (d1 + d2) (e1 + e2).
Proof. unfold advanced. lia. Qed.

Lemma advanced_eq (p q : progress) a b c d e a' b' c' d' e' :
  advanced p q a b c d e → a = a' → b = b' → c = c' → d = d' → e = e' →
  advanced p q a' b' c' d' e'.
Proof. by intros Hadv -> -> -> -> ->. Qed.

Lemma write_all_lookup (entries : list (pystr * pystr)) :
  ∀ (files : gmap pystr pystr) name text,
    write_all entries files !! name = Some text →
    (name, text) ∈ entries ∨ files !! name = Some text.
Proof.
  induction entries as [|[n t] entries IH]; intros files name text; [by right|].
  cbn [write_all fold_left fst snd]. intros Hl. apply IH in Hl as [Hl|Hl].
  - left. by right.
  - destruct (decide (n = name)) as [->|Hne].
    + rewrite lookup_insert_eq in Hl. injection Hl as <-. left. by left.
    + rewrite lookup_insert_ne in Hl by done. by right.
Qed.

Lemma write_all_keeps (entries : list (pystr * pystr)) :
  ∀ (files : gmap pystr pystr) name,
    is_Some (files !! name) → is_Some (write_all entries files !! name).
Proof.
  induction entries as [|[n t] entries IH]; intros files name Hin; [done|].
  cbn [write_all fold_left fst snd]. apply IH.
  destruct (decide (n = name)) as [->|Hne].
  - by rewrite lookup_insert_eq.
  - by rewrite lookup_insert_ne.
Qed.

Lemma write_all_written (entries : list (pystr * pystr)) :
  ∀ (files : gmap pystr pystr) name text,
    (name, text) ∈ entries → is_Some (write_all entries files !! name).
Proof.
  induction entries as [|[n t] entries IH]; intros files name text Hin.
  { by apply elem_of_nil in Hin. }
  cbn [write_all fold_left fst snd]. apply elem_of_cons in Hin as [[= -> ->]|Hin].
  - apply write_all_keeps. by rewrite lookup_insert_eq.
  - by eapply IH.
Qed.

Lemma write_all_size (entries : list (pystr * pystr)) :
  ∀ files : gmap pystr pystr, size (write_all entries files) ≤ size files + length entries.
Proof.
  induction entries as [|[n t] entries IH]; intros files; [simpl; lia|].
  cbn [write_all fold_left fst snd length].
  etrans; [apply IH|]. rewrite map_size_insert.
  destruct (files !! n); simpl; lia.
Qed.

Section ArchiveWrites.
Context `{PyRuntime}.

Lemma create_safe_filename_md (title : option pystr) (url : pystr) (max_length : nat) :
  endswith (py ".md") (create_safe_filename title url max_length) = true.
Proof.
  unfold create_safe_filename.
  destruct title as [[|c t]|]; try apply endswith_app.
  destruct (negb (nonempty _)); rewrite ?app_assoc; apply endswith_app.
Qed.

Lemma write_file_ok (job_id name text : pystr) (f : filesystem) :
  write_error job_id name text = None →
  write_file job_id name text f = (put_file job_id name text f, Ok tt).
Proof.
  unfold write_error, write_file. destruct (os_error _); [done|]. by intros ->.
Qed.

Lemma write_file_fails (job_id name text : pystr) (f : filesystem) (e : exn) :
  write_error job_id name text = Some e →
  snd (write_file job_id name text f) = Raise e ∧
  zips (fst (write_file job_id name text f)) = zips f ∧
  (dirs f !! job_id = None ∨
   is_Some (dirs (fst (write_file job_id name text f)) !! job_id)).
Proof.
  unfold write_error, write_file.
  destruct (os_error _) as [msg|].
  - intros [= <-]. split; [done|]. split; [done|].
    cbn [fst]. destruct (dirs f !! job_id); [by right|by left].
  - intros ->. split; [done|]. split; [done|]. right. cbn.
    by rewrite lookup_insert_eq.
Qed.

(** What the loop of [create_zip_file] does to the directory of the job,
    the count of files and the record, when every write goes through. *)
Lemma write_entries_spec (job_id tracker_id : pystr)
  (contents : list (pystr * pystr)) :
  ∀ file_count w files,
    dirs (fs w) !! job_id = Some files →
    Forall (λ item, write_error job_id (fst (entry_of item)) (snd (entry_of item))
                    = None) (survivors contents) →
    let r := write_entries contents job_id tracker_id file_count w in
    snd r = Ok (file_count + length (survivors contents)) ∧
    dirs (fs (fst r)) =
      <[job_id := write_all (map entry_of (survivors contents)) files]>
        (dirs (fs w)) ∧
    zips (fs (fst r)) = zips (fs w) ∧
    advanced (record_of tracker_id w) (record_of tracker_id (fst r))
      0 (Z.of_nat (length (survivors contents))) 0 0
      (Z.of_nat (length (rejected contents))).
Proof.
  induction contents as [|[url content] rest IH];
    intros file_count w files Hdir Hcan.
  { cbn. split; [f_equal; lia|]. split; [by rewrite insert_id|].
    split; [done|apply advanced_refl]. }
  revert Hcan. unfold survivors, rejected. cbn [write_entries List.filter fst snd].
  fold (survivors rest) (rejected rest).
  destruct (nonempty content); cbn [negb andb]; [|by apply IH].
  destruct (archive_rejects content); cbn [negb].
  - intros Hcan.
    destruct (IH file_count (update_progress tracker_id IncFailed w) files Hdir Hcan)
      as (Hcount & Hdirs & Hzips & Hadv).
    split; [done|]. split; [done|]. split; [done|].
    rewrite record_of_update in Hadv. cbn [length].
    revert Hadv. unfold advanced. destruct (record_of tracker_id w). cbn. lia.
  - intros Hcan. apply Forall_cons_1 in Hcan as [Hhead Hcan].
    unfold entry_of in Hhead. cbn [fst snd] in Hhead.
    set (name := create_safe_filename (extract_title_from_content content) url 100)
      in *.
    set (text := py "# Original URL: " ++ url ++ [NL; NL] ++ content) in *.
    rewrite (write_file_ok job_id name text (fs w) Hhead).
    set (w1 := update_progress tracker_id IncSuccessful
                 (with_fs (λ _, put_file job_id name text (fs w)) w)).
    assert (Hdir1 : dirs (fs w1) !! job_id = Some (<[name := text]> files)).
    { subst w1. cbn. rewrite Hdir. cbn. by rewrite lookup_insert_eq. }
    destruct (IH (S file_count) w1 _ Hdir1 Hcan) as (Hcount & Hdirs & Hzips & Hadv).
    split; [rewrite Hcount; f_equal; cbn [length]; lia|]. split; [|split; [done|]].
    + rewrite Hdirs. subst w1. cbn. rewrite Hdir. cbn.
      by rewrite insert_insert_eq.
    + subst w1. rewrite record_of_update, record_of_with_fs in Hadv.
      cbn [length]. revert Hadv. unfold advanced.
      destruct (record_of tracker_id w). cbn. lia.
Qed.

(** The loop up to a write that fails: the files before it are counted,
    the exception leaves the loop, and no archive is touched. *)
Lemma write_entries_fails (job_id tracker_id : pystr)
  (before rest : list (pystr * pystr)) (item : pystr * pystr) (e : exn) :
  Forall (λ item, write_error job_id (fst (entry_of item)) (snd (entry_of item))
                  = None) (survivors before) →
  survivors [item] = [item] →
  write_error job_id (fst (entry_of item)) (snd (entry_of item)) = Some e →
  ∀ file_count w,
    let r := write_entries (before ++ item :: rest) job_id tracker_id file_count w in
    snd r = Raise e ∧
    zips (fs (fst r)) = zips (fs w) ∧
    (is_Some (dirs (fs w) !! job_id) → is_Some (dirs (fs (fst r)) !! job_id)) ∧
    advanced (record_of tracker_id w) (record_of tracker_id (fst r))
      0 (Z.of_nat (length (survivors before))) 0 0
      (Z.of_nat (length (rejected before))).
Proof.
  intros Hcan Hitem Hfail. revert Hcan.
  induction before as [|[url content] before IH]; intros Hcan file_count w.
  - clear Hcan. destruct item as [url content]. revert Hitem Hfail.
    rewrite app_nil_l.
    unfold survivors, entry_of. cbn [write_entries List.filter fst snd].
    destruct (nonempty content); cbn [negb andb]; [|done].
    destruct (archive_rejects content); cbn [negb]; [done|].
    intros _ Hfail.
    destruct (write_file_fails job_id _ _ (fs w) e Hfail) as (Hr & Hz & Hd).
    destruct (write_file job_id _ _ (fs w)) as [f r]. cbn [fst snd] in *.
    subst r. cbn [fst snd]. split; [done|]. split; [done|].
    split; [|apply advanced_refl].
    intros Hsome. destruct Hd as [Hd|Hd]; [|done].
    rewrite Hd in Hsome. by destruct Hsome.
  - revert Hcan. rewrite <- app_comm_cons. unfold survivors, rejected.
    cbn [write_entries List.filter fst snd].
    fold (survivors before) (rejected before).
    destruct (nonempty content); cbn [negb andb]; [|intros Hcan; by apply IH].
    destruct (archive_rejects content); cbn [negb].
    + intros Hcan.
      destruct (IH Hcan file_count (update_progress tracker_id IncFailed w))
        as (Hr & Hz & Hd & Hadv).
      split; [done|]. split; [done|]. split; [done|].
      rewrite record_of_update in Hadv. cbn [length].
      revert Hadv. unfold advanced. destruct (record_of tracker_id w). cbn. lia.
    + intros Hcan. apply Forall_cons_1 in Hcan as [Hhead Hcan].
      unfold entry_of in Hhead. cbn [fst snd] in Hhead.
      set (name := create_safe_filename (extract_title_from_content content) url 100)
        in *.
      set (text := py "# Original URL: " ++ url ++ [NL; NL] ++ content) in *.
      rewrite (write_file_ok job_id name text (fs w) Hhead).
      set (w1 := update_progress tracker_id IncSuccessful
                   (with_fs (λ _, put_file job_id name text (fs w)) w)).
      destruct (IH Hcan (S file_count) w1) as (Hr & Hz & Hd & Hadv).
      split; [done|]. split; [by rewrite Hz|]. split.
      * intros _. apply Hd. subst w1. cbn. by rewrite lookup_insert_eq.
      * subst w1. rewrite record_of_update, record_of_with_fs in Hadv.
        cbn [length]. revert Hadv. unfold advanced.
        destruct (record_of tracker_id w). cbn. lia.
Qed.

(** The archive [create_zip_file] leaves when it can write. *)
Lemma create_zip_file_archive (contents : list (pystr * pystr))
  (job_id tracker_id : pystr) (w : world) :
  survivors contents ≠ [] →
  writable job_id contents →
  zips (fs (fst (create_zip_file contents job_id tracker_id w))) =
    <[job_id := filter (λ kv : pystr * pystr, endswith (py ".md") kv.1 = true)
                  (write_all (map entry_of (survivors contents))
                     (default ∅ (dirs (fs w) !! job_id)))]>
      (zips (fs w)).
Proof.
  intros Hsome [Hcan Hzip]. unfold create_zip_file.
  set (w1 := update_progress tracker_id (SetSuccessful 0) (with_fs (mkdir job_id) w)).
  assert (Hdir1 : dirs (fs w1) !! job_id = Some (default ∅ (dirs (fs w) !! job_id))).
  { subst w1. cbn. destruct (dirs (fs w) !! job_id) eqn:E; cbn.
    - done.
    - by rewrite lookup_insert_eq. }
  destruct (write_entries_spec job_id tracker_id contents 0 w1 _ Hdir1 Hcan)
    as (Hcount & Hdirs & Hzips & _).
  destruct (write_entries contents job_id tracker_id 0 w1) as [w2 r2].
  cbn [fst snd] in *. subst r2.
  destruct (survivors contents) as [|s ss] eqn:Es; [done|].
  cbn [length Nat.add Nat.eqb]. rewrite Hzip. cbn.
  by rewrite Hdirs, lookup_insert_eq, Hzips.
Qed.

(** X9: when at least one pair survives the archival check and every
    write goes through ([open] raises no [OSError] and no text to write
    holds a lone surrogate), [create_zip_file] returns the path of the
    archive under the temporary directory, removes the directory of the
    job and leaves an archive for the job made of the [.md] files of that
    directory, the files written for the surviving pairs among them. The
    record then has [successful] equal to the number of surviving pairs
    and [failed] raised by the number of pairs with content that did not
    survive; the other counters are as before. *)
Theorem create_zip_file_writes_archive (contents : list (pystr * pystr))
  (job_id tracker_id : pystr) (w : world) :
  survivors contents ≠ [] →
  writable job_id contents →
  let w' := fst (create_zip_file contents job_id tracker_id w) in
  let files := default ∅ (dirs (fs w) !! job_id) in
  snd (create_zip_file contents job_id tracker_id w) =
    Ok (gettempdir ++ py "/" ++ job_id ++ py ".zip") ∧
  dirs (fs w') = delete job_id (dirs (fs w)) ∧
  zips (fs w') =
    <[job_id := filter (λ kv : pystr * pystr, endswith (py ".md") kv.1 = true)
                  (write_all (map entry_of (survivors contents)) files)]>
      (zips (fs w)) ∧
  successful (record_of tracker_id w') = Z.of_nat (length (survivors contents)) ∧
  failed (record_of tracker_id w') =
    (failed (record_of tracker_id w) + Z.of_nat (length (rejected contents)))%Z ∧
  processed (record_of tracker_id w') = processed (record_of tracker_id w) ∧
  potential_successful (record_of tracker_id w') =
    potential_successful (record_of tracker_id w) ∧
  skipped (record_of tracker_id w') = skipped (record_of tracker_id w) ∧
  total (record_of tracker_id w') = total (record_of tracker_id w).
Proof.
  intros Hsome [Hcan Hzip] w' files. subst w'. unfold create_zip_file.
  set (w1 := update_progress tracker_id (SetSuccessful 0) (with_fs (mkdir job_id) w)).
  assert (Hdir1 : dirs (fs w1) !! job_id = Some files).
  { subst w1 files. cbn. destruct (dirs (fs w) !! job_id) eqn:E; cbn.
    - done.
    - by rewrite lookup_insert_eq. }
  assert (Hdirs1 : delete job_id (dirs (fs w1)) = delete job_id (dirs (fs w))).
  { subst w1. cbn. destruct (dirs (fs w) !! job_id) eqn:E; [done|].
    by rewrite delete_insert_eq. }
  destruct (write_entries_spec job_id tracker_id contents 0 w1 files Hdir1 Hcan)
    as (Hcount & Hdirs & Hzips & Hadv).
  destruct (write_entries contents job_id tracker_id 0 w1) as [w2 r2].
  cbn [fst snd] in *. subst r2.
  destruct (survivors contents) as [|s ss] eqn:Es; [done|].
  cbn [length Nat.add Nat.eqb]. rewrite Hzip. cbn [fst snd].
  split; [done|]. split; [|split].
  - cbn. by rewrite Hdirs, delete_insert_eq.
  - cbn. rewrite Hdirs, lookup_insert_eq, Hzips. done.
  - subst w1. rewrite record_of_update, record_of_with_fs in Hadv.
    revert Hadv. unfold advanced. rewrite !record_of_with_fs.
    destruct (record_of tracker_id w), (record_of tracker_id w2). cbn. lia.
Qed.

(** X10: when the job has no directory yet and every write goes through,
    the entries of the archive are exactly files written for surviving
    pairs: every entry has the name and the text of the file of some
    surviving pair, so its text starts with the header line of the
    original URL; every surviving pair has an entry under its name; and
    there are at least one and at most as many entries as surviving pairs
    (two pairs with the same file name share one entry). *)
Theorem archive_entries_are_survivors (contents : list (pystr * pystr))
  (job_id tracker_id : pystr) (w : world) :
  survivors contents ≠ [] →
  writable job_id contents →
  dirs (fs w) !! job_id = None →
  ∃ archive,
    zips (fs (fst (create_zip_file contents job_id tracker_id w))) !! job_id
      = Some archive ∧
    (∀ name text, archive !! name = Some text →
       ∃ item, item ∈ survivors contents ∧ entry_of item = (name, text) ∧
               startswith (py "# Original URL: " ++ fst item) text = true) ∧
    (∀ item, item ∈ survivors contents → is_Some (archive !! fst (entry_of item))) ∧
    1 ≤ size archive ≤ length (survivors contents).
Proof.
  intros Hsome Hcan Hnew.
  pose proof (create_zip_file_archive contents job_id tracker_id w Hsome Hcan)
    as Hzips.
  rewrite Hnew in Hzips. cbn [default] in Hzips.
  set (written := write_all (map entry_of (survivors contents)) ∅) in *.
  assert (Hfrom : ∀ name text, written !! name = Some text →
            ∃ item, item ∈ survivors contents ∧ entry_of item = (name, text)).
  { intros name text Hl. apply write_all_lookup in Hl as [Hl|Hl]; [|done].
    apply list_elem_of_fmap in Hl as (item & Heq & Hin). by exists item. }
  assert (Hmd : filter (λ kv : pystr * pystr, endswith (py ".md") kv.1 = true)
                  written = written).
  { apply map_filter_id. intros name text Hl.
    destruct (Hfrom name text Hl) as (item & _ & Heq).
    unfold entry_of in Heq. apply pair_equal_spec in Heq as [<- _].
    apply create_safe_filename_md. }
  rewrite Hmd in Hzips. exists written.
  split; [by rewrite Hzips, lookup_insert_eq|]. split; [|split].
  - intros name text Hl. destruct (Hfrom name text Hl) as (item & Hin & Heq).
    exists item. split; [done|]. split; [done|].
    unfold entry_of in Heq. apply pair_equal_spec in Heq as [_ <-].
    rewrite app_assoc. apply startswith_app.
  - intros item Hin. apply (write_all_written _ ∅ _ (snd (entry_of item))).
    apply list_elem_of_fmap. exists item. split; [by destruct (entry_of item)|done].
  - split.
    + destruct (survivors contents) as [|item ss] eqn:Es; [done|].
      assert (Hin : is_Some (written !! fst (entry_of item))).
      { apply (write_all_written _ ∅ _ (snd (entry_of item))).
        apply list_elem_of_fmap. exists item.
        split; [by destruct (entry_of item)|by left]. }
      apply map_size_ne_0_lookup_2 in Hin. lia.
    + pose proof (write_all_size (map entry_of (survivors contents)) ∅) as Hsize.
      rewrite map_size_empty, length_map in Hsize. exact Hsize.
Qed.

End ArchiveWrites.

Lemma two_pages_writable : @writable example_runtime (py "job-1") two_pages.
Proof.
  split; [|done].
  assert (Hs : survivors two_pages = [(example_url, valid_page)]) by (by vm_compute).
  rewrite Hs. constructor; [by vm_compute|constructor].
Qed.

Lemma create_zip_file_writes_archive_witness :
  survivors two_pages ≠ [] ∧
  snd (@create_zip_file example_runtime two_pages (py "job-1") example_tracker
         empty_world) = Ok (py "/tmp/job-1.zip") ∧
  successful (record_of example_tracker
                (fst (@create_zip_file example_runtime two_pages (py "job-1")
                        example_tracker empty_world))) = 1%Z.
Proof.
  assert (Hsome : survivors two_pages ≠ []) by (by vm_compute).
  split; [exact Hsome|].
  destruct (@create_zip_file_writes_archive example_runtime two_pages (py "job-1")
              example_tracker empty_world Hsome two_pages_writable)
    as (Hpath & _ & _ & Hcount & _).
  split; [exact Hpath|exact Hcount].
Defined.

Lemma archive_entries_are_survivors_witness :
  survivors two_pages ≠ [] ∧
  dirs (fs empty_world) !! py "job-1" = None ∧
  ∃ archive,
    zips (fs (fst (@create_zip_file example_runtime two_pages (py "job-1")
                     example_tracker empty_world))) !! py "job-1" = Some archive ∧
    1 ≤ size archive ≤ length (survivors two_pages).
Proof.
  assert (Hsome : survivors two_pages ≠ []) by (by vm_compute).
  assert (Hnew : dirs (fs empty_world) !! py "job-1" = None) by done.
  split; [exact Hsome|]. split; [exact Hnew|].
  destruct (@archive_entries_are_survivors example_runtime two_pages (py "job-1")
              example_tracker empty_world Hsome two_pages_writable Hnew)
    as (archive & Hzip & _ & _ & Hsize).
  exists archive. split; [exact Hzip|exact Hsize].
Defined.

(** ** The crawl: results, counts and failures *)

Lemma filter_length_perm {A} (f : A → bool) (l l' : list A) :
  l ≡ₚ l' → length (List.filter f l) = length (List.filter f l').
Proof.
  induction 1 as [|x l l' _ IH|x y l|l l' l'' _ IH1 _ IH2]; simpl.
  - done.
  - destruct (f x); simpl; lia.
  - destruct (f x), (f y); simpl; lia.
  - lia.
Qed.

Lemma survivors_app (l1 l2 : list (pystr * pystr)) :
  survivors (l1 ++ l2) = survivors l1 ++ survivors l2.
Proof. apply List.filter_app. Qed.

Lemma rejected_archivable (contents : list (pystr * pystr)) :
  Forall archivable contents → rejected contents = [].
Proof.
  induction 1 as [|[url content] rest [Ha|Ha] _ IH]; [done|..];
    unfold rejected; cbn [List.filter snd] in *; rewrite Ha;
    [|rewrite andb_false_r]; exact IH.
Qed.

Section CrawlAccounting.
Context `{PyRuntime}.

Lemma select_links_ok (hrefs : list pystr) :
  ∀ links, select_links hrefs = Ok links →
    Forall (λ h, startswith (py "http") h = true → urlparse_accepts h = true) hrefs ∧
    links = List.filter kept_link hrefs ∧
    Forall (λ link, should_skip_url link = Ok false) links.
Proof.
  induction hrefs as [|h hrefs IH]; intros links.
  { intros [= <-]. by repeat split. }
  cbn [select_links List.filter]. unfold kept_link at 1.
  destruct (startswith (py "http") h) eqn:Hh; cbn [andb].
  - unfold should_skip_url at 1.
    destruct (urlparse_error h) eqn:Hp; [done|].
    assert (Hh_acc : urlparse_accepts h = true)
      by (unfold urlparse_accepts; by rewrite Hp).
    destruct (select_links hrefs) as [links'|e]; [|done].
    destruct (IH links' eq_refl) as (Hacc & -> & Hskip).
    intros [= <-]. split; [by constructor|].
    destruct (matches_skip_pattern h) eqn:Hm; cbn [negb]; [by split|].
    split; [done|]. constructor; [|done]. unfold should_skip_url. by rewrite Hp, Hm.
  - intros Hl. destruct (IH links Hl) as (Hacc & -> & Hskip).
    split; [constructor; [by rewrite Hh|done]|by split].
Qed.

(** The outcome of a fetch that went to the network, read off its pair:
    the pair survives the archival check exactly when the fetch ended
    with content. *)
Lemma fetched_pair_survives (url : pystr) (replies : nat → response) :
  survivors [fetched_pair url replies] =
  match snd (network_phase url replies) with
  | Some _ => [fetched_pair url replies]
  | None => []
  end.
Proof.
  unfold fetched_pair, network_phase.
  pose proof (fetch_loop_valid (S MAX_RETRIES) 0 0
                (py "https://r.jina.ai/" ++ transform_arxiv_url url)
                (if is_pdf_url (transform_arxiv_url url)
                 then PDF_TIMEOUT else DEFAULT_TIMEOUT) replies) as Hvalid.
  destruct (snd (fetch_loop _ _ _ _ _ _)) as [content|]; [|done].
  destruct (Hvalid content eq_refl) as [Hstrip Hok].
  pose proof (validate_fetched_ok content Hok) as (Hlen & _).
  unfold survivors. cbn [List.filter snd].
  rewrite <- Hstrip, (fetched_content_archivable content) by (by rewrite Hstrip).
  rewrite Hstrip. destruct content; [simpl in Hlen; lia|done].
Qed.

Lemma end_fetch_record (url : pystr) (replies : nat → response)
  (tracker_id : pystr) (w : world) :
  fs (end_fetch url replies tracker_id w) = fs w ∧
  advanced (record_of tracker_id w)
    (record_of tracker_id (end_fetch url replies tracker_id w))
    1 0 (Z.of_nat (length (survivors [fetched_pair url replies]))) 0
    (1 - Z.of_nat (length (survivors [fetched_pair url replies]))).
Proof.
  rewrite fetched_pair_survives. unfold end_fetch.
  destruct (snd (network_phase url replies)); (split; [done|]);
    rewrite !record_of_update, record_of_emit;
    unfold advanced; destruct (record_of tracker_id w); cbn; lia.
Qed.

Lemma finish_tasks_record (env : environment) (tracker_id : pystr)
  (order : list (nat * pystr)) :
  ∀ w,
    fs (finish_tasks order env tracker_id w) = fs w ∧
    advanced (record_of tracker_id w)
      (record_of tracker_id (finish_tasks order env tracker_id w))
      (Z.of_nat (length order)) 0
      (Z.of_nat (length (survivors (map (link_pair env) order)))) 0
      (Z.of_nat (length order) -
       Z.of_nat (length (survivors (map (link_pair env) order)))).
Proof.
  induction order as [|t order IH]; intros w.
  { split; [done|]. cbn. apply advanced_refl. }
  unfold finish_tasks. cbn [fold_left].
  fold (finish_tasks order env tracker_id
          (end_fetch (snd t) (link_replies env (fst t)) tracker_id w)).
  destruct (end_fetch_record (snd t) (link_replies env (fst t)) tracker_id w)
    as [Hfs1 Hadv1].
  destruct (IH (end_fetch (snd t) (link_replies env (fst t)) tracker_id w))
    as [Hfs2 Hadv2].
  split; [by rewrite Hfs2|].
  assert (Hs : length (survivors (map (link_pair env) (t :: order))) =
               length (survivors [fetched_pair (snd t) (link_replies env (fst t))]) +
               length (survivors (map (link_pair env) order))).
  { change (map (link_pair env) (t :: order))
      with ([link_pair env t] ++ map (link_pair env) order).
    by rewrite survivors_app, length_app. }
  rewrite Hs. cbn [length].
  eapply advanced_eq;
    [exact (advanced_trans _ _ _ _ _ _ _ _ _ _ _ _ _ Hadv1 Hadv2)|..]; lia.
Qed.

Lemma start_tasks_links (batch : list (nat * pystr)) (tracker_id : pystr) :
  ∀ w, Forall (λ t, should_skip_url (snd t) = Ok false) batch →
    snd (start_tasks batch tracker_id w) = map (λ t, (t, Pending)) batch ∧
    fs (fst (start_tasks batch tracker_id w)) = fs w ∧
    advanced (record_of tracker_id w)
      (record_of tracker_id (fst (start_tasks batch tracker_id w))) 0 0 0 0 0.
Proof.
  induction batch as [|[i link] rest IH]; intros w Hskip.
  { split; [done|]. split; [done|]. apply advanced_refl. }
  apply Forall_cons_1 in Hskip as [Hlink Hrest]. cbn [snd] in Hlink.
  cbn [start_tasks]. unfold begin_fetch. rewrite Hlink.
  destruct (IH (update_progress tracker_id (SetCurrentUrl link) w) Hrest)
    as (Hts & Hfs & Hadv).
  destruct (start_tasks rest tracker_id _) as [w2 ts]. cbn [fst snd] in *.
  split; [by rewrite Hts|]. split; [done|].
  rewrite record_of_update in Hadv. revert Hadv. unfold advanced.
  destruct (record_of tracker_id w). cbn. lia.
Qed.

Lemma gather_links (env : environment) (batch : list (nat * pystr))
  (tracker_id : pystr) (w : world) :
  Forall (λ t, should_skip_url (snd t) = Ok false) batch →
  snd (gather batch env tracker_id w) = Ok (map (link_pair env) batch) ∧
  fs (fst (gather batch env tracker_id w)) = fs w ∧
  (any_order env →
   advanced (record_of tracker_id w)
     (record_of tracker_id (fst (gather batch env tracker_id w)))
     (Z.of_nat (length batch)) 0
     (Z.of_nat (length (survivors (map (link_pair env) batch)))) 0
     (Z.of_nat (length batch) -
      Z.of_nat (length (survivors (map (link_pair env) batch))))).
Proof.
  intros Hskip. unfold gather.
  destruct (start_tasks_links batch tracker_id w Hskip) as (Hts & Hfs & Hadv).
  destruct (start_tasks batch tracker_id w) as [w1 ts]. cbn [fst snd] in *.
  subst ts.
  assert (Hpending : map fst (List.filter is_pending
                                (map (λ t : nat * pystr, (t, Pending)) batch)) = batch).
  { clear. induction batch as [|[i link] rest IH]; [done|]. cbn. by rewrite IH. }
  rewrite Hpending.
  destruct (finish_tasks_record env tracker_id (completion_order env batch) w1)
    as [Hfs2 Hadv2].
  split; [|split; [by rewrite Hfs2|]].
  - clear. induction batch as [|[i link] rest IH]; [done|].
    cbn [map task_result collect]. fold (map (task_result env)).
    rewrite IH. done.
  - intros Hany. specialize (Hany batch).
    eapply advanced_eq; [exact (advanced_trans _ _ _ _ _ _ _ _ _ _ _ _ _ Hadv Hadv2)|..];
      rewrite ?(Permutation_length Hany);
      unfold survivors;
      rewrite ?(filter_length_perm _ _ _ (Permutation_map (link_pair env) Hany));
      lia.
Qed.

Lemma run_batches_links (env : environment) (tracker_id : pystr) (fuel : nat) :
  ∀ remaining results w,
    length remaining ≤ fuel →
    Forall (λ t, should_skip_url (snd t) = Ok false) remaining →
    let r := run_batches fuel remaining env tracker_id results w in
    snd r = Ok (results ++ map (link_pair env) remaining) ∧
    fs (fst r) = fs w ∧
    (any_order env →
     advanced (record_of tracker_id w) (record_of tracker_id (fst r))
       (Z.of_nat (length remaining)) 0
       (Z.of_nat (length (survivors (map (link_pair env) remaining)))) 0
       (Z.of_nat (length remaining) -
        Z.of_nat (length (survivors (map (link_pair env) remaining))))).
Proof.
  induction fuel as [|fuel IH]; intros remaining results w Hfuel Hskip.
  { destruct remaining; [|simpl in Hfuel; lia].
    cbn. rewrite app_nil_r. split; [done|]. split; [done|].
    intros _. apply advanced_refl. }
  destruct remaining as [|t remaining'].
  { cbn. rewrite app_nil_r. split; [done|]. split; [done|].
    intros _. apply advanced_refl. }
  cbn zeta. cbn [run_batches].
  remember (t :: remaining') as remaining eqn:Hrem.
  remember (firstn batch_size remaining) as batch eqn:Hbatch.
  remember (skipn batch_size remaining) as later eqn:Hlater_eq.
  assert (Hsplit : remaining = batch ++ later)
    by (subst batch later; by rewrite firstn_skipn).
  assert (Hlater : length later ≤ fuel).
  { subst later. rewrite length_skipn. unfold batch_size. lia. }
  assert (Hskip1 : Forall (λ t, should_skip_url (snd t) = Ok false) batch)
    by (subst batch; by apply Forall_take).
  assert (Hskip2 : Forall (λ t, should_skip_url (snd t) = Ok false) later)
    by (subst later; by apply Forall_drop).
  clear Hbatch Hlater_eq.
  destruct (gather_links env batch tracker_id w Hskip1) as (Hres1 & Hfs1 & Hadv1).
  destruct (gather batch env tracker_id w) as [w1 r1]. cbn [fst snd] in *.
  subst r1.
  match goal with
  | |- context [run_batches fuel later env tracker_id ?rs ?w2] =>
      assert (Hw2 : fs w2 = fs w1 ∧
                    record_of tracker_id w2 = record_of tracker_id w1)
        by (by destruct later);
      destruct (IH later rs w2 Hlater Hskip2) as (Hres3 & Hfs3 & Hadv3)
  end.
  destruct Hw2 as [Hfs2 Hrec2].
  split; [|split].
  - rewrite Hres3, Hsplit, map_app. by rewrite app_assoc.
  - by rewrite Hfs3, Hfs2.
  - intros Hany. specialize (Hadv1 Hany). specialize (Hadv3 Hany).
    rewrite Hrec2 in Hadv3.
    rewrite Hsplit, map_app, survivors_app, !length_app.
    eapply advanced_eq;
      [exact (advanced_trans _ _ _ _ _ _ _ _ _ _ _ _ _ Hadv1 Hadv3)|..]; lia.
Qed.

End CrawlAccounting.

Lemma enumerate_snd (P : pystr → Prop) (links : list pystr) :
  Forall P links → Forall (λ t : nat * pystr, P (snd t)) (enumerate links).
Proof.
  unfold enumerate. generalize 0.
  induction links as [|link links IH]; intros n Hall; cbn; [constructor|].
  apply Forall_cons_1 in Hall as [Hlink Hall].
  constructor; [done|by apply IH].
Qed.

Section CrawlOutcome.
Context `{PyRuntime}.

Lemma select_links_raise (hrefs : list pystr) (e : exn) :
  select_links hrefs = Raise e →
  ∃ href msg, In href hrefs ∧ startswith (py "http") href = true ∧
              urlparse_error href = Some msg ∧ e = ValueError msg.
Proof.
  induction hrefs as [|h hrefs IH]; [done|]. cbn [select_links].
  destruct (startswith (py "http") h) eqn:Hh.
  - unfold should_skip_url at 1.
    destruct (urlparse_error h) as [msg|] eqn:Hp.
    + intros [= <-]. exists h, msg. split; [by left|done].
    + destruct (select_links hrefs) as [links|e']; [done|].
      intros [= <-]. destruct (IH eq_refl) as (href & msg & Hin & Hrest).
      exists href, msg. split; [by right|done].
  - intros Hr. destruct (IH Hr) as (href & msg & Hin & Hrest).
    exists href, msg. split; [by right|done].
Qed.

Lemma get_markdown_content_fs (url : pystr) (replies : nat → response)
  (tracker_id : pystr) (w : world) :
  fs (fst (get_markdown_content url replies tracker_id w)) = fs w.
Proof.
  unfold get_markdown_content, begin_fetch.
  destruct (should_skip_url url) as [[|]|e]; cbn [fst]; try done.
  unfold end_fetch. by destruct (snd (network_phase url replies)).
Qed.

Lemma get_markdown_content_returns (url : pystr) (replies : nat → response)
  (tracker_id : pystr) (w : world) :
  match snd (get_markdown_content url replies tracker_id w) with
  | Ok _ => urlparse_accepts url = true
  | Raise e => should_skip_url url = Raise e
  end.
Proof.
  unfold get_markdown_content, begin_fetch, urlparse_accepts, should_skip_url.
  destruct (urlparse_error url); [done|].
  by destruct (matches_skip_pattern url).
Qed.

(** The record of a new job once the seed is fetched: the seed counts
    once, as a potential success, as skipped or as failed. *)
Lemma seed_counts (url tracker_id : pystr) (replies : nat → response)
  (w : world) (seed : pystr * pystr) :
  progress_tracker w !! tracker_id = None →
  snd (get_markdown_content url replies tracker_id w) = Ok seed →
  let p1 := record_of tracker_id (fst (get_markdown_content url replies tracker_id w)) in
  let a := Z.of_nat (length (survivors [seed])) in
  (skipped p1 = (if matches_skip_pattern url then 1 else 0) ∧
   0 ≤ a ∧ 0 ≤ failed p1 ∧ a + skipped p1 + failed p1 = 1)%Z.
Proof.
  intros Hfresh%record_of_fresh. unfold get_markdown_content, begin_fetch.
  unfold should_skip_url. destruct (urlparse_error url); [done|].
  destruct (matches_skip_pattern url); cbn [fst snd]; intros [= <-].
  - rewrite !record_of_update, Hfresh. vm_compute. repeat split; done.
  - destruct (end_fetch_record url replies tracker_id
                (update_progress tracker_id (SetCurrentUrl url) w)) as [_ Hadv].
    rewrite record_of_update, Hfresh in Hadv.
    assert (Hone : length (survivors [fetched_pair url replies]) ≤ 1).
    { rewrite fetched_pair_survives.
      destruct (snd (network_phase url replies)); simpl; lia. }
    revert Hadv Hone. unfold advanced. cbn [mutate default_progress skipped failed].
    cbn zeta. lia.
Qed.

Lemma create_zip_file_counts (contents : list (pystr * pystr))
  (job_id tracker_id : pystr) (w : world) :
  writable job_id contents →
  let r := create_zip_file contents job_id tracker_id w in
  snd r = (if length (survivors contents) =? 0
           then Raise (Exception (py "No valid content to download"))
           else Ok (gettempdir ++ py "/" ++ job_id ++ py ".zip")) ∧
  (successful (record_of tracker_id (fst r)) =
     Z.of_nat (length (survivors contents)) ∧
   skipped (record_of tracker_id (fst r)) = skipped (record_of tracker_id w) ∧
   failed (record_of tracker_id (fst r)) =
     failed (record_of tracker_id w) + Z.of_nat (length (rejected contents)))%Z ∧
  (if length (survivors contents) =? 0
   then zips (fs (fst r)) = zips (fs w)
   else is_Some (zips (fs (fst r)) !! job_id) ∧ dirs (fs (fst r)) !! job_id = None).
Proof.
  intros [Hcan Hzip]. unfold create_zip_file.
  set (w0 := update_progress tracker_id (SetSuccessful 0) (with_fs (mkdir job_id) w)).
  assert (Hdir : ∃ files, dirs (fs w0) !! job_id = Some files).
  { subst w0. cbn. destruct (dirs (fs w) !! job_id) as [files|] eqn:E.
    - by exists files.
    - exists ∅. by rewrite lookup_insert_eq. }
  destruct Hdir as [files Hdir].
  destruct (write_entries_spec job_id tracker_id contents 0 w0 files Hdir Hcan)
    as (Hcount & _ & Hzips & Hadv).
  destruct (write_entries contents job_id tracker_id 0 w0) as [w2 r2].
  cbn [fst snd] in *. rewrite Nat.add_0_l in Hcount. subst r2.
  assert (Hrec : (successful (record_of tracker_id w2) =
                    Z.of_nat (length (survivors contents)) ∧
                  skipped (record_of tracker_id w2) =
                    skipped (record_of tracker_id w) ∧
                  failed (record_of tracker_id w2) =
                    failed (record_of tracker_id w) +
                    Z.of_nat (length (rejected contents)))%Z).
  { subst w0. rewrite record_of_update, record_of_with_fs in Hadv.
    revert Hadv. unfold advanced. destruct (record_of tracker_id w). cbn. lia. }
  destruct (length (survivors contents) =? 0); cbn [fst snd].
  - split; [done|]. split; [exact Hrec|]. by rewrite Hzips.
  - rewrite Hzip. cbn [fst snd]. split; [done|]. split; [exact Hrec|]. cbn.
    by rewrite lookup_insert_eq, lookup_delete_eq.
Qed.

Lemma collect_pages_ok (url tracker_id : pystr) (env : environment) (w : world)
  (seed : pystr * pystr) (hrefs links : list pystr) :
  snd (get_markdown_content url (seed_replies env) tracker_id w) = Ok seed →
  seed_page env = Ok hrefs →
  select_links hrefs = Ok links →
  let w1 := fst (get_markdown_content url (seed_replies env) tracker_id w) in
  let r := collect_pages url tracker_id env w in
  let s := Z.of_nat (length (survivors (map (link_pair env) (enumerate links)))) in
  snd r = Ok (links, seed :: map (link_pair env) (enumerate links)) ∧
  fs (fst r) = fs w ∧
  (any_order env →
   (skipped (record_of tracker_id (fst r)) = skipped (record_of tracker_id w1) ∧
    failed (record_of tracker_id (fst r)) =
      failed (record_of tracker_id w1) + Z.of_nat (length links) - s)%Z).
Proof.
  intros Hseed Hpage Hlinks. cbn zeta. unfold collect_pages.
  pose proof (get_markdown_content_fs url (seed_replies env) tracker_id w) as Hfs.
  destruct (get_markdown_content url (seed_replies env) tracker_id w) as [w1 r1].
  cbn [fst snd] in *. subst r1. rewrite Hpage, Hlinks.
  destruct (select_links_ok hrefs links Hlinks) as (_ & _ & Hskip).
  set (w2 := update_progress tracker_id (SetProcessed 1)
               (update_progress tracker_id
                  (SetTotal (Z.of_nat (length links) + 1))
                  (emit [ClientGet url 30] w1))).
  assert (Hlen : length (enumerate links) ≤ length links)
    by (by rewrite length_enumerate).
  destruct (run_batches_links env tracker_id (length links) (enumerate links)
              [seed] w2 Hlen
              (enumerate_snd (λ l, should_skip_url l = Ok false) links Hskip))
    as (Hres & Hfs2 & Hadv).
  destruct (run_batches (length links) (enumerate links) env tracker_id [seed] w2)
    as [w3 r3]. cbn [fst snd] in *. subst r3. cbn [fst snd].
  split; [done|]. split; [by rewrite Hfs2|].
  intros Hany. specialize (Hadv Hany). rewrite length_enumerate in Hadv.
  subst w2. rewrite !record_of_update, record_of_emit in Hadv.
  revert Hadv. unfold advanced. destruct (record_of tracker_id w1). cbn. lia.
Qed.

Lemma collect_pages_ok_inv (url tracker_id : pystr) (env : environment)
  (w : world) (links : list pystr) (results : list (pystr * pystr)) :
  snd (collect_pages url tracker_id env w) = Ok (links, results) →
  ∃ seed hrefs,
    snd (get_markdown_content url (seed_replies env) tracker_id w) = Ok seed ∧
    seed_page env = Ok hrefs ∧ select_links hrefs = Ok links.
Proof.
  unfold collect_pages.
  destruct (get_markdown_content url (seed_replies env) tracker_id w)
    as [w1 [seed|e]]; [|done].
  destruct (seed_page env) as [hrefs|e]; [|done].
  destruct (select_links hrefs) as [links0|e] eqn:El; [|done].
  destruct (run_batches _ _ _ _ _ _) as [w3 [rs|e]]; [|done].
  intros [= <- <-]. by exists seed, hrefs.
Qed.

Lemma collect_pages_raise (url tracker_id : pystr) (env : environment)
  (w : world) (e : exn) :
  snd (collect_pages url tracker_id env w) = Raise e →
  fs (fst (collect_pages url tracker_id env w)) = fs w ∧
  (should_skip_url url = Raise e ∨ seed_page env = Raise e ∨
   ∃ hrefs, seed_page env = Ok hrefs ∧ select_links hrefs = Raise e).
Proof.
  unfold collect_pages.
  pose proof (get_markdown_content_fs url (seed_replies env) tracker_id w) as Hfs.
  pose proof (get_markdown_content_returns url (seed_replies env) tracker_id w)
    as Hret.
  destruct (get_markdown_content url (seed_replies env) tracker_id w)
    as [w1 [seed|e1]]; cbn [fst snd] in *.
  - destruct (seed_page env) as [hrefs|e2]; cbn [fst snd].
    + destruct (select_links hrefs) as [links|e3] eqn:El; cbn [fst snd].
      * destruct (select_links_ok hrefs links El) as (_ & _ & Hskip).
        match goal with
        | |- context [run_batches _ _ _ _ _ ?w2] =>
            destruct (run_batches_links env tracker_id (length links)
                        (enumerate links) [seed] w2
                        (eq_ind_r (λ n, n ≤ length links) (le_n _)
                           (length_enumerate links))
                        (enumerate_snd (λ l, should_skip_url l = Ok false)
                           links Hskip)) as (Hres & _ & _);
            destruct (run_batches (length links) (enumerate links) env
                        tracker_id [seed] w2) as [w3 [rs|e4]]
        end; cbn [fst snd] in *; done.
      * intros [= <-]. split; [done|]. right; right. by exists hrefs.
    + intros [= <-]. split; [done|]. by right; left.
  - intros [= <-]. split; [done|]. by left.
Qed.

(** The progress records of the other jobs after a crawl. *)
Lemma scrape_url_other_records (url job_id : pystr) (env : environment)
  (w : world) (k : pystr) :
  k ≠ str_of_Z (py_hash url) →
  progress_tracker (fst (scrape_url url job_id env w)) !! k =
  progress_tracker w !! k.
Proof.
  intros Hne. unfold scrape_url, crawl, finish_crawl.
  set (tracker_id := str_of_Z (py_hash url)) in *.
  destruct (get_markdown_content_evolves url (seed_replies env) tracker_id w)
    as (ms0 & Hev0 & _).
  destruct (collect_pages_trace url tracker_id env w) as (ms1 & Hev1 & _).
  apply evolves_spec in Hev0 as (_ & _ & _ & Hk0).
  apply evolves_spec in Hev1 as (_ & _ & _ & Hk1).
  destruct (collect_pages url tracker_id env w) as [w2 [[links results]|e]];
    cbn [fst snd] in *.
  - destruct (create_zip_file_evolves results job_id tracker_id w2)
      as (ms2 & Hev2 & _).
    apply evolves_spec in Hev2 as (_ & _ & _ & Hk2).
    destruct (create_zip_file results job_id tracker_id w2) as [w3 [zip_path|e]];
      cbn [fst snd progress_tracker delete_progress register_result] in *;
      rewrite lookup_delete_ne by done;
      by rewrite Hk2, Hk1, Hk0.
  - destruct (decide _); cbn [fst progress_tracker delete_progress];
      rewrite ?lookup_delete_ne by done; by rewrite Hk1, Hk0.
Qed.

(** X11: the links of a crawl are the [href]s that start with [http] and
    match no skip pattern, in document order and with their repetitions;
    the selection returns exactly when [urlparse] accepts every [href]
    that starts with [http], the skipped ones included. *)
Theorem select_links_keeps (hrefs links : list pystr) :
  select_links hrefs = Ok links ↔
  Forall (λ h, startswith (py "http") h = true → urlparse_accepts h = true) hrefs ∧
  links = List.filter kept_link hrefs.
Proof.
  split.
  - intros Hl. destruct (select_links_ok hrefs links Hl) as (Hacc & Heq & _).
    by split.
  - intros [Hacc ->]. by rewrite select_links_filter.
Qed.

(** X12: the pairs a crawl accumulates are the pair of the seed, then the
    pair of every link in the order of the links, whatever the order in
    which the fetches of a batch complete and whatever the extraction
    service answers for a link: a link whose fetch fails contributes its
    URL with the empty content. *)
Theorem crawl_results_in_link_order (url tracker_id : pystr) (env : environment)
  (w : world) (links : list pystr) (results : list (pystr * pystr)) :
  snd (collect_pages url tracker_id env w) = Ok (links, results) →
  ∃ seed hrefs,
    snd (get_markdown_content url (seed_replies env) tracker_id w) = Ok seed ∧
    seed_page env = Ok hrefs ∧
    links = List.filter kept_link hrefs ∧
    results = seed :: map (link_pair env) (enumerate links) ∧
    map fst results = fst seed :: links ∧
    fs (fst (collect_pages url tracker_id env w)) = fs w.
Proof.
  intros Hok.
  destruct (collect_pages_ok_inv url tracker_id env w links results Hok)
    as (seed & hrefs & Hseed & Hpage & Hlinks).
  destruct (collect_pages_ok url tracker_id env w seed hrefs links Hseed Hpage Hlinks)
    as (Hres & Hfs & _).
  rewrite Hok in Hres. apply Ok_inj in Hres.
  apply pair_equal_spec in Hres as [_ ->].
  destruct (select_links_ok hrefs links Hlinks) as (_ & Hfilter & _).
  exists seed, hrefs. do 4 (split; [done|]). split; [|done].
  cbn [map]. f_equal. rewrite map_map. unfold link_pair, fetched_pair.
  unfold enumerate. clear. generalize 0.
  induction links as [|link links IH]; intros n; [done|].
  cbn [length seq combine map]. rewrite IH. f_equal.
  cbn [fst snd]. by destruct (snd (network_phase link (link_replies env n))).
Qed.

End CrawlOutcome.

Lemma crawl_results_in_link_order_witness :
  let links := List.filter (@kept_link example_runtime) seed_hrefs in
  let results := (example_url, valid_page) ::
                 map (@link_pair example_runtime env_links) (enumerate links) in
  snd (@collect_pages example_runtime example_url example_tracker env_links
         empty_world) = Ok (links, results) ∧
  ∃ seed hrefs,
    snd (@get_markdown_content example_runtime example_url
           (seed_replies env_links) example_tracker empty_world) = Ok seed ∧
    seed_page env_links = Ok hrefs ∧
    links = List.filter (@kept_link example_runtime) hrefs ∧
    results = seed :: map (@link_pair example_runtime env_links) (enumerate links) ∧
    map fst results = fst seed :: links ∧
    fs (fst (@collect_pages example_runtime example_url example_tracker env_links
               empty_world)) = fs empty_world.
Proof.
  intros links results.
  assert (Hok : snd (@collect_pages example_runtime example_url example_tracker
                       env_links empty_world) = Ok (links, results))
    by (by vm_compute).
  split; [exact Hok|].
  exact (@crawl_results_in_link_order example_runtime example_url example_tracker
           env_links empty_world links results Hok).
Defined.

Section CrawlResponse.
Context `{PyRuntime}.

(** X13: [scrape_url] leaves no progress record under its tracker id,
    whether it returns or raises, and leaves the records of the other
    jobs as they were. *)
Theorem progress_record_removed (url job_id : pystr) (env : environment)
  (w : world) :
  progress_tracker (fst (scrape_url url job_id env w)) =
  delete (str_of_Z (py_hash url)) (progress_tracker w).
Proof.
  apply map_eq. intros k.
  destruct (decide (k = str_of_Z (py_hash url))) as [->|Hne].
  - rewrite lookup_delete_eq. unfold scrape_url, crawl, finish_crawl.
    set (tracker_id := str_of_Z (py_hash url)).
    destruct (collect_pages url tracker_id env w) as [w2 [[links results]|e]].
    + destruct (create_zip_file results job_id tracker_id w2)
        as [w3 [zip_path|e]]; cbn; by rewrite lookup_delete_eq.
    + cbn [fst].
      destruct (decide (is_Some (progress_tracker w2 !! tracker_id))) as [|Hn].
      * cbn. by rewrite lookup_delete_eq.
      * by apply eq_None_not_Some.
  - rewrite lookup_delete_ne by done. by apply scrape_url_other_records.
Qed.

(** X14: when [scrape_url] raises, it raises an [HTTPException] with
    status 500 and the detail [Error scraping URL: ] followed by the text
    of the cause; the cause is [urlparse] refusing the seed, the read of
    the seed's page failing, or [urlparse] refusing an [href] of that page
    that starts with [http]. No result is registered and the file system
    is as it was. *)
Theorem scrape_url_fails_with_500 (url job_id : pystr) (env : environment)
  (w : world) (e : exn) :
  snd (scrape_url url job_id env w) = Raise e →
  (∃ cause,
     e = HTTPException 500 (py "Error scraping URL: " ++ str_of_exn cause) ∧
     (should_skip_url url = Raise cause ∨ seed_page env = Raise cause ∨
      ∃ hrefs href msg,
        seed_page env = Ok hrefs ∧ In href hrefs ∧
        startswith (py "http") href = true ∧
        urlparse_error href = Some msg ∧ cause = ValueError msg)) ∧
  results_tracker (fst (scrape_url url job_id env w)) = results_tracker w ∧
  fs (fst (scrape_url url job_id env w)) = fs w.
Proof.
  unfold scrape_url, crawl.
  set (tracker_id := str_of_Z (py_hash url)).
  destruct (get_markdown_content_evolves url (seed_replies env) tracker_id w)
    as (ms0 & Hev0 & _).
  destruct (collect_pages_trace url tracker_id env w) as (ms1 & Hev1 & _).
  apply evolves_spec in Hev0 as (_ & _ & Hr0 & _).
  apply evolves_spec in Hev1 as (_ & _ & Hr1 & _).
  pose proof (collect_pages_raise url tracker_id env w) as Hraise.
  destruct (collect_pages url tracker_id env w) as [w2 [[links results]|cause]];
    cbn [fst snd] in *.
  - by destruct (finish_crawl url job_id tracker_id links results w2).
  - intros [= <-]. destruct (Hraise cause eq_refl) as [Hfs Hcause].
    split; [exists cause; split; [done|]|split].
    + destruct Hcause as [Hseed|[Hpage|(hrefs & Hpage & Hlinks)]];
        [by left|by right; left|].
      right; right.
      destruct (select_links_raise hrefs cause Hlinks)
        as (href & msg & Hin & Hhttp & Hparse & Hmsg).
      by exists hrefs, href, msg.
    + destruct (decide _); cbn; by rewrite Hr1, Hr0.
    + by destruct (decide _).
Qed.

(** X15: [scrape_url] returns a response exactly when [urlparse] accepts
    the seed, the page of the seed can be read, and [urlparse] accepts
    every [href] of it that starts with [http]. What the extraction
    service answers, for the seed or for a link, and whether an archive
    can be written, makes no difference. *)
Theorem scrape_url_succeeds_iff (url job_id : pystr) (env : environment)
  (w : world) :
  (∃ r, snd (scrape_url url job_id env w) = Ok r) ↔
  urlparse_accepts url = true ∧
  ∃ hrefs, seed_page env = Ok hrefs ∧
    Forall (λ h, startswith (py "http") h = true → urlparse_accepts h = true) hrefs.
Proof.
  unfold scrape_url, crawl.
  set (tracker_id := str_of_Z (py_hash url)).
  split.
  - intros [r Hr].
    destruct (collect_pages url tracker_id env w) as [w2 [[links results]|e]] eqn:Ec;
      [|done].
    destruct (collect_pages_ok_inv url tracker_id env w links results)
      as (seed & hrefs & Hs & Hp & Hl); [by rewrite Ec|].
    pose proof (get_markdown_content_returns url (seed_replies env) tracker_id w)
      as Hret.
    rewrite Hs in Hret. split; [done|]. exists hrefs. split; [done|].
    by destruct (select_links_ok hrefs links Hl).
  - intros (Hacc & hrefs & Hp & Hall).
    destruct (snd (get_markdown_content url (seed_replies env) tracker_id w))
      as [seed|e] eqn:Es.
    + destruct (collect_pages_ok url tracker_id env w seed hrefs _ Es Hp
                  (select_links_filter hrefs Hall)) as (Hres & _).
      destruct (collect_pages url tracker_id env w) as [w2 r2].
      cbn [snd] in Hres. subst r2.
      destruct (finish_crawl url job_id tracker_id _ _ w2) as [w3 r].
      by exists r.
    + pose proof (get_markdown_content_returns url (seed_replies env) tracker_id w)
        as Hret.
      rewrite Es in Hret. unfold should_skip_url in Hret.
      unfold urlparse_accepts in Hacc.
      by destruct (urlparse_error url).
Qed.

(** The counts of the response of a crawl that is the only writer of
    the record of its job, when the archive can be written. *)
Lemma isolated_counts_add_up (url job_id : pystr) (env : environment)
  (w : world) (links : list pystr) (results : list (pystr * pystr))
  (r : ScrapeResponse.t) :
  let tracker_id := str_of_Z (py_hash url) in
  progress_tracker w !! tracker_id = None →
  any_order env →
  snd (collect_pages url tracker_id env w) = Ok (links, results) →
  writable job_id results →
  snd (scrape_url url job_id env w) = Ok r →
  (0 ≤ ScrapeResponse.successful r ∧ 0 ≤ ScrapeResponse.failed r ∧
   ScrapeResponse.skipped r = (if matches_skip_pattern url then 1 else 0) ∧
   ScrapeResponse.successful r + ScrapeResponse.skipped r +
   ScrapeResponse.failed r = Z.of_nat (length (ScrapeResponse.links r)))%Z.
Proof.
  intros tracker_id Hfresh Hany Hpages Hcan. unfold scrape_url, crawl.
  fold tracker_id.
  destruct (collect_pages_ok_inv url tracker_id env w links results Hpages)
    as (seed & hrefs & Hs & Hp & Hl).
  destruct (collect_pages_ok url tracker_id env w seed hrefs links Hs Hp Hl)
    as (Hres & _ & Hcounts).
  destruct (collect_pages url tracker_id env w) as [w2 r2].
  cbn [fst snd] in Hpages, Hres, Hcounts. subst r2.
  apply Ok_inj, pair_equal_spec in Hres as [_ ->].
  destruct (Hcounts Hany) as [Hsk Hfl].
  destruct (seed_counts url tracker_id (seed_replies env) w seed Hfresh Hs)
    as (Hsk1 & Ha & Hf1 & Hsum).
  set (pairs := map (link_pair env) (enumerate links)) in *.
  assert (Harch : Forall archivable (seed :: pairs)).
  { constructor;
      [by eapply get_markdown_content_archivable|].
    subst pairs. apply Forall_map, Forall_forall. intros t _.
    apply fetched_pair_archivable. }
  assert (Hle : length (survivors pairs) ≤ length links).
  { unfold survivors. etrans; [apply List.filter_length_le|].
    subst pairs. by rewrite length_map, length_enumerate. }
  destruct (create_zip_file_counts (seed :: pairs) job_id tracker_id w2 Hcan)
    as (_ & (Hsucc & Hskip3 & Hfail3) & _).
  rewrite (rejected_archivable _ Harch) in Hfail3.
  change (seed :: pairs) with ([seed] ++ pairs) in Hsucc.
  rewrite survivors_app, length_app in Hsucc.
  change ([seed] ++ pairs) with (seed :: pairs) in Hsucc.
  unfold finish_crawl.
  destruct (create_zip_file (seed :: pairs) job_id tracker_id w2)
    as [w3 [zip_path|e]]; cbn [fst snd] in *; intros [= <-];
    cbn [ScrapeResponse.links ScrapeResponse.successful ScrapeResponse.skipped
         ScrapeResponse.failed length].
  - change (record_of tracker_id (register_result job_id zip_path w3))
      with (record_of tracker_id w3).
    cbn [length] in *. lia.
  - cbn [length] in *. lia.
Qed.

(** X17: when the archive of the pairs a crawl has gathered can be
    written ([open] raises no [OSError] and no text holds a lone
    surrogate), the job of the response is registered for download
    exactly when the response counts a success. Then [download_results]
    answers with the archive [<tmp>/<job id>.zip] under the name
    [scraped-content-<job id>.zip], the archive is on disk and the job's
    working directory is gone; with no success counted, the archives on
    disk are the ones there were. *)
Theorem counted_success_can_be_downloaded (url job_id : pystr)
  (env : environment) (w : world) (links : list pystr)
  (results : list (pystr * pystr)) (r : ScrapeResponse.t) :
  snd (collect_pages url (str_of_Z (py_hash url)) env w) = Ok (links, results) →
  writable job_id results →
  snd (scrape_url url job_id env w) = Ok r →
  let w' := fst (scrape_url url job_id env w) in
  let zip_path := gettempdir ++ py "/" ++ job_id ++ py ".zip" in
  results_tracker w' =
    (if (0 <? ScrapeResponse.successful r)%Z
     then <[job_id := zip_path]> (results_tracker w)
     else results_tracker w) ∧
  ((0 < ScrapeResponse.successful r)%Z →
   download_results job_id w' =
     Ok (zip_path, py "scraped-content-" ++ job_id ++ py ".zip") ∧
   is_Some (zips (fs w') !! job_id) ∧ dirs (fs w') !! job_id = None) ∧
  ((ScrapeResponse.successful r = 0)%Z → zips (fs w') = zips (fs w)).
Proof.
  intros Hpages Hcan. cbn zeta. unfold scrape_url, crawl.
  set (tracker_id := str_of_Z (py_hash url)) in *.
  destruct (get_markdown_content_evolves url (seed_replies env) tracker_id w)
    as (ms0 & Hev0 & _).
  destruct (collect_pages_trace url tracker_id env w) as (ms1 & Hev1 & _).
  apply evolves_spec in Hev0 as (_ & _ & Hr0 & _).
  apply evolves_spec in Hev1 as (_ & _ & Hr1 & _).
  destruct (collect_pages_ok_inv url tracker_id env w links results Hpages)
    as (seed & hrefs & Hs & Hp & Hl).
  destruct (collect_pages_ok url tracker_id env w seed hrefs links Hs Hp Hl)
    as (_ & Hfs & _).
  destruct (collect_pages url tracker_id env w) as [w2 r2].
  cbn [fst snd] in Hpages, Hfs, Hr1. subst r2.
  destruct (create_zip_file_evolves results job_id tracker_id w2)
    as (ms2 & Hev2 & _).
  apply evolves_spec in Hev2 as (_ & _ & Hr2 & _).
  destruct (create_zip_file_counts results job_id tracker_id w2 Hcan)
    as (Hsnd & (Hsucc & _ & _) & Hdisk).
  unfold finish_crawl.
  destruct (create_zip_file results job_id tracker_id w2) as [w3 r3].
  cbn [fst snd] in *. subst r3.
  destruct (length (survivors results)) as [|n] eqn:En; cbn [Nat.eqb] in *.
  - intros [= <-]. cbn [ScrapeResponse.successful fst]. rewrite Hsucc.
    cbn [Z.of_nat Z.ltb Z.compare]. split; [cbn; by rewrite Hr2, Hr1, Hr0|].
    split; [lia|]. intros _. cbn. by rewrite Hdisk, Hfs.
  - intros [= <-].
    assert (Hrec : ∀ p, record_of tracker_id (register_result job_id p w3) =
                        record_of tracker_id w3) by reflexivity.
    cbn [ScrapeResponse.successful fst]. rewrite Hrec, Hsucc.
    assert (Hpos : (0 <? Z.of_nat (S n))%Z = true) by (apply Z.ltb_lt; lia).
    rewrite Hpos. split; [cbn; by rewrite Hr2, Hr1, Hr0|].
    split; [|lia]. intros _. split; [|exact Hdisk].
    unfold download_results. cbn [results_tracker delete_progress register_result].
    by rewrite lookup_insert_eq.
Qed.

End CrawlResponse.

Lemma scrape_url_fails_with_500_witness :
  snd (@scrape_url example_runtime example_url (py "job-1") env_unreachable
         empty_world) =
    Raise (HTTPException 500 (py "Error scraping URL: connection refused")) ∧
  fs (fst (@scrape_url example_runtime example_url (py "job-1") env_unreachable
             empty_world)) = fs empty_world.
Proof.
  assert (Hraise :
    snd (@scrape_url example_runtime example_url (py "job-1") env_unreachable
           empty_world) =
    Raise (HTTPException 500 (py "Error scraping URL: connection refused")))
    by (by vm_compute).
  split; [exact Hraise|].
  exact (proj2 (proj2 (@scrape_url_fails_with_500 example_runtime example_url
                         (py "job-1") env_unreachable empty_world _ Hraise))).
Defined.

(** With the example runtime every [open] succeeds, so a list of pairs
    is writable when its texts can be encoded. *)
Lemma example_writable (job_id : pystr) (contents : list (pystr * pystr)) :
  forallb (λ item, match @write_error example_runtime job_id
                           (fst (@entry_of example_runtime item))
                           (snd (@entry_of example_runtime item)) with
                   | None => true
                   | Some _ => false
                   end) (survivors contents) = true →
  @writable example_runtime job_id contents.
Proof.
  intros Hall. split; [|done]. apply List.Forall_forall. intros item Hin.
  rewrite forallb_forall in Hall. specialize (Hall item Hin).
  by destruct (write_error _ _ _).
Qed.

Lemma env_links_pages :
  snd (@collect_pages example_runtime example_url
         (str_of_Z (example_hash example_url)) env_links empty_world) =
    Ok (List.filter (@kept_link example_runtime) seed_hrefs, env_links_results).
Proof. by vm_compute. Qed.

Lemma env_links_writable : @writable example_runtime (py "job-1") env_links_results.
Proof. apply example_writable. by vm_compute. Qed.

Lemma counted_success_can_be_downloaded_witness :
  snd (@scrape_url example_runtime example_url (py "job-1") env_links
         empty_world) = Ok env_links_response ∧
  @download_results (py "job-1")
    (fst (@scrape_url example_runtime example_url (py "job-1") env_links
            empty_world)) =
    Ok (@gettempdir example_runtime ++ py "/" ++ py "job-1" ++ py ".zip",
        py "scraped-content-" ++ py "job-1" ++ py ".zip").
Proof.
  assert (Hok : snd (@scrape_url example_runtime example_url (py "job-1")
                       env_links empty_world) = Ok env_links_response)
    by (by vm_compute).
  split; [exact Hok|].
  destruct (@counted_success_can_be_downloaded example_runtime example_url
              (py "job-1") env_links empty_world _ _ env_links_response
              env_links_pages env_links_writable Hok)
    as (_ & Hdownload & _).
  apply Hdownload. reflexivity.
Defined.

(** ** The progress stream *)

Lemma record_of_touch (tracker_id : pystr) (w : world) :
  record_of tracker_id (touch_progress tracker_id w) = record_of tracker_id w.
Proof.
  unfold touch_progress, record_of.
  destruct (progress_tracker w !! tracker_id) eqn:E; [by rewrite E|].
  cbn. by rewrite lookup_insert_eq.
Qed.

Lemma touch_progress_unknown (tracker_id : pystr) (w : world) :
  progress_tracker w !! tracker_id = None →
  progress_tracker (touch_progress tracker_id w) =
    <[tracker_id := default_progress]> (progress_tracker w).
Proof. intros Hnone. unfold touch_progress. by rewrite Hnone. Qed.

Lemma progress_generator_unknown (tracker_id : pystr)
  (between : list (world → world)) (w : world) :
  progress_tracker w !! tracker_id = None →
  progress_generator tracker_id between w =
    (touch_progress tracker_id w, [blank_event], true).
Proof.
  intros Hnone.
  assert (Hrec : record_of tracker_id (touch_progress tracker_id w) =
                 default_progress)
    by (by rewrite record_of_touch, record_of_fresh).
  destruct between; cbn [progress_generator]; cbn zeta; rewrite Hrec; reflexivity.
Qed.

(** X18: the events of a progress stream. Every event but the last is
    sent while [processed < total] and reports the potential successes.
    The generator returns at the first read that finds [processed] at or
    above [total], after one more event, which reports the confirmed
    successes; as long as it has not returned it has sent one event for
    each time it was resumed. After any read the job has a record. *)
Theorem progress_stream_shape (tracker_id : pystr) (between : list (world → world)) :
  ∀ w w' events finished,
    progress_generator tracker_id between w = (w', events, finished) →
    ∃ earlier last,
      events = earlier ++ [last] ∧
      Forall (λ e, (sse_processed e < sse_total e)%Z) earlier ∧
      length earlier ≤ length between ∧
      is_Some (progress_tracker w' !! tracker_id) ∧
      last = event_of (record_of tracker_id w') finished ∧
      if finished
      then (sse_total last ≤ sse_processed last)%Z
      else (sse_processed last < sse_total last)%Z ∧
           length earlier = length between.
Proof.
  assert (Hsome : ∀ w, is_Some (progress_tracker (touch_progress tracker_id w)
                                  !! tracker_id)).
  { intros w. unfold touch_progress.
    destruct (progress_tracker w !! tracker_id) eqn:E; [by rewrite E|].
    cbn. by rewrite lookup_insert_eq. }
  induction between as [|others rest IH]; intros w w' events finished;
    cbn [progress_generator]; cbn zeta;
    destruct (Z.ltb_spec (processed (record_of tracker_id
                                       (touch_progress tracker_id w)))
                (total (record_of tracker_id (touch_progress tracker_id w))))
      as [Hlt|Hge].
  - intros [= <- <- <-]. eexists [], _. split; [done|]. split; [constructor|].
    split; [done|]. split; [apply Hsome|]. split; [done|]. by split.
  - intros [= <- <- <-]. eexists [], _. split; [done|]. split; [constructor|].
    split; [simpl; lia|]. split; [apply Hsome|]. by split.
  - destruct (progress_generator tracker_id rest _) as [[w1 events1] finished1]
      eqn:Erun.
    intros [= <- <- <-].
    destruct (IH _ _ _ _ Erun) as (earlier & last & -> & Hall & Hlen & Hrec & Hlast).
    exists (event_of (record_of tracker_id (touch_progress tracker_id w)) false
              :: earlier), last.
    split; [done|]. split; [by constructor|]. split; [simpl; lia|].
    split; [done|]. destruct Hlast as [Hlast Hfin]. split; [done|].
    destruct finished1; [done|]. destruct Hfin as [Hfin Hn].
    split; [done|]. simpl. lia.
  - intros [= <- <- <-]. eexists [], _. split; [done|]. split; [constructor|].
    split; [simpl; lia|]. split; [apply Hsome|]. by split.
Qed.

(** X19: a progress stream opened for a job that has no record sends one
    event, with every count at zero and an empty current URL, and returns;
    and the read has created the record of the job. *)
Theorem progress_stream_of_unknown_job (tracker_id : pystr)
  (between : list (world → world)) (w : world) :
  progress_tracker w !! tracker_id = None →
  ∃ w',
    progress_generator tracker_id between w = (w', [blank_event], true) ∧
    progress_tracker w' = <[tracker_id := default_progress]> (progress_tracker w) ∧
    results_tracker w' = results_tracker w ∧ fs w' = fs w.
Proof.
  intros Hnone. exists (touch_progress tracker_id w).
  split; [by apply progress_generator_unknown|].
  split; [by apply touch_progress_unknown|].
  unfold touch_progress. by rewrite Hnone.
Qed.

Lemma progress_stream_shape_witness :
  ∃ w' earlier last,
    progress_generator example_tracker [fetch_the_rest] world_one_of_three =
      (w', earlier ++ [last], true) ∧
    length earlier ≤ 1 ∧
    (sse_total last ≤ sse_processed last)%Z.
Proof.
  destruct (progress_generator example_tracker [fetch_the_rest] world_one_of_three)
    as [[w' events] finished] eqn:Erun.
  assert (Hfin : finished = true).
  { apply (f_equal snd) in Erun. vm_compute in Erun. by symmetry. }
  destruct (progress_stream_shape example_tracker [fetch_the_rest]
              world_one_of_three w' events finished Erun)
    as (earlier & last & -> & _ & Hlen & _ & _ & Hlast).
  subst finished. by exists w', earlier, last.
Defined.

Lemma progress_stream_of_unknown_job_witness :
  progress_tracker empty_world !! example_tracker = None ∧
  ∃ w', progress_generator example_tracker [fetch_the_rest] empty_world =
          (w', [blank_event], true).
Proof.
  assert (Hnone : progress_tracker empty_world !! example_tracker = None) by done.
  split; [exact Hnone|].
  destruct (progress_stream_of_unknown_job example_tracker [fetch_the_rest]
              empty_world Hnone) as (w' & Hrun & _).
  by exists w'.
Defined.

Section StreamAfterCrawl.
Context `{PyRuntime}.

Lemma scrape_url_record_gone (url job_id : pystr) (env : environment) (w : world) :
  progress_tracker (fst (scrape_url url job_id env w)) !! str_of_Z (py_hash url) = None.
Proof.
  unfold scrape_url, crawl, finish_crawl.
  set (tracker_id := str_of_Z (py_hash url)).
  destruct (collect_pages url tracker_id env w) as [w2 [[links results]|e]].
  - destruct (create_zip_file results job_id tracker_id w2)
      as [w3 [zip_path|e]]; cbn; by rewrite lookup_delete_eq.
  - cbn [fst].
    destruct (decide (is_Some (progress_tracker w2 !! tracker_id))) as [|Hn].
    + cbn. by rewrite lookup_delete_eq.
    + by apply eq_None_not_Some.
Qed.

(** X20: a progress stream opened for a URL once its crawl has ended,
    with a response or with an error, tells nothing of the crawl: it
    sends the one event with every count at zero and returns. The counts
    of the crawl are in the response alone. *)
Theorem progress_stream_after_crawl (url job_id : pystr) (env : environment)
  (w : world) (between : list (world → world)) :
  let w1 := fst (scrape_url url job_id env w) in
  scrape_progress url between w1 =
    (touch_progress (str_of_Z (py_hash url)) w1, [blank_event], true).
Proof.
  intros w1. unfold scrape_progress.
  apply progress_generator_unknown, scrape_url_record_gone.
Qed.

End StreamAfterCrawl.

(** ** Titles and file names *)

Lemma lstrip_with_take f (n : nat) (s : pystr) :
  lstrip_with f s = s → lstrip_with f (firstn n s) = firstn n s.
Proof.
  destruct s as [|c s]; [by destruct n|]. intros Hs%lstrip_with_fixed.
  destruct n; [done|]. simpl. by rewrite Hs.
Qed.

Lemma lstrip_strip_with f (s : pystr) :
  lstrip_with f (strip_with f s) = strip_with f s.
Proof. unfold strip_with. apply lstrip_rstrip_fixed, lstrip_with_idem. Qed.

Lemma find_h1_title_nonempty (lines : list pystr) (title : pystr) :
  find_h1_title lines = Some title → title ≠ [].
Proof.
  induction lines as [|raw rest IH]; [done|]. cbn [find_h1_title]. cbn zeta.
  destruct (negb (nonempty (strip raw))); [done|].
  destruct (startswith_any title_skip_prefixes (strip raw)); [done|].
  destruct (startswith (py "# ") (strip raw) && (2 <? length (strip raw))).
  - destruct (nonempty (clean_title (strip (skipn 2 (strip raw)))) &&
              (3 <? length (clean_title (strip (skipn 2 (strip raw)))))) eqn:Eh.
    + intros [= <-]. apply andb_true_iff in Eh as [Hn _].
      by destruct (clean_title _).
    + destruct (startswith (py "Title:") (strip raw) && (7 <? length (strip raw)));
        [|done].
      destruct (nonempty (strip (skipn 6 (strip raw)))) eqn:Et; [|done].
      intros [= <-]. by destruct (strip _).
  - destruct (startswith (py "Title:") (strip raw) && (7 <? length (strip raw)));
      [|done].
    destruct (nonempty (strip (skipn 6 (strip raw)))) eqn:Et; [|done].
    intros [= <-]. by destruct (strip _).
Qed.

Lemma find_h2_title_long (lines : list pystr) (title : pystr) :
  find_h2_title lines = Some title → 3 < length title.
Proof.
  induction lines as [|raw rest IH]; [done|]. cbn [find_h2_title]. cbn zeta.
  destruct (startswith (py "## ") (strip raw) && (3 <? length (strip raw)));
    [|done].
  destruct (nonempty (clean_title (strip (skipn 3 (strip raw)))) &&
            (3 <? length (clean_title (strip (skipn 3 (strip raw)))))) eqn:Eh;
    [|done].
  intros [= <-]. apply andb_true_iff in Eh as [_ Hl]. by apply Nat.ltb_lt in Hl.
Qed.

Section Titles.
Context `{PyRuntime}.

(** X21: a title that [extract_title_from_content] returns is never the
    empty string, and comes from a content that is not empty; so the
    archive builder names a file by the bare URL hash only when no title
    was found, and otherwise by a stem, an underscore and up to eight
    digits of the hash. *)
Theorem extracted_title_nonempty (content title url : pystr) (max_length : nat) :
  extract_title_from_content content = Some title →
  title ≠ [] ∧ content ≠ [] ∧
  ∃ stem,
    create_safe_filename (Some title) url max_length =
      stem ++ py "_" ++ firstn 8 (str_of_Z (Z.abs (py_hash url))) ++ py ".md" ∧
    stem ≠ [].
Proof.
  unfold extract_title_from_content.
  destruct content as [|c content]; [done|]. cbn [nonempty negb].
  intros Htitle.
  assert (Hne : title ≠ []).
  { destruct (find_h1_title _) as [t|] eqn:E1.
    - injection Htitle as <-. by eapply find_h1_title_nonempty.
    - apply find_h2_title_long in Htitle. destruct title; [simpl in Htitle; lia|done]. }
  split; [done|]. split; [done|].
  destruct title as [|a title]; [done|]. unfold create_safe_filename.
  destruct (if max_length <? length (safe_chars_of (a :: title))
            then rstrip_with is_hyphen (firstn max_length (safe_chars_of (a :: title)))
            else safe_chars_of (a :: title)) as [|s stem].
  - exists (py "untitled"). by split.
  - exists (s :: stem). by split.
Qed.

(** X22: the stem of a file name made from a title, when it is not
    [untitled], is a prefix of the cleaned title of at most [max_length]
    characters that neither starts nor ends with a hyphen. *)
Theorem titled_filename_stem (title url : pystr) (max_length : nat) :
  title ≠ [] →
  ∃ stem,
    create_safe_filename (Some title) url max_length =
      stem ++ py "_" ++ firstn 8 (str_of_Z (Z.abs (py_hash url))) ++ py ".md" ∧
    (stem = py "untitled" ∨
     (stem ≠ [] ∧ length stem ≤ max_length ∧
      strip_with is_hyphen stem = stem ∧
      ∃ rest, safe_chars_of title = stem ++ rest)).
Proof.
  intros Hne. destruct title as [|a title]; [done|]. unfold create_safe_filename.
  pose proof (truncated_length max_length (safe_chars_of (a :: title))) as Hlen.
  assert (Hstem :
    let stem := if max_length <? length (safe_chars_of (a :: title))
                then rstrip_with is_hyphen
                       (firstn max_length (safe_chars_of (a :: title)))
                else safe_chars_of (a :: title) in
    strip_with is_hyphen stem = stem ∧
    ∃ rest, safe_chars_of (a :: title) = stem ++ rest).
  { cbn zeta. destruct (max_length <? length (safe_chars_of (a :: title))).
    - split.
      + unfold strip_with at 1.
        rewrite lstrip_rstrip_fixed, rstrip_with_idem; [done|].
        apply lstrip_with_take. unfold safe_chars_of. apply lstrip_strip_with.
      + destruct (rstrip_with_prefix is_hyphen
                    (firstn max_length (safe_chars_of (a :: title)))) as [d Hd].
        exists (d ++ skipn max_length (safe_chars_of (a :: title))).
        rewrite app_assoc, <- Hd. by rewrite firstn_skipn.
    - split.
      + unfold safe_chars_of. apply strip_with_idem.
      + exists []. by rewrite app_nil_r. }
  cbn zeta in Hstem.
  destruct (if max_length <? length (safe_chars_of (a :: title))
            then rstrip_with is_hyphen (firstn max_length (safe_chars_of (a :: title)))
            else safe_chars_of (a :: title)) as [|s stem].
  - exists (py "untitled"). split; [done|by left].
  - exists (s :: stem). split; [done|]. right. split; [done|].
    split; [exact Hlen|exact Hstem].
Qed.

End Titles.

Lemma extracted_title_nonempty_witness :
  @extract_title_from_content valid_page = Some (py "A heading for the page") ∧
  py "A heading for the page" ≠ [].
Proof.
  assert (Htitle : @extract_title_from_content valid_page =
                   Some (py "A heading for the page")) by (by vm_compute).
  split; [exact Htitle|].
  exact (proj1 (@extracted_title_nonempty example_runtime valid_page
                  (py "A heading for the page") example_url 100 Htitle)).
Defined.

Lemma titled_filename_stem_witness :
  long_title ≠ [] ∧
  ∃ stem,
    @create_safe_filename example_runtime (Some long_title) example_url 100 =
      stem ++ py "_" ++
      firstn 8 (str_of_Z (Z.abs (example_hash example_url))) ++ py ".md" ∧
    (stem = py "untitled" ∨
     (stem ≠ [] ∧ length stem ≤ 100 ∧ strip_with is_hyphen stem = stem ∧
      ∃ rest, @safe_chars_of example_runtime long_title = stem ++ rest)).
Proof.
  assert (Hne : long_title ≠ []) by (by vm_compute).
  split; [exact Hne|].
  exact (@titled_filename_stem example_runtime long_title example_url 100 Hne).
Defined.

(** * Crawls among the other tasks of the event loop (C1) *)

Lemma same_record_refl (tracker_id : pystr) (w : world) :
  same_record tracker_id w w.
Proof. by split. Qed.

Lemma same_record_sym (tracker_id : pystr) (w1 w2 : world) :
  same_record tracker_id w1 w2 → same_record tracker_id w2 w1.
Proof. intros [Hr Hs]. by split. Qed.

Lemma same_record_trans (tracker_id : pystr) (w1 w2 w3 : world) :
  same_record tracker_id w1 w2 → same_record tracker_id w2 w3 →
  same_record tracker_id w1 w3.
Proof. intros [Hr1 Hs1] [Hr2 Hs2]. split; congruence. Qed.

Lemma same_record_emit (tracker_id : pystr) (es : list effect) (w : world) :
  same_record tracker_id (emit es w) w.
Proof. by split. Qed.

Lemma same_record_with_fs (tracker_id : pystr) f (w : world) :
  same_record tracker_id (with_fs f w) w.
Proof. by split. Qed.

Lemma same_record_register (tracker_id job_id zip_path : pystr) (w : world) :
  same_record tracker_id (register_result job_id zip_path w) w.
Proof. by split. Qed.

Lemma same_record_update (tracker_id : pystr) (m : mutation) (w1 w2 : world) :
  same_record tracker_id w1 w2 →
  same_record tracker_id (update_progress tracker_id m w1)
    (update_progress tracker_id m w2).
Proof.
  intros [Hr Hs]. split; [by rewrite !record_of_update, Hr|].
  unfold job_snapshots in *. cbn [snapshots update_progress].
  rewrite !List.filter_app, !map_app, Hs, Hr. done.
Qed.

Lemma same_record_other (tracker_id other : pystr) (m : mutation) (w : world) :
  other ≠ tracker_id →
  same_record tracker_id (update_progress other m w) w.
Proof.
  intros Hne. split.
  - unfold record_of. cbn. by rewrite lookup_insert_ne.
  - unfold job_snapshots. cbn [snapshots update_progress].
    rewrite List.filter_app, map_app. cbn [List.filter fst].
    rewrite bool_decide_eq_false_2 by done. cbn. by rewrite app_nil_r.
Qed.

Lemma same_record_cleanup (tracker_id : pystr) (w1 w2 : world) :
  same_record tracker_id w1 w2 →
  same_record tracker_id
    (if decide (is_Some (progress_tracker w1 !! tracker_id))
     then delete_progress tracker_id w1 else w1)
    (if decide (is_Some (progress_tracker w2 !! tracker_id))
     then delete_progress tracker_id w2 else w2).
Proof.
  intros [_ Hs].
  assert (Hgone : ∀ w,
    record_of tracker_id
      (if decide (is_Some (progress_tracker w !! tracker_id))
       then delete_progress tracker_id w else w) = default_progress ∧
    job_snapshots tracker_id
      (if decide (is_Some (progress_tracker w !! tracker_id))
       then delete_progress tracker_id w else w) = job_snapshots tracker_id w).
  { intros w. destruct (decide _) as [|Hn]; (split; [|done]); unfold record_of.
    - cbn. by rewrite lookup_delete_eq.
    - apply eq_None_not_Some in Hn. by rewrite Hn. }
  destruct (Hgone w1) as [Hr1 Hs1]. destruct (Hgone w2) as [Hr2 Hs2].
  split; [by rewrite Hr1, Hr2|by rewrite Hs1, Hs2].
Qed.

Lemma same_record_delete (tracker_id : pystr) (w1 w2 : world) :
  same_record tracker_id w1 w2 →
  same_record tracker_id (delete_progress tracker_id w1)
    (delete_progress tracker_id w2).
Proof.
  intros [_ Hs]. split; [|done]. unfold record_of. cbn.
  by rewrite !lookup_delete_eq.
Qed.


Section Simulation.
Context `{PyRuntime}.
Variable meanwhile : world → world.
Variable tracker_id : pystr.
Hypothesis Hquiet : quiet_for tracker_id meanwhile.

Lemma suspend_same_record (e : effect) (w : world) :
  same_record tracker_id (suspend meanwhile e w) w.
Proof.
  unfold suspend. eapply same_record_trans; [apply Hquiet|apply same_record_emit].
Qed.

Lemma suspend_fold_same_record (es : list effect) :
  ∀ w, same_record tracker_id (fold_left (λ w e, suspend meanwhile e w) es w) w.
Proof.
  induction es as [|e es IH]; intros w; [apply same_record_refl|].
  cbn [fold_left]. eapply same_record_trans; [apply IH|apply suspend_same_record].
Qed.

Lemma begin_fetch_sim (url : pystr) (a i : world) :
  same_record tracker_id a i →
  same_record tracker_id (fst (begin_fetch url tracker_id a))
    (fst (begin_fetch url tracker_id i)) ∧
  snd (begin_fetch url tracker_id a) = snd (begin_fetch url tracker_id i).
Proof.
  intros Hai. unfold begin_fetch.
  destruct (should_skip_url url) as [[|]|e]; cbn [fst snd]; (split; [|done]);
    by repeat apply same_record_update.
Qed.

Lemma end_fetch_sim (url : pystr) (replies : nat → response) (a i : world) :
  same_record tracker_id a i →
  same_record tracker_id (end_fetch_among meanwhile url replies tracker_id a)
    (end_fetch url replies tracker_id i).
Proof.
  intros Hai. unfold end_fetch_among, end_fetch.
  assert (Hnet : same_record tracker_id
            (fold_left (λ w e, suspend meanwhile e w)
               (fst (network_phase url replies)) a)
            (emit (fst (network_phase url replies)) i)).
  { eapply same_record_trans; [apply suspend_fold_same_record|].
    eapply same_record_trans; [exact Hai|].
    apply same_record_sym, same_record_emit. }
  destruct (snd (network_phase url replies)); by repeat apply same_record_update.
Qed.

Lemma get_markdown_content_sim (url : pystr) (replies : nat → response)
  (a i : world) :
  same_record tracker_id a i →
  same_record tracker_id
    (fst (get_markdown_content_among meanwhile url replies tracker_id a))
    (fst (get_markdown_content url replies tracker_id i)) ∧
  snd (get_markdown_content_among meanwhile url replies tracker_id a) =
  snd (get_markdown_content url replies tracker_id i).
Proof.
  intros Hai. unfold get_markdown_content_among, get_markdown_content.
  destruct (begin_fetch_sim url a i Hai) as [Hw Hs].
  destruct (begin_fetch url tracker_id a) as [a1 s1].
  destruct (begin_fetch url tracker_id i) as [i1 s2].
  cbn [fst snd] in *. subst s1. destruct s2 as [r|]; cbn [fst snd]; [done|].
  split; [by apply end_fetch_sim|done].
Qed.

Lemma start_tasks_sim (batch : list (nat * pystr)) :
  ∀ a i, same_record tracker_id a i →
    same_record tracker_id (fst (start_tasks_among meanwhile batch tracker_id a))
      (fst (start_tasks batch tracker_id i)) ∧
    snd (start_tasks_among meanwhile batch tracker_id a) =
    snd (start_tasks batch tracker_id i).
Proof.
  induction batch as [|[n link] rest IH]; intros a i Hai; [done|].
  cbn [start_tasks_among start_tasks].
  assert (Hmi : same_record tracker_id (meanwhile a) i)
    by (eapply same_record_trans; [apply Hquiet|exact Hai]).
  destruct (begin_fetch_sim link _ _ Hmi) as [Hw Hs].
  destruct (begin_fetch link tracker_id (meanwhile a)) as [a1 s1].
  destruct (begin_fetch link tracker_id i) as [i1 s2].
  cbn [fst snd] in *. subst s1.
  destruct (IH a1 i1 Hw) as [Hw2 Hs2].
  destruct (start_tasks_among meanwhile rest tracker_id a1) as [a2 ss1].
  destruct (start_tasks rest tracker_id i1) as [i2 ss2].
  cbn [fst snd] in *. by subst ss1.
Qed.

Lemma finish_tasks_sim (env : environment) (order : list (nat * pystr)) :
  ∀ a i, same_record tracker_id a i →
    same_record tracker_id (finish_tasks_among meanwhile order env tracker_id a)
      (finish_tasks order env tracker_id i).
Proof.
  unfold finish_tasks_among, finish_tasks.
  induction order as [|t order IH]; intros a i Hai; [done|].
  cbn [fold_left]. apply IH.
  eapply same_record_trans; [apply Hquiet|by apply end_fetch_sim].
Qed.

Lemma gather_sim (env : environment) (batch : list (nat * pystr)) (a i : world) :
  same_record tracker_id a i →
  same_record tracker_id (fst (gather_among meanwhile batch env tracker_id a))
    (fst (gather batch env tracker_id i)) ∧
  snd (gather_among meanwhile batch env tracker_id a) =
  snd (gather batch env tracker_id i).
Proof.
  intros Hai. unfold gather_among, gather.
  destruct (start_tasks_sim batch a i Hai) as [Hw Hs].
  destruct (start_tasks_among meanwhile batch tracker_id a) as [a1 ts1].
  destruct (start_tasks batch tracker_id i) as [i1 ts2].
  cbn [fst snd] in *. subst ts1. split; [by apply finish_tasks_sim|done].
Qed.

Lemma run_batches_sim (env : environment) (fuel : nat) :
  ∀ remaining results a i, same_record tracker_id a i →
    same_record tracker_id
      (fst (run_batches_among meanwhile fuel remaining env tracker_id results a))
      (fst (run_batches fuel remaining env tracker_id results i)) ∧
    snd (run_batches_among meanwhile fuel remaining env tracker_id results a) =
    snd (run_batches fuel remaining env tracker_id results i).
Proof.
  induction fuel as [|fuel IH]; intros remaining results a i Hai.
  { by destruct remaining. }
  destruct remaining as [|t remaining]; [done|].
  cbn [run_batches_among run_batches]. cbn zeta.
  destruct (gather_sim env (firstn batch_size (t :: remaining)) a i Hai)
    as [Hw Hs].
  destruct (gather_among meanwhile (firstn batch_size (t :: remaining)) env
              tracker_id a) as [a1 r1].
  destruct (gather (firstn batch_size (t :: remaining)) env tracker_id i)
    as [i1 r2].
  cbn [fst snd] in *. subst r1. destruct r2 as [batch_results|e]; [|done].
  apply IH. destruct (skipn batch_size (t :: remaining)); [done|].
  eapply same_record_trans; [apply suspend_same_record|].
  eapply same_record_trans; [exact Hw|]. apply same_record_sym, same_record_emit.
Qed.

Lemma collect_pages_sim (url : pystr) (env : environment) (a i : world) :
  same_record tracker_id a i →
  same_record tracker_id (fst (collect_pages_among meanwhile url tracker_id env a))
    (fst (collect_pages url tracker_id env i)) ∧
  snd (collect_pages_among meanwhile url tracker_id env a) =
  snd (collect_pages url tracker_id env i).
Proof.
  intros Hai. unfold collect_pages_among, collect_pages.
  destruct (get_markdown_content_sim url (seed_replies env) a i Hai) as [Hw Hs].
  destruct (get_markdown_content_among meanwhile url (seed_replies env)
              tracker_id a) as [a1 r1].
  destruct (get_markdown_content url (seed_replies env) tracker_id i) as [i1 r2].
  cbn [fst snd] in *. subst r1. destruct r2 as [seed|e]; [|done].
  assert (Hget : same_record tracker_id (suspend meanwhile (ClientGet url 30) a1)
                   (emit [ClientGet url 30] i1)).
  { eapply same_record_trans; [apply suspend_same_record|].
    eapply same_record_trans; [exact Hw|].
    apply same_record_sym, same_record_emit. }
  destruct (seed_page env) as [hrefs|e]; [|done].
  destruct (select_links hrefs) as [links|e]; [|done].
  set (a2 := update_progress tracker_id (SetProcessed 1)
               (update_progress tracker_id
                  (SetTotal (Z.of_nat (length links) + 1))
                  (suspend meanwhile (ClientGet url 30) a1))).
  set (i2 := update_progress tracker_id (SetProcessed 1)
               (update_progress tracker_id
                  (SetTotal (Z.of_nat (length links) + 1))
                  (emit [ClientGet url 30] i1))).
  destruct (run_batches_sim env (length links) (enumerate links) [seed] a2 i2)
    as [Hw3 Hs3]; [by repeat apply same_record_update|].
  destruct (run_batches_among meanwhile (length links) (enumerate links)
              env tracker_id [seed] a2) as [a3 r3].
  destruct (run_batches (length links) (enumerate links) env tracker_id
              [seed] i2) as [i3 r4].
  cbn [fst snd] in *. subst r3. by destruct r4.
Qed.

Lemma write_file_snd (job_id name text : pystr) (f1 f2 : filesystem) :
  snd (write_file job_id name text f1) = snd (write_file job_id name text f2).
Proof.
  unfold write_file. destruct (os_error _); [done|]. by destruct (encode_error text).
Qed.

Lemma write_entries_sim (job_id : pystr) (contents : list (pystr * pystr)) :
  ∀ file_count a i, same_record tracker_id a i →
    same_record tracker_id
      (fst (write_entries contents job_id tracker_id file_count a))
      (fst (write_entries contents job_id tracker_id file_count i)) ∧
    snd (write_entries contents job_id tracker_id file_count a) =
    snd (write_entries contents job_id tracker_id file_count i).
Proof.
  induction contents as [|[url content] rest IH]; intros file_count a i Hai;
    [done|].
  cbn [write_entries].
  destruct (nonempty content); cbn [negb]; [|by apply IH].
  destruct (archive_rejects content); [by apply IH, same_record_update|].
  pose proof (write_file_snd job_id
                (create_safe_filename (extract_title_from_content content) url 100)
                (py "# Original URL: " ++ url ++ [NL; NL] ++ content)
                (fs a) (fs i)) as Hsnd.
  destruct (write_file job_id _ _ (fs a)) as [f1 r1].
  destruct (write_file job_id _ _ (fs i)) as [f2 r2].
  cbn [snd] in Hsnd. subst r1.
  assert (Hfs : same_record tracker_id (with_fs (λ _, f1) a) (with_fs (λ _, f2) i)).
  { eapply same_record_trans; [apply same_record_with_fs|].
    eapply same_record_trans; [exact Hai|].
    apply same_record_sym, same_record_with_fs. }
  destruct r2 as [[]|e]; [|done].
  by apply IH, same_record_update.
Qed.

Lemma create_zip_file_sim (job_id : pystr) (contents : list (pystr * pystr))
  (a i : world) :
  same_record tracker_id a i →
  same_record tracker_id (fst (create_zip_file contents job_id tracker_id a))
    (fst (create_zip_file contents job_id tracker_id i)) ∧
  snd (create_zip_file contents job_id tracker_id a) =
  snd (create_zip_file contents job_id tracker_id i).
Proof.
  intros Hai. unfold create_zip_file.
  destruct (write_entries_sim job_id contents 0
              (update_progress tracker_id (SetSuccessful 0)
                 (with_fs (mkdir job_id) a))
              (update_progress tracker_id (SetSuccessful 0)
                 (with_fs (mkdir job_id) i))) as [Hw Hs].
  { apply same_record_update.
    eapply same_record_trans; [apply same_record_with_fs|].
    eapply same_record_trans; [exact Hai|].
    apply same_record_sym, same_record_with_fs. }
  destruct (write_entries contents job_id tracker_id 0
              (update_progress tracker_id (SetSuccessful 0)
                 (with_fs (mkdir job_id) a))) as [a2 r1].
  destruct (write_entries contents job_id tracker_id 0
              (update_progress tracker_id (SetSuccessful 0)
                 (with_fs (mkdir job_id) i))) as [i2 r2].
  cbn [fst snd] in *. subst r1. destruct r2 as [file_count|e]; [|done].
  destruct (file_count =? 0); [done|].
  destruct (os_error _); [done|]. cbn [fst snd]. split; [|done].
  eapply same_record_trans; [apply same_record_with_fs|].
  eapply same_record_trans; [apply same_record_with_fs|].
  eapply same_record_trans; [exact Hw|].
  apply same_record_sym.
  eapply same_record_trans; [apply same_record_with_fs|].
  apply same_record_with_fs.
Qed.

Lemma finish_crawl_sim (url job_id : pystr) (links : list pystr)
  (results : list (pystr * pystr)) (a i : world) :
  same_record tracker_id a i →
  same_record tracker_id (fst (finish_crawl url job_id tracker_id links results a))
    (fst (finish_crawl url job_id tracker_id links results i)) ∧
  snd (finish_crawl url job_id tracker_id links results a) =
  snd (finish_crawl url job_id tracker_id links results i).
Proof.
  intros Hai. unfold finish_crawl.
  destruct (create_zip_file_sim job_id results a i Hai) as [Hw Hs].
  destruct (create_zip_file results job_id tracker_id a) as [a1 r1].
  destruct (create_zip_file results job_id tracker_id i) as [i1 r2].
  cbn [fst snd] in *. subst r1.
  assert (Hreg : same_record tracker_id
            match r2 with
            | Ok zip_path => register_result job_id zip_path a1
            | Raise _ => a1
            end
            match r2 with
            | Ok zip_path => register_result job_id zip_path i1
            | Raise _ => i1
            end).
  { destruct r2 as [zip_path|e]; [|done].
    eapply same_record_trans; [apply same_record_register|].
    eapply same_record_trans; [exact Hw|].
    apply same_record_sym, same_record_register. }
  split; [by apply same_record_delete|].
  destruct Hreg as [Hrec _]. by rewrite Hrec.
Qed.

Lemma scrape_url_sim (url job_id : pystr) (env : environment) (a i : world) :
  tracker_id = str_of_Z (py_hash url) →
  same_record tracker_id a i →
  same_record tracker_id (fst (scrape_url_among meanwhile url job_id env a))
    (fst (scrape_url url job_id env i)) ∧
  snd (scrape_url_among meanwhile url job_id env a) =
  snd (scrape_url url job_id env i).
Proof.
  intros Htid Hai. unfold scrape_url_among, scrape_url, crawl_among, crawl.
  rewrite <- Htid.
  destruct (collect_pages_sim url env a i Hai) as [Hw Hs].
  destruct (collect_pages_among meanwhile url tracker_id env a) as [a1 r1].
  destruct (collect_pages url tracker_id env i) as [i1 r2].
  cbn [fst snd] in *. subst r1. destruct r2 as [[links results]|e].
  - destruct (finish_crawl_sim url job_id links results a1 i1 Hw) as [Hw2 Hs2].
    destruct (finish_crawl url job_id tracker_id links results a1) as [a2 r3].
    destruct (finish_crawl url job_id tracker_id links results i1) as [i2 r4].
    cbn [fst snd] in *. by subst r3.
  - cbn [fst snd]. split; [by apply same_record_cleanup|done].
Qed.

End Simulation.

Section AmongOthers.
Context `{PyRuntime}.


(** X16: for a new job, as long as no other task writes the record of
    the job and when the archive can be written, the three counts of the
    response add up to the number of URLs it lists, the seed and its
    links: every URL is counted once, as successful, skipped or failed.
    Only the seed can be counted as skipped, and it is when it matches a
    skip pattern. *)
Theorem response_counts_add_up (meanwhile : world → world)
  (url job_id : pystr) (env : environment) (w : world) (links : list pystr)
  (results : list (pystr * pystr)) (r : ScrapeResponse.t) :
  let tracker_id := str_of_Z (py_hash url) in
  progress_tracker w !! tracker_id = None →
  quiet_for tracker_id meanwhile →
  any_order env →
  snd (collect_pages_among meanwhile url tracker_id env w) = Ok (links, results) →
  writable job_id results →
  snd (scrape_url_among meanwhile url job_id env w) = Ok r →
  (0 ≤ ScrapeResponse.successful r ∧ 0 ≤ ScrapeResponse.failed r ∧
   ScrapeResponse.skipped r = (if matches_skip_pattern url then 1 else 0) ∧
   ScrapeResponse.successful r + ScrapeResponse.skipped r +
   ScrapeResponse.failed r = Z.of_nat (length (ScrapeResponse.links r)))%Z.
Proof.
  intros tracker_id Hfresh Hquiet Hany Hpages Hcan Hok.
  destruct (collect_pages_sim meanwhile tracker_id Hquiet url env w w
              (same_record_refl _ _)) as [_ Hsnd1].
  destruct (scrape_url_sim meanwhile tracker_id Hquiet url job_id env w w
              eq_refl (same_record_refl _ _)) as [_ Hsnd2].
  rewrite Hsnd1 in Hpages. rewrite Hsnd2 in Hok.
  exact (isolated_counts_add_up url job_id env w links results r Hfresh Hany
           Hpages Hcan Hok).
Qed.

End AmongOthers.

Lemma other_job_quiet :
  quiet_for (str_of_Z (example_hash example_url)) other_job.
Proof.
  intros w. apply same_record_other. intros Heq. by vm_compute in Heq.
Qed.


(** The condition of C1 is needed: when a second crawl of the same URL
    fetches the seed while the first awaits the page of the seed, the
    first crawl's own write [processed = 1] (line 445) leaves two
    potential successes against one processed URL. The tuples are
    [(processed, potential_successful, skipped, failed)] after each write
    to the shared record. *)
Example shared_record_breaks_counts :
  let tracker_id := str_of_Z (example_hash example_url) in
  let w' := fst (@scrape_url_among example_runtime second_crawl example_url
                   (py "job-1") env_served empty_world) in
  map (λ p, (processed p, potential_successful p, skipped p, failed p))
    (job_snapshots tracker_id w') =
    [(0, 0, 0, 0); (1, 0, 0, 0); (1, 1, 0, 0); (1, 1, 0, 0); (2, 1, 0, 0);
     (2, 2, 0, 0); (2, 2, 0, 0); (1, 2, 0, 0); (1, 2, 0, 0); (1, 2, 0, 0)]%Z ∧
  Exists (λ p, ¬ counted p) (job_snapshots tracker_id w').
Proof.
  intros tracker_id w'.
  remember (job_snapshots tracker_id w') as l eqn:Hl.
  assert (Hmap :
    map (λ p, (processed p, potential_successful p, skipped p, failed p)) l =
    [(0, 0, 0, 0); (1, 0, 0, 0); (1, 1, 0, 0); (1, 1, 0, 0); (2, 1, 0, 0);
     (2, 2, 0, 0); (2, 2, 0, 0); (1, 2, 0, 0); (1, 2, 0, 0); (1, 2, 0, 0)]%Z)
    by (subst l; by vm_compute).
  clear Hl. split; [exact Hmap|].
  apply (List.Exists_map
           (λ p, (processed p, potential_successful p, skipped p, failed p))
           (λ k, ¬ (k.1.1.2 + k.1.2 + k.2 ≤ k.1.1.1)%Z)).
  rewrite Hmap. do 7 apply Exists_cons_tl. apply Exists_cons_hd. cbn. lia.
Qed.

Lemma env_links_pages_among :
  snd (@collect_pages_among example_runtime other_job example_url
         (str_of_Z (example_hash example_url)) env_links empty_world) =
    Ok (List.filter (@kept_link example_runtime) seed_hrefs, env_links_results).
Proof. by vm_compute. Qed.

Lemma response_counts_add_up_witness :
  progress_tracker empty_world !! str_of_Z (example_hash example_url) = None ∧
  quiet_for (str_of_Z (example_hash example_url)) other_job ∧
  any_order env_links ∧
  snd (@scrape_url_among example_runtime other_job example_url (py "job-1")
         env_links empty_world) = Ok env_links_response ∧
  (ScrapeResponse.successful env_links_response +
   ScrapeResponse.skipped env_links_response +
   ScrapeResponse.failed env_links_response =
   Z.of_nat (length (ScrapeResponse.links env_links_response)))%Z.
Proof.
  assert (Hfresh : progress_tracker empty_world !!
                     str_of_Z (example_hash example_url) = None) by done.
  assert (Hany : any_order env_links)
    by (intros l; symmetry; apply Permutation_rev).
  assert (Hok : snd (@scrape_url_among example_runtime other_job example_url
                       (py "job-1") env_links empty_world) = Ok env_links_response)
    by (by vm_compute).
  split; [exact Hfresh|]. split; [exact other_job_quiet|].
  split; [exact Hany|]. split; [exact Hok|].
  exact (proj2 (proj2 (proj2
           (@response_counts_add_up example_runtime other_job example_url
              (py "job-1") env_links empty_world _ _ env_links_response Hfresh
              other_job_quiet Hany env_links_pages_among env_links_writable Hok)))).
Defined.

(** ** The archive builder: a write that fails *)

Section WriteFailure.
Context `{PyRuntime}.

(** X23: when the file of a surviving pair cannot be written ([open]
    raises [OSError], or the text holds a lone surrogate and [f.write]
    raises [UnicodeEncodeError]) and the files before it could,
    [create_zip_file] leaves by that exception: no archive is written,
    the directory of the job stays behind, and the record counts as
    successful the files written before, the failed write not
    included. *)
Theorem create_zip_file_write_failure (before rest : list (pystr * pystr))
  (item : pystr * pystr) (e : exn) (job_id tracker_id : pystr) (w : world) :
  Forall (λ item, write_error job_id (fst (entry_of item)) (snd (entry_of item))
                  = None) (survivors before) →
  survivors [item] = [item] →
  write_error job_id (fst (entry_of item)) (snd (entry_of item)) = Some e →
  let r := create_zip_file (before ++ item :: rest) job_id tracker_id w in
  snd r = Raise e ∧
  zips (fs (fst r)) = zips (fs w) ∧
  is_Some (dirs (fs (fst r)) !! job_id) ∧
  successful (record_of tracker_id (fst r)) =
    Z.of_nat (length (survivors before)) ∧
  failed (record_of tracker_id (fst r)) =
    (failed (record_of tracker_id w) + Z.of_nat (length (rejected before)))%Z ∧
  processed (record_of tracker_id (fst r)) = processed (record_of tracker_id w).
Proof.
  intros Hcan Hitem Hfail. cbn zeta. unfold create_zip_file.
  set (w1 := update_progress tracker_id (SetSuccessful 0) (with_fs (mkdir job_id) w)).
  assert (Hdir : is_Some (dirs (fs w1) !! job_id)).
  { subst w1. cbn. destruct (dirs (fs w) !! job_id) eqn:E; [by rewrite E|].
    by rewrite lookup_insert_eq. }
  destruct (write_entries_fails job_id tracker_id before rest item e Hcan Hitem
              Hfail 0 w1) as (Hr & Hz & Hd & Hadv).
  destruct (write_entries (before ++ item :: rest) job_id tracker_id 0 w1)
    as [w2 r2]. cbn [fst snd] in *. subst r2. cbn [fst snd].
  split; [done|]. split; [by rewrite Hz|]. split; [by apply Hd|].
  subst w1. rewrite record_of_update, record_of_with_fs in Hadv.
  revert Hadv. unfold advanced. destruct (record_of tracker_id w). cbn. lia.
Qed.

End WriteFailure.

Lemma create_zip_file_write_failure_witness :
  snd (@create_zip_file example_runtime pages_with_surrogate (py "job-1")
         example_tracker empty_world) =
    Raise (UnicodeEncodeError
             (py "# Original URL: https://example.com/odd" ++ [NL; NL] ++
              surrogate_page) 115 116) ∧
  successful (record_of example_tracker
                (fst (@create_zip_file example_runtime pages_with_surrogate
                        (py "job-1") example_tracker empty_world))) = 1%Z.
Proof.
  destruct (@create_zip_file_write_failure example_runtime
              [(example_url, valid_page)] []
              (py "https://example.com/odd", surrogate_page)
              (UnicodeEncodeError
                 (py "# Original URL: https://example.com/odd" ++ [NL; NL] ++
                  surrogate_page) 115 116)
              (py "job-1") example_tracker empty_world)
    as (Hr & _ & _ & Hs & _).
  - assert (Hs : survivors [(example_url, valid_page)] =
                 [(example_url, valid_page)]) by (by vm_compute).
    rewrite Hs. constructor; [by vm_compute|constructor].
  - by vm_compute.
  - by vm_compute.
  - split; [exact Hr|exact Hs].
Defined.

(** In a crawl the exception is swallowed (lines 467-469): the response
    still counts the file written before the failure as a success, and
    the job is not registered for download. *)
Example surrogate_page_in_a_crawl :
  let env := {| seed_replies := λ _, Response 200 valid_page;
                seed_page := Ok [py "https://example.com/odd"];
                link_replies := λ _ _, Response 200 surrogate_page;
                completion_order := λ l, l |} in
  let run := @scrape_url example_runtime example_url (py "job-1") env empty_world in
  (ScrapeResponse.successful <$>
     match snd run with Ok r => Some r | Raise _ => None end) = Some 1%Z ∧
  results_tracker (fst run) !! py "job-1" = None ∧
  @download_results (py "job-1") (fst run) =
    Raise (HTTPException 404 (py "Results not found")).
Proof. by vm_compute. Qed.

Example encode_error_message :
  str_of_exn (UnicodeEncodeError (py "ab" ++ [55296%N]) 2 3) =
    py "'utf-8' codec can't encode character '\ud800' in position 2: surrogates not allowed".
Proof. by vm_compute. Qed.
